(** * go-jwx: JWS and JWE headers, encoded headers and JWE decryption

    A shallow embedding of [jws/interface.go] and of the two packages held in
    [jws/message.go] (package [jws], and package [jwe] after the separator),
    with the properties of the header model, of the encoded header and of
    [Message.Decrypt] stated over it.

    Conventions of the embedding
    - a Go [string], [[]byte] and [buffer.Buffer] is a Rocq [string] (a
      sequence of 8-bit characters); a nil and an empty byte buffer are not
      told apart, the code only ever asks for their length;
    - a [[]string] is an [option (list string)]: [None] is the nil slice,
      which the code compares against;
    - a [*Header] is an [option loc]: [None] is nil, [Some l] the address of a
      header object in the store; a header object owns its essential struct
      and its parameter map, as [NewHeader] builds it;
    - a Go function that writes through a pointer is a function of the store;
      dereferencing nil is [Panic];
    - an [error] is its message. *)

From Stdlib Require Import String Ascii NArith ZArith List Lia.
From stdpp Require Import base option list gmap strings.

Local Open Scope string_scope.
Local Open Scope list_scope.

(** ** Go values *)

Definition Buffer := string.
Definition error := string.

(** [*url.URL]: the parsed form of a text; [url.Parse] itself is a parameter of
    the functions that call it. *)
Inductive URL := ParsedURL (text : string).

(** [jwk.Key] and [*jwk.EcdsaPublicKey] are opaque to this code. *)
Inductive jwk_Key := JwkKey (id : string).
Inductive jwk_EcdsaPublicKey := EcdsaPublicKey (id : string).

(** [interface{}]: the dynamic types the code asserts on, and the rest. *)
Inductive value :=
| VString (s : string)
| VSignatureAlgorithm (s : string)
| VKeyEncryptionAlgorithm (s : string)
| VContentEncryptionAlgorithm (s : string)
| VStringSlice (l : option (list string))
| VBuffer (b : Buffer)
| VBytes (b : Buffer)
| VEcdsaPublicKey (k : option jwk_EcdsaPublicKey)
| VOther (tag : nat).

Definition loc := nat.
Definition ptr := option loc.

(** [x != nil] for a slice, a pointer or an interface. *)
Definition notnil {A} (x : option A) : bool :=
  match x with Some _ => true | None => false end.

(** [if c { h.F = v }]: the struct after the statement, for the assignment
    [assign]. *)
Definition when {S} (c : bool) (assign : S -> S) (h : S) : S :=
  if c then assign h else h.

(** The value a field has after a merge as the specification words it: the
    argument's value when that is not empty (zero or absent), the receiver's
    value when it is. One definition per kind of field: strings, byte
    buffers, and slices, pointers and interfaces. *)
Definition merged_string (receiver argument : string) : string :=
  if String.eqb argument "" then receiver else argument.
Definition merged_buffer (receiver argument : string) : string :=
  if Nat.eqb (String.length argument) 0 then receiver else argument.
Definition merged_nilable {A} (receiver argument : option A) : option A :=
  match argument with None => receiver | Some _ => argument end.

(** ** Stores of objects and the monad of code that writes through pointers *)

Section Heap.
Context {Obj : Type}.

Inductive outcome (A : Type) :=
| Done (a : A) (s : list Obj)
| Panic.
Global Arguments Done {A} a s.
Global Arguments Panic {A}.

Definition M (A : Type) := list Obj -> outcome A.

Definition ret {A} (a : A) : M A := fun s => Done a s.

Definition bind {A B} (c : M A) (k : A -> M B) : M B :=
  fun s => match c s with
           | Done a s' => k a s'
           | Panic => Panic
           end.

(** [&T{...}]: a new object at a new address. *)
Definition alloc (o : Obj) : M loc :=
  fun s => Done (length s) (s ++ [o]).

(** [*p], reading. *)
Definition deref (p : ptr) : M Obj :=
  fun s => match p with
           | None => Panic
           | Some l => match s !! l with
                       | Some o => Done o s
                       | None => Panic
                       end
           end.

(** [p.f = v]: writing a part of [*p]. *)
Definition update (p : ptr) (f : Obj -> Obj) : M unit :=
  fun s => match p with
           | None => Panic
           | Some l => match s !! l with
                       | Some o => Done tt (<[l := f o]> s)
                       | None => Panic
                       end
           end.
End Heap.

Notation "'let*' x := c 'in' k" := (bind c (fun x => k))
  (at level 10, x pattern, c at level 100, k at level 200).
Notation "c ;; k" := (bind c (fun _ => k))
  (at level 100, k at level 200, right associativity).

(** ** Package jwa: the constants the code names *)

Module jwa.
(** Modelled from the spec: [jwa.NoSignature], the "no signature" sentinel
    algorithm, and [jwa.Deflate], the compression indicator; package [jwa]
    is not among the sources, the values are the JOSE names. *)
Definition NoSignature : string := "none".
Definition Deflate : string := "DEF".
End jwa.

(** ** Package buffer: base64url without padding *)

Module buffer.
Definition alphabet : list ascii :=
  list_ascii_of_string
    "ABCDEFGHIJKLMNOPQRSTUVWXYZabcdefghijklmnopqrstuvwxyz0123456789-_".

Definition digit (n : N) : ascii := nth (N.to_nat n) alphabet "A"%char.

Fixpoint encode (l : list ascii) : list ascii :=
  match l with
  | a :: b :: c :: rest =>
      let x := N_of_ascii a in
      let y := N_of_ascii b in
      let z := N_of_ascii c in
      digit (x / 4) :: digit ((x mod 4) * 16 + y / 16)
        :: digit ((y mod 16) * 4 + z / 64) :: digit (z mod 64)
        :: encode rest
  | [a; b] =>
      let x := N_of_ascii a in
      let y := N_of_ascii b in
      [digit (x / 4); digit ((x mod 4) * 16 + y / 16); digit ((y mod 16) * 4)]
  | [a] =>
      let x := N_of_ascii a in
      [digit (x / 4); digit ((x mod 4) * 16)]
  | [] => []
  end%N.

Fixpoint index_of (c : ascii) (l : list ascii) (i : N) : option N :=
  match l with
  | [] => None
  | d :: l' => if Ascii.eqb c d then Some i else index_of c l' (N.succ i)
  end.

Definition sextet (c : ascii) : option N := index_of c alphabet 0%N.

Fixpoint decode (l : list ascii) : option (list ascii) :=
  match l with
  | a :: b :: c :: d :: rest =>
      w ← sextet a; x ← sextet b; y ← sextet c; z ← sextet d;
      tl ← decode rest;
      Some (ascii_of_N (w * 4 + x / 16)
              :: ascii_of_N ((x mod 16) * 16 + y / 4)
              :: ascii_of_N ((y mod 4) * 64 + z) :: tl)
  | [a; b; c] =>
      w ← sextet a; x ← sextet b; y ← sextet c;
      Some [ascii_of_N (w * 4 + x / 16); ascii_of_N ((x mod 16) * 16 + y / 4)]
  | [a; b] =>
      w ← sextet a; x ← sextet b;
      Some [ascii_of_N (w * 4 + x / 16)]
  | [_] => None
  | [] => Some []
  end%N.

(** Modelled from the spec: [Buffer.Base64Encode], the base64url encoding
    without padding of a byte buffer (package [buffer] is not among the
    sources). Its Go signature returns an error next to the bytes; the
    encoding has none to report. *)
Definition Base64Encode (b : Buffer) : Buffer * option error :=
  (string_of_list_ascii (encode (list_ascii_of_string b)), None).

Definition Base64Decode (b : Buffer) : option Buffer :=
  string_of_list_ascii <$> decode (list_ascii_of_string b).
End buffer.

(** ** encoding/json, as far as the encoded headers call it

    The calls of [encoding/json] that do not depend on the header type:
    - [checkValid]: the syntax check [json.Unmarshal] runs before it writes
      anything ([None]: well-formed);
    - [isNull]: whether the text is the JSON literal [null], for which
      [json.Unmarshal] sets a pointer to nil instead of calling its
      [UnmarshalJSON];
    - [Marshal_string]: [json.Marshal(string(buf))];
    - [Unmarshal_Buffer]: [json.Unmarshal(buf, &b)] for a [buffer.Buffer]
      [b], the bytes a JSON string of base64url text stands for. *)
Record encoding_json := {
  checkValid : Buffer -> option error;
  isNull : Buffer -> bool;
  Marshal_string : string -> Buffer * option error;
  Unmarshal_Buffer : Buffer -> Buffer * option error
}.

(** ** Package jws (jws/interface.go, jws/message.go) *)

Module jws.

Definition ErrInvalidHeaderValue : error := "invalid value for header key".

Record EssentialHeader := mkEssentialHeader {
  Algorithm : string;
  ContentType : string;
  Critical : option (list string);
  Jwk : option jwk_Key;
  JwkSetURL : option URL;
  KeyID : string;
  Type' : string;
  X509Url : option URL;
  X509CertChain : option (list string);
  X509CertThumbprint : string;
  X509CertThumbprintS256 : string
}.

(** [EssentialHeader{}] *)
Definition zero : EssentialHeader :=
  mkEssentialHeader "" "" None None None "" "" None None "" "".

(** The assignments [h.F = v], one per field the code writes. *)
Definition set_Algorithm v (e : EssentialHeader) :=
  mkEssentialHeader v (ContentType e) (Critical e) (Jwk e) (JwkSetURL e)
    (KeyID e) (Type' e) (X509Url e) (X509CertChain e)
    (X509CertThumbprint e) (X509CertThumbprintS256 e).
Definition set_ContentType v (e : EssentialHeader) :=
  mkEssentialHeader (Algorithm e) v (Critical e) (Jwk e) (JwkSetURL e)
    (KeyID e) (Type' e) (X509Url e) (X509CertChain e)
    (X509CertThumbprint e) (X509CertThumbprintS256 e).
Definition set_Critical v (e : EssentialHeader) :=
  mkEssentialHeader (Algorithm e) (ContentType e) v (Jwk e) (JwkSetURL e)
    (KeyID e) (Type' e) (X509Url e) (X509CertChain e)
    (X509CertThumbprint e) (X509CertThumbprintS256 e).
Definition set_JwkSetURL v (e : EssentialHeader) :=
  mkEssentialHeader (Algorithm e) (ContentType e) (Critical e) (Jwk e) v
    (KeyID e) (Type' e) (X509Url e) (X509CertChain e)
    (X509CertThumbprint e) (X509CertThumbprintS256 e).
Definition set_KeyID v (e : EssentialHeader) :=
  mkEssentialHeader (Algorithm e) (ContentType e) (Critical e) (Jwk e)
    (JwkSetURL e) v (Type' e) (X509Url e) (X509CertChain e)
    (X509CertThumbprint e) (X509CertThumbprintS256 e).
Definition set_Type v (e : EssentialHeader) :=
  mkEssentialHeader (Algorithm e) (ContentType e) (Critical e) (Jwk e)
    (JwkSetURL e) (KeyID e) v (X509Url e) (X509CertChain e)
    (X509CertThumbprint e) (X509CertThumbprintS256 e).
Definition set_X509Url v (e : EssentialHeader) :=
  mkEssentialHeader (Algorithm e) (ContentType e) (Critical e) (Jwk e)
    (JwkSetURL e) (KeyID e) (Type' e) v (X509CertChain e)
    (X509CertThumbprint e) (X509CertThumbprintS256 e).
Definition set_X509CertChain v (e : EssentialHeader) :=
  mkEssentialHeader (Algorithm e) (ContentType e) (Critical e) (Jwk e)
    (JwkSetURL e) (KeyID e) (Type' e) (X509Url e) v
    (X509CertThumbprint e) (X509CertThumbprintS256 e).
Definition set_X509CertThumbprint v (e : EssentialHeader) :=
  mkEssentialHeader (Algorithm e) (ContentType e) (Critical e) (Jwk e)
    (JwkSetURL e) (KeyID e) (Type' e) (X509Url e) (X509CertChain e)
    v (X509CertThumbprintS256 e).
Definition set_X509CertThumbprintS256 v (e : EssentialHeader) :=
  mkEssentialHeader (Algorithm e) (ContentType e) (Critical e) (Jwk e)
    (JwkSetURL e) (KeyID e) (Type' e) (X509Url e) (X509CertChain e)
    (X509CertThumbprint e) v.

(** [h] with the two fields that Copy and Merge of this package leave
    out set to given values; it serves to state what they do. *)
Definition set_Jwk_Critical j c (e : EssentialHeader) :=
  mkEssentialHeader (Algorithm e) (ContentType e) c j (JwkSetURL e)
    (KeyID e) (Type' e) (X509Url e) (X509CertChain e)
    (X509CertThumbprint e) (X509CertThumbprintS256 e).

(** A header object: the struct [Header] with the [EssentialHeader] its
    embedded pointer owns and its [PrivateParams] map. *)
Record Header := mkHeader {
  Essential : EssentialHeader;
  PrivateParams : gmap string value
}.

Definition on_essential (f : EssentialHeader -> EssentialHeader) (h : Header) :=
  mkHeader (f (Essential h)) (PrivateParams h).
Definition on_params (f : gmap string value -> gmap string value)
  (h : Header) :=
  mkHeader (Essential h) (f (PrivateParams h)).

(** [type EncodedHeader struct { *Header; Source buffer.Buffer }] *)
Record EncodedHeader := mkEncodedHeader {
  Header_of : ptr;
  Source : Buffer
}.

Definition NewHeader : M loc := alloc (mkHeader zero ∅).

(** The [case] labels of the [switch key] of [Header.Set], in order. *)
Inductive key_case :=
| K_alg | K_cty | K_kid | K_typ | K_x5t | K_x5t256 | K_x5c | K_crit
| K_jku | K_x5u | K_default.

Definition switch_key (key : string) : key_case :=
  if String.eqb key "alg" then K_alg
  else if String.eqb key "cty" then K_cty
  else if String.eqb key "kid" then K_kid
  else if String.eqb key "typ" then K_typ
  else if String.eqb key "x5t" then K_x5t
  else if String.eqb key "x5t#256" then K_x5t256
  else if String.eqb key "x5c" then K_x5c
  else if String.eqb key "crit" then K_crit
  else if String.eqb key "jku" then K_jku
  else if String.eqb key "x5u" then K_x5u
  else K_default.

(** [for k, v := range src { dst[k] = v }] *)
Definition copy_params (src dst : gmap string value) : gmap string value :=
  map_fold (fun k v acc => <[k := v]> acc) dst src.

Section WithURL.
Variable url_Parse : string -> option URL.

(** An assignment through [h] followed by the final [return nil]. *)
Definition assign (h : ptr) (f : Header -> Header) : M (option error) :=
  update h f ;; ret None.

Definition Header_Set (h : ptr) (key : string) (v : value)
  : M (option error) :=
  match switch_key key with
  | K_alg =>
      match v with
      | VString s => assign h (on_essential (set_Algorithm s))
      | VSignatureAlgorithm s => assign h (on_essential (set_Algorithm s))
      | _ => ret (Some ErrInvalidHeaderValue)
      end
  | K_cty =>
      match v with
      | VString s => assign h (on_essential (set_ContentType s))
      | _ => ret (Some ErrInvalidHeaderValue)
      end
  | K_kid =>
      match v with
      | VString s => assign h (on_essential (set_KeyID s))
      | _ => ret (Some ErrInvalidHeaderValue)
      end
  | K_typ =>
      match v with
      | VString s => assign h (on_essential (set_Type s))
      | _ => ret (Some ErrInvalidHeaderValue)
      end
  | K_x5t =>
      match v with
      | VString s => assign h (on_essential (set_X509CertThumbprint s))
      | _ => ret (Some ErrInvalidHeaderValue)
      end
  | K_x5t256 =>
      match v with
      | VString s => assign h (on_essential (set_X509CertThumbprintS256 s))
      | _ => ret (Some ErrInvalidHeaderValue)
      end
  | K_x5c =>
      match v with
      | VStringSlice l => assign h (on_essential (set_X509CertChain l))
      | _ => ret (Some ErrInvalidHeaderValue)
      end
  | K_crit =>
      match v with
      | VStringSlice l => assign h (on_essential (set_Critical l))
      | _ => ret (Some ErrInvalidHeaderValue)
      end
  | K_jku =>
      match v with
      | VString s =>
          match url_Parse s with
          | Some u => assign h (on_essential (set_JwkSetURL (Some u)))
          | None => ret (Some ErrInvalidHeaderValue)
          end
      | _ => ret (Some ErrInvalidHeaderValue)
      end
  | K_x5u =>
      match v with
      | VString s =>
          match url_Parse s with
          | Some u => assign h (on_essential (set_X509Url (Some u)))
          | None => ret (Some ErrInvalidHeaderValue)
          end
      | _ => ret (Some ErrInvalidHeaderValue)
      end
  | K_default => assign h (on_params (insert key v))
  end.
End WithURL.

(** [func (h1 *EssentialHeader) Merge(h2 *EssentialHeader)]: the value of
    [*h1] after the call. *)
Definition EssentialHeader_Merge (h1 h2 : EssentialHeader) : EssentialHeader :=
  let h1 := when (negb (String.eqb (Algorithm h2) ""))
              (set_Algorithm (Algorithm h2)) h1 in
  let h1 := when (negb (String.eqb (ContentType h2) ""))
              (set_ContentType (ContentType h2)) h1 in
  let h1 := when (notnil (JwkSetURL h2)) (set_JwkSetURL (JwkSetURL h2)) h1 in
  let h1 := when (negb (String.eqb (KeyID h2) ""))
              (set_KeyID (KeyID h2)) h1 in
  let h1 := when (negb (String.eqb (Type' h2) ""))
              (set_Type (Type' h2)) h1 in
  let h1 := when (notnil (X509Url h2)) (set_X509Url (X509Url h2)) h1 in
  let h1 := when (notnil (X509CertChain h2))
              (set_X509CertChain (X509CertChain h2)) h1 in
  let h1 := when (negb (String.eqb (X509CertThumbprint h2) ""))
              (set_X509CertThumbprint (X509CertThumbprint h2)) h1 in
  let h1 := when (negb (String.eqb (X509CertThumbprintS256 h2) ""))
              (set_X509CertThumbprintS256 (X509CertThumbprintS256 h2)) h1 in
  h1.

(** [func (h1 *EssentialHeader) Copy(h2 *EssentialHeader)]: the value of
    [*h1] after the call. *)
Definition EssentialHeader_Copy (h1 h2 : EssentialHeader) : EssentialHeader :=
  let h1 := set_Algorithm (Algorithm h2) h1 in
  let h1 := set_ContentType (ContentType h2) h1 in
  let h1 := set_JwkSetURL (JwkSetURL h2) h1 in
  let h1 := set_KeyID (KeyID h2) h1 in
  let h1 := set_Type (Type' h2) h1 in
  let h1 := set_X509Url (X509Url h2) h1 in
  let h1 := set_X509CertChain (X509CertChain h2) h1 in
  let h1 := set_X509CertThumbprint (X509CertThumbprint h2) h1 in
  let h1 := set_X509CertThumbprintS256 (X509CertThumbprintS256 h2) h1 in
  h1.

Definition Header_Copy (h1 h2 : ptr) : M (option error) :=
  match h1 with
  | None => ret (Some "copy destination is nil")
  | Some _ =>
      match h2 with
      | None => ret (Some "copy target is nil")
      | Some _ =>
          let* src := deref h2 in
          update h1
            (on_essential (fun e => EssentialHeader_Copy e (Essential src))) ;;
          let* src := deref h2 in
          update h1 (on_params (copy_params (PrivateParams src))) ;;
          ret None
      end
  end.

Definition Header_Merge (h1 h2 : ptr) : M (ptr * option error) :=
  match h2 with
  | None => ret (None, Some "merge target is nil")
  | Some _ =>
      let* h3 := NewHeader in
      let* err := Header_Copy (Some h3) h1 in
      match err with
      | Some e => ret (None, Some e)
      | None =>
          let* src := deref h2 in
          update (Some h3)
            (on_essential (fun e => EssentialHeader_Merge e (Essential src))) ;;
          let* src := deref h2 in
          update (Some h3) (on_params (copy_params (PrivateParams src))) ;;
          ret (Some h3, None)
      end
  end.

(** *** Construct *)

Section WithHmap.
(** [emap.Hmap.GetString] and [GetStringSlice] (package [emap] is not among
    the sources): the value read under a name and the error. *)
Variable GetString : gmap string value -> string -> string * option error.
Variable GetStringSlice :
  gmap string value -> string -> option (list string) * option error.
Variable url_Parse : string -> option URL.

(** [func (h *EssentialHeader) Construct(m map[string]interface{}) error]:
    the value of [*h] after the call and the error returned. *)
Definition EssentialHeader_Construct (h : EssentialHeader)
  (m : gmap string value) : EssentialHeader * option error :=
  let h := match GetString m "alg" with
           | (alg, None) => set_Algorithm alg h
           | (_, Some _) => h
           end in
  let h := if String.eqb (Algorithm h) "" then set_Algorithm jwa.NoSignature h
           else h in
  let h := set_ContentType (fst (GetString m "cty")) h in
  let h := set_KeyID (fst (GetString m "kid")) h in
  let h := set_Type (fst (GetString m "typ")) h in
  let h := set_X509CertThumbprint (fst (GetString m "x5t")) h in
  let h := set_X509CertThumbprintS256 (fst (GetString m "x5t#256")) h in
  let h := match GetStringSlice m "crit" with
           | (v, Some _) => set_Critical v h
           | (_, None) => h
           end in
  let h := match GetStringSlice m "x5c" with
           | (v, Some _) => set_X509CertChain v h
           | (_, None) => h
           end in
  let h := match GetString m "jku" with
           | (v, None) =>
               match url_Parse v with
               | Some u => set_JwkSetURL (Some u) h
               | None => h
               end
           | (_, Some _) => h
           end in
  let h := match GetString m "x5u" with
           | (v, None) =>
               match url_Parse v with
               | Some u => set_X509Url (Some u) h
               | None => h
               end
           | (_, Some _) => h
           end in
  (h, None).
End WithHmap.

(** *** Headers and encoded headers as JSON *)

(** [emap.MergeMarshal] and [emap.MergeUnmarshal] at this package's header
    type (package [emap] is not among the sources): the JSON object of an
    essential struct and a parameter map, and the struct and the map after
    reading an object into them. *)
Record emap_pkg := {
  MergeMarshal : EssentialHeader -> gmap string value -> Buffer * option error;
  MergeUnmarshal : Buffer -> EssentialHeader -> gmap string value ->
                   EssentialHeader * gmap string value * option error
}.

Section WithJSON.
Variable J : encoding_json.
Variable E : emap_pkg.

Definition Header_MarshalJSON (h : Header) : Buffer * option error :=
  MergeMarshal E (Essential h) (PrivateParams h).

Definition Header_UnmarshalJSON (h : ptr) (data : Buffer)
  : M (option error) :=
  let* o := deref h in
  let '(e, p, err) := MergeUnmarshal E data (Essential o) (PrivateParams o) in
  update h (fun _ => mkHeader e p) ;;
  ret err.

(** [json.Marshal(e.Header)] for a [*Header]: nil is [null], anything else
    goes through [Header.MarshalJSON]. *)
Definition json_Marshal_Header (h : ptr) : M (Buffer * option error) :=
  match h with
  | None => ret ("null", None)
  | Some _ => let* o := deref h in ret (Header_MarshalJSON o)
  end.

(** [json.Unmarshal(data, &e.Header)]: the pointer afterwards and the
    error. A nil pointer is given a new header before
    [Header.UnmarshalJSON] runs, which fills its two parts. *)
Definition json_Unmarshal_Header (data : Buffer) (h : ptr)
  : M (ptr * option error) :=
  match checkValid J data with
  | Some err => ret (h, Some err)
  | None =>
      if isNull J data then ret (None, None)
      else
        let* l := match h with
                  | Some l => ret l
                  | None => NewHeader
                  end in
        let* err := Header_UnmarshalJSON (Some l) data in
        ret (Some l, err)
  end.

(** [func (h Header) Base64Encode() ([]byte, error)] *)
Definition Header_Base64Encode (h : Header) : Buffer * option error :=
  match Header_MarshalJSON h with
  | (_, Some err) => ("", Some err)
  | (b, None) => buffer.Base64Encode b
  end.

(** [func (e EncodedHeader) MarshalJSON() ([]byte, error)] *)
Definition EncodedHeader_MarshalJSON (e : EncodedHeader)
  : M (Buffer * option error) :=
  let* r := json_Marshal_Header (Header_of e) in
  match r with
  | (_, Some err) => ret ("", Some err)
  | (buf, None) =>
      match buffer.Base64Encode buf with
      | (_, Some err) => ret ("", Some err)
      | (buf, None) => ret (Marshal_string J buf)
      end
  end.

(** [func (e *EncodedHeader) UnmarshalJSON(buf []byte) error]: the value
    of [*e] after the call and the error. *)
Definition EncodedHeader_UnmarshalJSON (e : EncodedHeader) (buf : Buffer)
  : M (EncodedHeader * option error) :=
  match Unmarshal_Buffer J buf with
  | (_, Some err) => ret (e, Some err)
  | (b, None) =>
      let* r := json_Unmarshal_Header b (Header_of e) in
      match r with
      | (h, Some err) => ret (mkEncodedHeader h (Source e), Some err)
      | (h, None) => ret (mkEncodedHeader h b, None)
      end
  end.
End WithJSON.

(** *** Signatures and the merged view of their headers *)

(** [type Signature struct], [type Message struct] and [type MergedHeader
    struct] of jws/interface.go. A [*EncodedHeader] is an [option]: the code
    below only reads through it. *)
Record Signature := mkSignature {
  PublicHeader : ptr;
  ProtectedHeader : option EncodedHeader;
  Signature_bytes : Buffer
}.

Record Message := mkMessage {
  Payload : Buffer;
  Signatures : list Signature
}.

Record MergedHeader := mkMergedHeader {
  Merged_ProtectedHeader : option EncodedHeader;
  Merged_PublicHeader : ptr
}.

(** [func NewSignature() *Signature] *)
Definition NewSignature : M Signature :=
  let* h1 := NewHeader in
  let* h2 := NewHeader in
  ret (mkSignature (Some h1) (Some (mkEncodedHeader (Some h2) "")) "").

(** [func (s Signature) MergedHeaders() MergedHeader] *)
Definition Signature_MergedHeaders (sig : Signature) : MergedHeader :=
  mkMergedHeader (ProtectedHeader sig) (PublicHeader sig).

(** [func (h MergedHeader) KeyID() string] *)
Definition MergedHeader_KeyID (h : MergedHeader) : M string :=
  let* found :=
    match Merged_ProtectedHeader h with
    | Some hp =>
        let* o := deref (Header_of hp) in
        if negb (String.eqb (KeyID (Essential o)) "")
        then ret (Some (KeyID (Essential o)))
        else ret None
    | None => ret None
    end in
  match found with
  | Some kid => ret kid
  | None =>
      match Merged_PublicHeader h with
      | Some _ =>
          let* o := deref (Merged_PublicHeader h) in
          if negb (String.eqb (KeyID (Essential o)) "")
          then ret (KeyID (Essential o))
          else ret ""
      | None => ret ""
      end
  end.

(** [func (h MergedHeader) Algorithm() jwa.SignatureAlgorithm] *)
Definition MergedHeader_Algorithm (h : MergedHeader) : M string :=
  match Merged_ProtectedHeader h with
  | Some hp =>
      let* o := deref (Header_of hp) in
      ret (Algorithm (Essential o))
  | None => ret jwa.NoSignature
  end.

(** The loop of [LookupSignature]: [sigs] after the signatures [l]. *)
Fixpoint lookup_loop (kid : string) (l : list Signature)
  (sigs : list Signature) : M (list Signature) :=
  match l with
  | [] => ret sigs
  | sig :: l' =>
      let* k := MergedHeader_KeyID (Signature_MergedHeaders sig) in
      if negb (String.eqb k kid)
      then lookup_loop kid l' sigs
      else lookup_loop kid l' (sigs ++ [sig])
  end.

(** [func (m Message) LookupSignature(kid string) []Signature] *)
Definition Message_LookupSignature (m : Message) (kid : string)
  : M (list Signature) :=
  lookup_loop kid (Signatures m) [].

End jws.

(** ** Package jwe (the second part of jws/message.go) *)

Module jwe.

Definition ErrInvalidHeaderValue : error := "invalid value for header key".

(** Modelled from the spec: the type declarations of package [jwe]
    ([EssentialHeader], [Header], [EncodedHeader], [Recipient], [Message])
    are not among the sources. The fields are the ones the functions below
    read and write, with the types their uses fix; [EncodedHeader] has the
    [Source] buffer the data model gives every encoded header. *)
Record EssentialHeader := mkEssentialHeader {
  AgreementPartyUInfo : Buffer;
  AgreementPartyVInfo : Buffer;
  Algorithm : string;
  ContentEncryption : string;
  ContentType : string;
  Compression : string;
  Critical : option (list string);
  EphemeralPublicKey : option jwk_EcdsaPublicKey;
  Jwk : option jwk_Key;
  JwkSetURL : option URL;
  KeyID : string;
  Type' : string;
  X509Url : option URL;
  X509CertChain : option (list string);
  X509CertThumbprint : string;
  X509CertThumbprintS256 : string
}.

(** [EssentialHeader{}] *)
Definition zero : EssentialHeader :=
  mkEssentialHeader "" "" "" "" "" "" None None None None "" "" None None "" "".

Definition set_AgreementPartyUInfo v (e : EssentialHeader) :=
  mkEssentialHeader v (AgreementPartyVInfo e) (Algorithm e)
  (ContentEncryption e) (ContentType e) (Compression e) (Critical e)
  (EphemeralPublicKey e) (Jwk e) (JwkSetURL e) (KeyID e) (Type' e)
  (X509Url e) (X509CertChain e) (X509CertThumbprint e)
  (X509CertThumbprintS256 e).
Definition set_AgreementPartyVInfo v (e : EssentialHeader) :=
  mkEssentialHeader (AgreementPartyUInfo e) v (Algorithm e)
  (ContentEncryption e) (ContentType e) (Compression e) (Critical e)
  (EphemeralPublicKey e) (Jwk e) (JwkSetURL e) (KeyID e) (Type' e)
  (X509Url e) (X509CertChain e) (X509CertThumbprint e)
  (X509CertThumbprintS256 e).
Definition set_Algorithm v (e : EssentialHeader) :=
  mkEssentialHeader (AgreementPartyUInfo e) (AgreementPartyVInfo e) v
  (ContentEncryption e) (ContentType e) (Compression e) (Critical e)
  (EphemeralPublicKey e) (Jwk e) (JwkSetURL e) (KeyID e) (Type' e)
  (X509Url e) (X509CertChain e) (X509CertThumbprint e)
  (X509CertThumbprintS256 e).
Definition set_ContentEncryption v (e : EssentialHeader) :=
  mkEssentialHeader (AgreementPartyUInfo e) (AgreementPartyVInfo e)
  (Algorithm e) v (ContentType e) (Compression e) (Critical e)
  (EphemeralPublicKey e) (Jwk e) (JwkSetURL e) (KeyID e) (Type' e)
  (X509Url e) (X509CertChain e) (X509CertThumbprint e)
  (X509CertThumbprintS256 e).
Definition set_ContentType v (e : EssentialHeader) :=
  mkEssentialHeader (AgreementPartyUInfo e) (AgreementPartyVInfo e)
  (Algorithm e) (ContentEncryption e) v (Compression e) (Critical e)
  (EphemeralPublicKey e) (Jwk e) (JwkSetURL e) (KeyID e) (Type' e)
  (X509Url e) (X509CertChain e) (X509CertThumbprint e)
  (X509CertThumbprintS256 e).
Definition set_Compression v (e : EssentialHeader) :=
  mkEssentialHeader (AgreementPartyUInfo e) (AgreementPartyVInfo e)
  (Algorithm e) (ContentEncryption e) (ContentType e) v (Critical e)
  (EphemeralPublicKey e) (Jwk e) (JwkSetURL e) (KeyID e) (Type' e)
  (X509Url e) (X509CertChain e) (X509CertThumbprint e)
  (X509CertThumbprintS256 e).
Definition set_Critical v (e : EssentialHeader) :=
  mkEssentialHeader (AgreementPartyUInfo e) (AgreementPartyVInfo e)
  (Algorithm e) (ContentEncryption e) (ContentType e) (Compression e) v
  (EphemeralPublicKey e) (Jwk e) (JwkSetURL e) (KeyID e) (Type' e)
  (X509Url e) (X509CertChain e) (X509CertThumbprint e)
  (X509CertThumbprintS256 e).
Definition set_EphemeralPublicKey v (e : EssentialHeader) :=
  mkEssentialHeader (AgreementPartyUInfo e) (AgreementPartyVInfo e)
  (Algorithm e) (ContentEncryption e) (ContentType e) (Compression e)
  (Critical e) v (Jwk e) (JwkSetURL e) (KeyID e) (Type' e) (X509Url e)
  (X509CertChain e) (X509CertThumbprint e) (X509CertThumbprintS256 e).
Definition set_Jwk v (e : EssentialHeader) :=
  mkEssentialHeader (AgreementPartyUInfo e) (AgreementPartyVInfo e)
  (Algorithm e) (ContentEncryption e) (ContentType e) (Compression e)
  (Critical e) (EphemeralPublicKey e) v (JwkSetURL e) (KeyID e) (Type' e)
  (X509Url e) (X509CertChain e) (X509CertThumbprint e)
  (X509CertThumbprintS256 e).
Definition set_JwkSetURL v (e : EssentialHeader) :=
  mkEssentialHeader (AgreementPartyUInfo e) (AgreementPartyVInfo e)
  (Algorithm e) (ContentEncryption e) (ContentType e) (Compression e)
  (Critical e) (EphemeralPublicKey e) (Jwk e) v (KeyID e) (Type' e)
  (X509Url e) (X509CertChain e) (X509CertThumbprint e)
  (X509CertThumbprintS256 e).
Definition set_KeyID v (e : EssentialHeader) :=
  mkEssentialHeader (AgreementPartyUInfo e) (AgreementPartyVInfo e)
  (Algorithm e) (ContentEncryption e) (ContentType e) (Compression e)
  (Critical e) (EphemeralPublicKey e) (Jwk e) (JwkSetURL e) v (Type' e)
  (X509Url e) (X509CertChain e) (X509CertThumbprint e)
  (X509CertThumbprintS256 e).
Definition set_Type v (e : EssentialHeader) :=
  mkEssentialHeader (AgreementPartyUInfo e) (AgreementPartyVInfo e)
  (Algorithm e) (ContentEncryption e) (ContentType e) (Compression e)
  (Critical e) (EphemeralPublicKey e) (Jwk e) (JwkSetURL e) (KeyID e) v
  (X509Url e) (X509CertChain e) (X509CertThumbprint e)
  (X509CertThumbprintS256 e).
Definition set_X509Url v (e : EssentialHeader) :=
  mkEssentialHeader (AgreementPartyUInfo e) (AgreementPartyVInfo e)
  (Algorithm e) (ContentEncryption e) (ContentType e) (Compression e)
  (Critical e) (EphemeralPublicKey e) (Jwk e) (JwkSetURL e) (KeyID e)
  (Type' e) v (X509CertChain e) (X509CertThumbprint e)
  (X509CertThumbprintS256 e).
Definition set_X509CertChain v (e : EssentialHeader) :=
  mkEssentialHeader (AgreementPartyUInfo e) (AgreementPartyVInfo e)
  (Algorithm e) (ContentEncryption e) (ContentType e) (Compression e)
  (Critical e) (EphemeralPublicKey e) (Jwk e) (JwkSetURL e) (KeyID e)
  (Type' e) (X509Url e) v (X509CertThumbprint e) (X509CertThumbprintS256 e).
Definition set_X509CertThumbprint v (e : EssentialHeader) :=
  mkEssentialHeader (AgreementPartyUInfo e) (AgreementPartyVInfo e)
  (Algorithm e) (ContentEncryption e) (ContentType e) (Compression e)
  (Critical e) (EphemeralPublicKey e) (Jwk e) (JwkSetURL e) (KeyID e)
  (Type' e) (X509Url e) (X509CertChain e) v (X509CertThumbprintS256 e).
Definition set_X509CertThumbprintS256 v (e : EssentialHeader) :=
  mkEssentialHeader (AgreementPartyUInfo e) (AgreementPartyVInfo e)
  (Algorithm e) (ContentEncryption e) (ContentType e) (Compression e)
  (Critical e) (EphemeralPublicKey e) (Jwk e) (JwkSetURL e) (KeyID e)
  (Type' e) (X509Url e) (X509CertChain e) (X509CertThumbprint e) v.

Record Header := mkHeader {
  Essential : EssentialHeader;
  PrivateParams : gmap string value
}.

Definition on_essential (f : EssentialHeader -> EssentialHeader) (h : Header) :=
  mkHeader (f (Essential h)) (PrivateParams h).
Definition on_params (f : gmap string value -> gmap string value)
  (h : Header) :=
  mkHeader (Essential h) (f (PrivateParams h)).

Record EncodedHeader := mkEncodedHeader {
  Header_of : ptr;
  Source : Buffer
}.

Record Recipient := mkRecipient {
  Recipient_Header : ptr;
  EncryptedKey : Buffer
}.

Record Message := mkMessage {
  ProtectedHeader : option EncodedHeader;
  UnprotectedHeader : ptr;
  AuthenticatedData : Buffer;
  InitializationVector : Buffer;
  CipherText : Buffer;
  Tag : Buffer;
  Recipients : list Recipient
}.

Definition NewHeader : M loc := alloc (mkHeader zero ∅).

Definition NewRecipient : M Recipient :=
  let* h := NewHeader in ret (mkRecipient (Some h) "").

Definition NewEncodedHeader : M EncodedHeader :=
  let* h := NewHeader in ret (mkEncodedHeader (Some h) "").

Definition NewMessage : M Message :=
  let* p := NewEncodedHeader in
  let* u := NewHeader in
  ret (mkMessage (Some p) (Some u) "" "" "" "" []).

(** The [case] labels of the [switch key] of [Header.Set], in order. *)
Inductive key_case :=
| K_alg | K_apu | K_apv | K_enc | K_cty | K_epk | K_kid | K_typ | K_x5t
| K_x5t256 | K_x5c | K_crit | K_jku | K_x5u | K_default.

Definition switch_key (key : string) : key_case :=
  if String.eqb key "alg" then K_alg
  else if String.eqb key "apu" then K_apu
  else if String.eqb key "apv" then K_apv
  else if String.eqb key "enc" then K_enc
  else if String.eqb key "cty" then K_cty
  else if String.eqb key "epk" then K_epk
  else if String.eqb key "kid" then K_kid
  else if String.eqb key "typ" then K_typ
  else if String.eqb key "x5t" then K_x5t
  else if String.eqb key "x5t#256" then K_x5t256
  else if String.eqb key "x5c" then K_x5c
  else if String.eqb key "crit" then K_crit
  else if String.eqb key "jku" then K_jku
  else if String.eqb key "x5u" then K_x5u
  else K_default.

(** [for k, v := range src { dst[k] = v }] *)
Definition copy_params (src dst : gmap string value) : gmap string value :=
  map_fold (fun k v acc => <[k := v]> acc) dst src.

Section WithURL.
Variable url_Parse : string -> option URL.

(** An assignment through [h] followed by the final [return nil]. *)
Definition assign (h : ptr) (f : Header -> Header) : M (option error) :=
  update h f ;; ret None.

Definition Header_Set (h : ptr) (key : string) (v : value)
  : M (option error) :=
  match switch_key key with
  | K_alg =>
      match v with
      | VString s => assign h (on_essential (set_Algorithm s))
      | VKeyEncryptionAlgorithm s =>
          assign h (on_essential (set_Algorithm s))
      | _ => ret (Some ErrInvalidHeaderValue)
      end
  | K_apu =>
      match v with
      | VBuffer b => assign h (on_essential (set_AgreementPartyUInfo b))
      | VBytes b => assign h (on_essential (set_AgreementPartyUInfo b))
      | VString b => assign h (on_essential (set_AgreementPartyUInfo b))
      | _ => ret (Some ErrInvalidHeaderValue)
      end
  | K_apv =>
      match v with
      | VBuffer b => assign h (on_essential (set_AgreementPartyVInfo b))
      | VBytes b => assign h (on_essential (set_AgreementPartyVInfo b))
      | VString b => assign h (on_essential (set_AgreementPartyVInfo b))
      | _ => ret (Some ErrInvalidHeaderValue)
      end
  | K_enc =>
      match v with
      | VString s => assign h (on_essential (set_ContentEncryption s))
      | VContentEncryptionAlgorithm s =>
          assign h (on_essential (set_ContentEncryption s))
      | _ => ret (Some ErrInvalidHeaderValue)
      end
  | K_cty =>
      match v with
      | VString s => assign h (on_essential (set_ContentType s))
      | _ => ret (Some ErrInvalidHeaderValue)
      end
  | K_epk =>
      match v with
      | VEcdsaPublicKey k =>
          assign h (on_essential (set_EphemeralPublicKey k))
      | _ => ret (Some ErrInvalidHeaderValue)
      end
  | K_kid =>
      match v with
      | VString s => assign h (on_essential (set_KeyID s))
      | _ => ret (Some ErrInvalidHeaderValue)
      end
  | K_typ =>
      match v with
      | VString s => assign h (on_essential (set_Type s))
      | _ => ret (Some ErrInvalidHeaderValue)
      end
  | K_x5t =>
      match v with
      | VString s => assign h (on_essential (set_X509CertThumbprint s))
      | _ => ret (Some ErrInvalidHeaderValue)
      end
  | K_x5t256 =>
      match v with
      | VString s => assign h (on_essential (set_X509CertThumbprintS256 s))
      | _ => ret (Some ErrInvalidHeaderValue)
      end
  | K_x5c =>
      match v with
      | VStringSlice l => assign h (on_essential (set_X509CertChain l))
      | _ => ret (Some ErrInvalidHeaderValue)
      end
  | K_crit =>
      match v with
      | VStringSlice l => assign h (on_essential (set_Critical l))
      | _ => ret (Some ErrInvalidHeaderValue)
      end
  | K_jku =>
      match v with
      | VString s =>
          match url_Parse s with
          | Some u => assign h (on_essential (set_JwkSetURL (Some u)))
          | None => ret (Some ErrInvalidHeaderValue)
          end
      | _ => ret (Some ErrInvalidHeaderValue)
      end
  | K_x5u =>
      match v with
      | VString s =>
          match url_Parse s with
          | Some u => assign h (on_essential (set_X509Url (Some u)))
          | None => ret (Some ErrInvalidHeaderValue)
          end
      | _ => ret (Some ErrInvalidHeaderValue)
      end
  | K_default => assign h (on_params (insert key v))
  end.
End WithURL.

(** [func (h1 *EssentialHeader) Merge(h2 *EssentialHeader)]: the value of
    [*h1] after the call. *)
Definition EssentialHeader_Merge (h1 h2 : EssentialHeader) : EssentialHeader :=
  let h1 := when (negb (Nat.eqb (String.length (AgreementPartyUInfo h2)) 0))
              (set_AgreementPartyUInfo (AgreementPartyUInfo h2)) h1 in
  let h1 := when (negb (Nat.eqb (String.length (AgreementPartyVInfo h2)) 0))
              (set_AgreementPartyVInfo (AgreementPartyVInfo h2)) h1 in
  let h1 := when (negb (String.eqb (Algorithm h2) ""))
              (set_Algorithm (Algorithm h2)) h1 in
  let h1 := when (negb (String.eqb (ContentEncryption h2) ""))
              (set_ContentEncryption (ContentEncryption h2)) h1 in
  let h1 := when (negb (String.eqb (ContentType h2) ""))
              (set_ContentType (ContentType h2)) h1 in
  let h1 := when (negb (String.eqb (Compression h2) ""))
              (set_Compression (Compression h2)) h1 in
  let h1 := when (notnil (Critical h2)) (set_Critical (Critical h2)) h1 in
  let h1 := when (notnil (EphemeralPublicKey h2))
              (set_EphemeralPublicKey (EphemeralPublicKey h2)) h1 in
  let h1 := when (notnil (Jwk h2)) (set_Jwk (Jwk h2)) h1 in
  let h1 := when (notnil (JwkSetURL h2)) (set_JwkSetURL (JwkSetURL h2)) h1 in
  let h1 := when (negb (String.eqb (KeyID h2) ""))
              (set_KeyID (KeyID h2)) h1 in
  let h1 := when (negb (String.eqb (Type' h2) ""))
              (set_Type (Type' h2)) h1 in
  let h1 := when (notnil (X509Url h2)) (set_X509Url (X509Url h2)) h1 in
  let h1 := when (notnil (X509CertChain h2))
              (set_X509CertChain (X509CertChain h2)) h1 in
  let h1 := when (negb (String.eqb (X509CertThumbprint h2) ""))
              (set_X509CertThumbprint (X509CertThumbprint h2)) h1 in
  let h1 := when (negb (String.eqb (X509CertThumbprintS256 h2) ""))
              (set_X509CertThumbprintS256 (X509CertThumbprintS256 h2)) h1 in
  h1.

(** [func (h1 *EssentialHeader) Copy(h2 *EssentialHeader)]: the value of
    [*h1] after the call. *)
Definition EssentialHeader_Copy (h1 h2 : EssentialHeader) : EssentialHeader :=
  let h1 := set_AgreementPartyUInfo (AgreementPartyUInfo h2) h1 in
  let h1 := set_AgreementPartyVInfo (AgreementPartyVInfo h2) h1 in
  let h1 := set_Algorithm (Algorithm h2) h1 in
  let h1 := set_ContentEncryption (ContentEncryption h2) h1 in
  let h1 := set_ContentType (ContentType h2) h1 in
  let h1 := set_Compression (Compression h2) h1 in
  let h1 := set_Critical (Critical h2) h1 in
  let h1 := set_EphemeralPublicKey (EphemeralPublicKey h2) h1 in
  let h1 := set_Jwk (Jwk h2) h1 in
  let h1 := set_JwkSetURL (JwkSetURL h2) h1 in
  let h1 := set_KeyID (KeyID h2) h1 in
  let h1 := set_Type (Type' h2) h1 in
  let h1 := set_X509Url (X509Url h2) h1 in
  let h1 := set_X509CertChain (X509CertChain h2) h1 in
  let h1 := set_X509CertThumbprint (X509CertThumbprint h2) h1 in
  let h1 := set_X509CertThumbprintS256 (X509CertThumbprintS256 h2) h1 in
  h1.

Definition Header_Copy (h1 h2 : ptr) : M (option error) :=
  match h1 with
  | None => ret (Some "copy destination is nil")
  | Some _ =>
      match h2 with
      | None => ret (Some "copy target is nil")
      | Some _ =>
          let* src := deref h2 in
          update h1
            (on_essential (fun e => EssentialHeader_Copy e (Essential src))) ;;
          let* src := deref h2 in
          update h1 (on_params (copy_params (PrivateParams src))) ;;
          ret None
      end
  end.

Definition Header_Merge (h1 h2 : ptr) : M (ptr * option error) :=
  match h2 with
  | None => ret (None, Some "merge target is nil")
  | Some _ =>
      let* h3 := NewHeader in
      let* err := Header_Copy (Some h3) h1 in
      match err with
      | Some e => ret (None, Some e)
      | None =>
          let* src := deref h2 in
          update (Some h3)
            (on_essential (fun e => EssentialHeader_Merge e (Essential src))) ;;
          let* src := deref h2 in
          update (Some h3) (on_params (copy_params (PrivateParams src))) ;;
          ret (Some h3, None)
      end
  end.

(** *** Headers and encoded headers as JSON *)

(** The calls into [emap] and [encoding/json] at this package's header
    type: [emap.MergeMarshal]; [json.Unmarshal(data, h.EssentialHeader)],
    giving the struct after the call; [json.Unmarshal(data, &m)] for a
    generic map [m]. *)
Record json_pkg := {
  MergeMarshal : EssentialHeader -> gmap string value -> Buffer * option error;
  Unmarshal_EssentialHeader :
    Buffer -> EssentialHeader -> EssentialHeader * option error;
  Unmarshal_map : Buffer -> gmap string value * option error
}.

(** The names [Header.UnmarshalJSON] deletes from the generic map. *)
Definition essential_names : list string :=
  ["alg"; "apu"; "apv"; "enc"; "cty"; "zip"; "crit"; "epk"; "jwk"; "jku";
   "kid"; "typ"; "x5u"; "x5c"; "x5t"; "x5t#S256"].

Section WithJSON.
Variable J : encoding_json.
Variable E : json_pkg.
Variable url_Parse : string -> option URL.

Definition Header_MarshalJSON (h : Header) : Buffer * option error :=
  MergeMarshal E (Essential h) (PrivateParams h).

(** [for name, value := range m { if err := h.Set(name, value); ... }],
    over the entries in the order [l] lists them (Go leaves the order of
    a map range open). *)
Fixpoint set_each (h : ptr) (l : list (string * value)) : M (option error) :=
  match l with
  | [] => ret None
  | (name, v) :: l' =>
      let* err := Header_Set url_Parse h name v in
      match err with
      | Some e => ret (Some e)
      | None => set_each h l'
      end
  end.

Definition Header_UnmarshalJSON (h : ptr) (data : Buffer)
  : M (option error) :=
  let* o := deref h in
  let '(e, err) := Unmarshal_EssentialHeader E data (Essential o) in
  update h (on_essential (fun _ => e)) ;;
  match err with
  | Some err => ret (Some err)
  | None =>
      match Unmarshal_map E data with
      | (_, Some err) => ret (Some err)
      | (m, None) =>
          let m := foldl (fun m n => delete n m) m essential_names in
          set_each h (map_to_list m)
      end
  end.

(** [json.Marshal(e.Header)] for a [*Header]. *)
Definition json_Marshal_Header (h : ptr) : M (Buffer * option error) :=
  match h with
  | None => ret ("null", None)
  | Some _ => let* o := deref h in ret (Header_MarshalJSON o)
  end.

(** [json.Unmarshal(data, &e.Header)]: the pointer afterwards and the
    error. *)
Definition json_Unmarshal_Header (data : Buffer) (h : ptr)
  : M (ptr * option error) :=
  match checkValid J data with
  | Some err => ret (h, Some err)
  | None =>
      if isNull J data then ret (None, None)
      else
        let* l := match h with
                  | Some l => ret l
                  | None => NewHeader
                  end in
        let* err := Header_UnmarshalJSON (Some l) data in
        ret (Some l, err)
  end.

(** [func (e EncodedHeader) Base64Encode() ([]byte, error)] *)
Definition EncodedHeader_Base64Encode (e : EncodedHeader)
  : M (Buffer * option error) :=
  let* r := json_Marshal_Header (Header_of e) in
  match r with
  | (_, Some err) => ret ("", Some err)
  | (buf, None) =>
      match buffer.Base64Encode buf with
      | (_, Some err) => ret ("", Some err)
      | (buf, None) => ret (buf, None)
      end
  end.

(** [func (e EncodedHeader) MarshalJSON() ([]byte, error)] *)
Definition EncodedHeader_MarshalJSON (e : EncodedHeader)
  : M (Buffer * option error) :=
  let* r := EncodedHeader_Base64Encode e in
  match r with
  | (_, Some err) => ret ("", Some err)
  | (buf, None) => ret (Marshal_string J buf)
  end.

(** [func (e *EncodedHeader) UnmarshalJSON(buf []byte) error]: the value
    of [*e] after the call and the error. *)
Definition EncodedHeader_UnmarshalJSON (e : EncodedHeader) (buf : Buffer)
  : M (EncodedHeader * option error) :=
  match Unmarshal_Buffer J buf with
  | (_, Some err) => ret (e, Some err)
  | (b, None) =>
      let* r := json_Unmarshal_Header b (Header_of e) in
      match r with
      | (h, Some err) => ret (mkEncodedHeader h (Source e), Some err)
      | (h, None) => ret (mkEncodedHeader h (Source e), None)
      end
  end.
End WithJSON.

(** *** Decrypt *)

(** The content cipher [BuildContentCipher] returns: [cipher.KeySize()] and
    [cipher.decrypt(cek, iv, ciphertext, tag, aad)], which gives the
    plaintext (a nil slice is [None]) and the error. *)
Record ContentCipher := {
  KeySize : nat;
  decrypt : Buffer -> Buffer -> Buffer -> Buffer -> Buffer ->
            option Buffer * option error
}.

(** The key decrypter [BuildKeyDecrypter] returns: [k.KeyDecrypt(wrapped)]. *)
Record KeyDecrypter := {
  KeyDecrypt : Buffer -> Buffer * option error
}.

(** The functions of the package that [Decrypt] calls and that are not
    among the sources, and the [compress/flate] writer: [flate_Writer level
    input] is what [output] holds after [flate.NewWriter(&output, level)],
    writing all of [input] and closing, with the first error met. *)
Record crypto := {
  BuildContentCipher : string -> ContentCipher + error;
  BuildKeyDecrypter : string -> Header -> value -> nat -> KeyDecrypter + error;
  flate_Writer : nat -> Buffer -> Buffer * option error
}.

(** How one pass through the body of the recipient loop ends: at one of its
    [continue] statements (named by what led there) or at the end of the
    body, with the value of [plaintext] then; at [break]; or at [return]. *)
Inductive continue_at :=
| AlgorithmDiffers | CopyFailed | MergeFailed | NoKeyDecrypter
| ContentDecryptFailed.

Inductive step :=
| Continue (at_ : continue_at) (plaintext : option Buffer)
| Break (plaintext : option Buffer)
| Return (err : error).

Section WithCrypto.
Variable C : crypto.

Section Loop.
Variable alg : string.
Variable key : value.
Variable h : ptr.
Variable cipher : ContentCipher.
Variables iv ciphertext tag aad : Buffer.

(** The body of [for _, recipient := range m.Recipients]. *)
Definition try_recipient (plaintext : option Buffer) (recipient : Recipient)
  : M step :=
  let* rh := deref (Recipient_Header recipient) in
  if negb (String.eqb (Algorithm (Essential rh)) alg)
  then ret (Continue AlgorithmDiffers plaintext)
  else
    let* h2 := NewHeader in
    let* err := Header_Copy (Some h2) h in
    match err with
    | Some _ => ret (Continue CopyFailed plaintext)
    | None =>
        let* r := Header_Merge (Some h2) (Recipient_Header recipient) in
        match r with
        | (_, Some _) => ret (Continue MergeFailed plaintext)
        | (h2, None) =>
            let* h2o := deref h2 in
            match BuildKeyDecrypter C (Algorithm (Essential h2o)) h2o key
                    (KeySize cipher) with
            | inr _ => ret (Continue NoKeyDecrypter plaintext)
            | inl k =>
                match KeyDecrypt k (EncryptedKey recipient) with
                | (_, Some _) => ret (Return "failed to decrypt key")
                | (cek, None) =>
                    match decrypt cipher cek iv ciphertext tag aad with
                    | (pt, None) => ret (Break pt)
                    | (pt, Some _) =>
                        ret (Continue ContentDecryptFailed pt)
                    end
                end
            end
        end
    end.

(** The loop: the value of [plaintext] when it is left, or the error of
    a [return] inside it. *)
Fixpoint recipients_loop (plaintext : option Buffer)
  (rs : list Recipient) : M (option Buffer + error) :=
  match rs with
  | [] => ret (inl plaintext)
  | recipient :: rs' =>
      let* s := try_recipient plaintext recipient in
      match s with
      | Continue _ pt => recipients_loop pt rs'
      | Break pt => ret (inl pt)
      | Return err => ret (inr err)
      end
  end.
End Loop.

(** [func (m *Message) Decrypt(alg jwa.KeyEncryptionAlgorithm,
    key interface{}) ([]byte, error)] *)
Definition Message_Decrypt (m : Message) (alg : string) (key : value)
  : M (Buffer * option error) :=
  if Nat.eqb (length (Recipients m)) 0
  then ret ("", Some "no recipients, can not proceed with decrypt")
  else
    match ProtectedHeader m with
    | None => fun _ => Panic
    | Some protected =>
        let* ph := deref (Header_of protected) in
        let enc := ContentEncryption (Essential ph) in
        let* h := NewHeader in
        let* err := Header_Copy (Some h) (Header_of protected) in
        match err with
        | Some err => ret ("", Some err)
        | None =>
            let* r := Header_Merge (Some h) (UnprotectedHeader m) in
            match r with
            | (_, Some err) => ret ("", Some err)
            | (h, None) =>
                match buffer.Base64Encode (AuthenticatedData m) with
                | (_, Some err) => ret ("", Some err)
                | (aad, None) =>
                    let ciphertext := CipherText m in
                    let iv := InitializationVector m in
                    let tag := Tag m in
                    match BuildContentCipher C enc with
                    | inr _ =>
                        ret ("", Some (String.append
                                         "unsupported content cipher algorithm '"
                                         (String.append enc "'")))
                    | inl cipher =>
                        let* r := recipients_loop alg key h cipher iv
                                    ciphertext tag aad None (Recipients m) in
                        match r with
                        | inr err => ret ("", Some err)
                        | inl None =>
                            ret ("", Some "failed to find matching recipient to decrypt key")
                        | inl (Some plaintext) =>
                            let* ho := deref h in
                            if String.eqb (Compression (Essential ho)) jwa.Deflate
                            then
                              match flate_Writer C 1 plaintext with
                              | (_, Some err) => ret ("", Some err)
                              | (output, None) => ret (output, None)
                              end
                            else ret (plaintext, None)
                        end
                    end
                end
            end
        end
    end.
End WithCrypto.

(** *** Get *)

(** What [Header.Get] returns as [interface{}]: nil, a value of one of the
    dynamic types of [value], or a [*url.URL]. *)
Inductive dynamic :=
| DNil
| DValue (v : value)
| DURL (u : option URL).

(** The [case] labels of the [switch key] of [Header.Get], in order. *)
Definition switch_key_Get (key : string) : key_case :=
  if String.eqb key "alg" then K_alg
  else if String.eqb key "apu" then K_apu
  else if String.eqb key "apv" then K_apv
  else if String.eqb key "enc" then K_enc
  else if String.eqb key "epk" then K_epk
  else if String.eqb key "cty" then K_cty
  else if String.eqb key "kid" then K_kid
  else if String.eqb key "typ" then K_typ
  else if String.eqb key "x5t" then K_x5t
  else if String.eqb key "x5t#256" then K_x5t256
  else if String.eqb key "x5c" then K_x5c
  else if String.eqb key "crit" then K_crit
  else if String.eqb key "jku" then K_jku
  else if String.eqb key "x5u" then K_x5u
  else K_default.

(** [func (h *Header) Get(key string) (interface{}, error)] *)
Definition Header_Get (h : ptr) (key : string) : M (dynamic * option error) :=
  let* o := deref h in
  let e := Essential o in
  match switch_key_Get key with
  | K_alg => ret (DValue (VKeyEncryptionAlgorithm (Algorithm e)), None)
  | K_apu => ret (DValue (VBuffer (AgreementPartyUInfo e)), None)
  | K_apv => ret (DValue (VBuffer (AgreementPartyVInfo e)), None)
  | K_enc =>
      ret (DValue (VContentEncryptionAlgorithm (ContentEncryption e)), None)
  | K_epk => ret (DValue (VEcdsaPublicKey (EphemeralPublicKey e)), None)
  | K_cty => ret (DValue (VString (ContentType e)), None)
  | K_kid => ret (DValue (VString (KeyID e)), None)
  | K_typ => ret (DValue (VString (Type' e)), None)
  | K_x5t => ret (DValue (VString (X509CertThumbprint e)), None)
  | K_x5t256 => ret (DValue (VString (X509CertThumbprintS256 e)), None)
  | K_x5c => ret (DValue (VStringSlice (X509CertChain e)), None)
  | K_crit => ret (DValue (VStringSlice (Critical e)), None)
  | K_jku => ret (DURL (JwkSetURL e), None)
  | K_x5u => ret (DURL (X509Url e), None)
  | K_default =>
      match PrivateParams o !! key with
      | Some v => ret (DValue v, None)
      | None => ret (DNil, Some "invalid header name")
      end
  end.

(** *** Definitions the statements about Decrypt use *)

(** The effective algorithm of a recipient as the specification words it:
    the algorithm of the merge of the base header with the recipient's
    header. *)
Definition effective_Algorithm (h recipient_header : ptr) : M string :=
  let* r := Header_Merge h recipient_header in
  let* o := deref (fst r) in
  ret (Algorithm (Essential o)).

(** A cipher that hands [aad] to [cipher.decrypt] whatever additional data
    it is called with, and the collaborators with every cipher so
    changed. *)
Definition with_aad (aad : Buffer) (c : ContentCipher) : ContentCipher := {|
  KeySize := KeySize c;
  decrypt cek iv ciphertext tag _ := decrypt c cek iv ciphertext tag aad
|}.

Definition crypto_with_aad (aad : Buffer) (C : crypto) : crypto := {|
  BuildContentCipher enc :=
    match BuildContentCipher C enc with
    | inl c => inl (with_aad aad c)
    | inr e => inr e
    end;
  BuildKeyDecrypter := BuildKeyDecrypter C;
  flate_Writer := flate_Writer C
|}.

End jwe.

(** * Collaborators to run the code with

    The functions above take the code they call from outside the sources as
    parameters. The instances below stand in for them where a statement is
    checked on a concrete input. *)

(** [url.Parse] reports a missing protocol scheme for a text that starts with
    a colon; the stand-in accepts every other text. *)
Definition sample_url_Parse (s : string) : option URL :=
  match s with
  | String ":" _ => None
  | _ => Some (ParsedURL s)
  end.

(** [emap.Hmap] getters: the entry under the name when it has the type asked
    for, the zero value and an error otherwise. *)
Definition sample_GetString (m : gmap string value) (name : string)
  : string * option error :=
  match m !! name with
  | Some (VString s) => (s, None)
  | _ => ("", Some "hmap: no such string")
  end.

Definition sample_GetStringSlice (m : gmap string value) (name : string)
  : option (list string) * option error :=
  match m !! name with
  | Some (VStringSlice l) => (l, None)
  | _ => (None, Some "hmap: no such string slice")
  end.

(** A fragment of JSON: objects whose members are strings written without
    escapes, with insignificant whitespace between the tokens. On this
    fragment the functions below read and write what [encoding/json] does;
    outside of it they report an error. *)
Module minijson.
Definition dquote : ascii := "034"%char.

Definition is_ws (c : ascii) : bool :=
  let n := N_of_ascii c in
  (N.eqb n 32 || N.eqb n 9 || N.eqb n 10 || N.eqb n 13)%bool.

(** The characters a JSON string holds as they are, and that [json.Marshal]
    writes as they are. *)
Definition plain (c : ascii) : bool :=
  let n := N_of_ascii c in
  (N.leb 32 n && N.ltb n 127 && negb (N.eqb n 34) && negb (N.eqb n 92)
   && negb (N.eqb n 60) && negb (N.eqb n 62) && negb (N.eqb n 38))%bool.

Fixpoint skip_ws (l : list ascii) : list ascii :=
  match l with
  | c :: r => if is_ws c then skip_ws r else l
  | [] => []
  end.

(** The characters up to the closing quote, and what follows it. *)
Fixpoint string_body (l : list ascii) : option (list ascii * list ascii) :=
  match l with
  | [] => None
  | c :: r =>
      if Ascii.eqb c dquote then Some ([], r)
      else if plain c then
             match string_body r with
             | Some (b, r') => Some (c :: b, r')
             | None => None
             end
           else None
  end.

Definition string_token (l : list ascii) : option (string * list ascii) :=
  match skip_ws l with
  | c :: r =>
      if Ascii.eqb c dquote then
        match string_body r with
        | Some (b, r') => Some (string_of_list_ascii b, r')
        | None => None
        end
      else None
  | [] => None
  end.

(** The members of an object after its opening brace, up to the closing
    one: a later member replaces an earlier one of the same name. *)
Fixpoint members (fuel : nat) (l : list ascii) (m : gmap string value)
  : option (gmap string value * list ascii) :=
  match fuel with
  | 0 => None
  | S fuel =>
      match string_token l with
      | Some (k, r1) =>
          match skip_ws r1 with
          | ":"%char :: r2 =>
              match string_token r2 with
              | Some (v, r3) =>
                  match skip_ws r3 with
                  | ","%char :: r4 => members fuel r4 (<[k := VString v]> m)
                  | "}"%char :: r4 => Some (<[k := VString v]> m, r4)
                  | _ => None
                  end
              | None => None
              end
          | _ => None
          end
      | None => None
      end
  end.

Definition object (data : Buffer) : option (gmap string value) :=
  match skip_ws (list_ascii_of_string data) with
  | "{"%char :: r =>
      match skip_ws r with
      | "}"%char :: r' =>
          match skip_ws r' with [] => Some ∅ | _ => None end
      | _ =>
          match members (length r) r ∅ with
          | Some (m, r') =>
              match skip_ws r' with [] => Some m | _ => None end
          | None => None
          end
      end
  | _ => None
  end.

Definition is_null (data : Buffer) : bool :=
  match skip_ws (list_ascii_of_string data) with
  | "n"%char :: "u"%char :: "l"%char :: "l"%char :: r =>
      match skip_ws r with [] => true | _ => false end
  | _ => false
  end.

Definition quote (s : string) : string :=
  String dquote (String.append s (String dquote "")).

Definition all_plain (s : string) : bool :=
  forallb plain (list_ascii_of_string s).

Definition outside : error := "json: outside the fragment".

Definition json : encoding_json := {|
  checkValid data :=
    if is_null data then None
    else match object data with Some _ => None | None => Some outside end;
  isNull := is_null;
  Marshal_string s :=
    if all_plain s then (quote s, None) else ("", Some outside);
  Unmarshal_Buffer buf :=
    match string_token (list_ascii_of_string buf) with
    | Some (text, r) =>
        match skip_ws r, buffer.Base64Decode text with
        | [], Some b => (b, None)
        | _, _ => ("", Some outside)
        end
    | None => ("", Some outside)
    end
|}.

(** One member of an object with [omitempty]. *)
Definition member (name v : string) : list string :=
  if String.eqb v "" then []
  else [String.append (quote name) (String.append ":" (quote v))].

Definition object_text (ms : list string) : string :=
  String.append "{" (String.append (String.concat "," ms) "}").

(** Modelled from the spec: the struct-and-map marshaling helper of
    package [emap] at the [jws] header: one flat JSON object of the
    essential fields (in the order of the struct, empty ones left out) and
    of the parameter map; reading it back sends the essential names to the
    essential struct, through [Construct], and the other names to the map.
    The fragment has the headers with string fields only and no
    parameters to write. *)
Definition jws_names : list string :=
  ["alg"; "cty"; "crit"; "jwk"; "jku"; "kid"; "typ"; "x5u"; "x5c"; "x5t";
   "x5t#S256"].

Definition jws_emap : jws.emap_pkg := {|
  jws.MergeMarshal e p :=
    match jws.Critical e, jws.Jwk e, jws.JwkSetURL e, jws.X509Url e,
          jws.X509CertChain e with
    | None, None, None, None, None =>
        let fields :=
          [("alg", jws.Algorithm e); ("cty", jws.ContentType e);
           ("kid", jws.KeyID e); ("typ", jws.Type' e);
           ("x5t", jws.X509CertThumbprint e);
           ("x5t#S256", jws.X509CertThumbprintS256 e)] in
        if (forallb (fun f => all_plain (snd f)) fields
            && bool_decide (p = ∅))%bool
        then (object_text (flat_map (fun f => member (fst f) (snd f)) fields),
              None)
        else ("", Some outside)
    | _, _, _, _, _ => ("", Some outside)
    end;
  jws.MergeUnmarshal data e p :=
    match object data with
    | Some m =>
        let '(e', err) :=
          jws.EssentialHeader_Construct sample_GetString
            sample_GetStringSlice sample_url_Parse e m in
        (e', foldl (fun m n => delete n m) m jws_names, err)
    | None => (e, p, Some outside)
    end
|}.
End minijson.

(** Stand-ins for the content ciphers, the key decrypters and the flate
    writer, simple enough to follow by hand. *)
Module samplecrypto.
(** A content cipher that authenticates the key and the additional data:
    the plaintext is the ciphertext, given out when the tag is the key, a
    dot and the additional data. *)
Definition cipher : jwe.ContentCipher := {|
  jwe.KeySize := 16;
  jwe.decrypt cek iv ciphertext tag aad :=
    if String.eqb tag (String.append cek (String.append "." aad))
    then (Some ciphertext, None)
    else (None, Some "cipher: message authentication failed")
|}.

(** A content cipher that gives out, as plaintext, the additional data it
    was handed. *)
Definition probe : jwe.ContentCipher := {|
  jwe.KeySize := 16;
  jwe.decrypt cek iv ciphertext tag aad := (Some aad, None)
|}.

Fixpoint strip_prefix (p s : string) : option string :=
  match p, s with
  | EmptyString, _ => Some s
  | String a p', String b s' =>
      if Ascii.eqb a b then strip_prefix p' s' else None
  | String _ _, EmptyString => None
  end.

(** Key decrypters for a key of bytes: under "dir" the key is the content
    key; under "wrap" a wrapped key is the key followed by the content key,
    and unwrapping under another key fails. *)
Definition BuildKeyDecrypter (alg : string) (h : jwe.Header) (key : value)
  (keysize : nat) : jwe.KeyDecrypter + error :=
  match key with
  | VBytes k =>
      if String.eqb alg "dir"
      then inl {| jwe.KeyDecrypt _ := (k, None) |}
      else if String.eqb alg "wrap"
      then inl {| jwe.KeyDecrypt wrapped :=
                    match strip_prefix k wrapped with
                    | Some cek => (cek, None)
                    | None => ("", Some "wrap: integrity check failed")
                    end |}
      else inr "unsupported key encryption algorithm"
  | _ => inr "unsupported key"
  end.

Definition crypto (w : nat -> Buffer -> Buffer * option error)
  : jwe.crypto := {|
  jwe.BuildContentCipher enc :=
    if String.eqb enc "A128GCM" then inl cipher
    else if String.eqb enc "PROBE" then inl probe
    else inr "unsupported content cipher";
  jwe.BuildKeyDecrypter := BuildKeyDecrypter;
  jwe.flate_Writer := w
|}.

(** A flate writer that marks what it was given. *)
Definition mark (level : nat) (input : Buffer) : Buffer * option error :=
  (String.append "deflate:" input, None).
End samplecrypto.

(** Headers, stores and messages the statements are checked on. *)
Module sample.
(** A jws header with a critical list and an embedded key. *)
Definition jws_with_crit : jws.Header :=
  jws.mkHeader
    (jws.mkEssentialHeader "HS256" "" (Some ["exp"]) (Some (JwkKey "k1"))
       None "" "" None None "" "")
    ∅.

(** A generic map with a critical list, a certificate chain and a key id,
    and no algorithm. *)
Definition with_lists : gmap string value :=
  <["crit" := VStringSlice (Some ["exp"])]>
    (<["x5c" := VStringSlice (Some ["MIIB"])]>
       (<["kid" := VString "k1"]> ∅)).

Definition jws_empty : jws.Header := jws.mkHeader jws.zero ∅.

(** The jws header with algorithm HS256 and nothing else. *)
Definition jws_HS256 : jws.Header :=
  jws.mkHeader (jws.set_Algorithm "HS256" jws.zero) ∅.

(** Wire texts of protected headers: JSON strings of the base64url text
    of an object with the member alg = HS256 after a space, and of the
    object with the members kid = k1 and alg = HS256 in this order. *)
Definition wire_spaced : Buffer := minijson.quote "eyAiYWxnIjoiSFMyNTYifQ".
Definition wire_kid_first : Buffer :=
  minijson.quote "eyJraWQiOiJrMSIsImFsZyI6IkhTMjU2In0".

(** jwe headers: one that names a content cipher and a key algorithm, one
    that names the content cipher only, one per key algorithm, and the
    empty one. *)
Definition protected (alg enc zip : string) : jwe.Header :=
  jwe.mkHeader
    (jwe.set_Compression zip
       (jwe.set_ContentEncryption enc (jwe.set_Algorithm alg jwe.zero)))
    ∅.
Definition only_alg (alg : string) : jwe.Header :=
  jwe.mkHeader (jwe.set_Algorithm alg jwe.zero) ∅.
Definition empty : jwe.Header := jwe.mkHeader jwe.zero ∅.

(** A message over a store that holds its protected header at 0, its
    unprotected header at 1 and the headers of its recipients from 2 on.
    The additional data are the bytes [hdr], whose base64url text is
    [aGRy]; the tag is the one [samplecrypto.cipher] accepts for the
    content key [cek] and these additional data. *)
Definition message (source ciphertext : Buffer) (rs : list jwe.Recipient)
  : jwe.Message :=
  jwe.mkMessage (Some (jwe.mkEncodedHeader (Some 0) source)) (Some 1)
    "hdr" "iv" ciphertext "cek.aGRy" rs.

(** Two recipients under "wrap": the first one's content key is wrapped
    under the key K1, the second one's under K2. *)
Definition wrap_store : list jwe.Header :=
  [protected "" "A128GCM" ""; empty; only_alg "wrap"; only_alg "wrap"].
Definition recipient_K1 := jwe.mkRecipient (Some 2) "K1cek".
Definition recipient_K2 := jwe.mkRecipient (Some 3) "K2cek".

(** One recipient under "dir" whose own header omits the algorithm, which
    the protected header carries. *)
Definition dir_store (enc zip : string) : list jwe.Header :=
  [protected "dir" enc zip; empty; empty].
Definition recipient_plain := jwe.mkRecipient (Some 2) "".

(** The wire bytes of a protected header that names the probing cipher:
    the object with the one member enc = PROBE. *)
Definition protected_source : Buffer :=
  minijson.object_text (minijson.member "enc" "PROBE").

(** One recipient under "dir" that names the algorithm itself. *)
Definition dir_store' (enc zip : string) : list jwe.Header :=
  [protected "" enc zip; empty; only_alg "dir"].
End sample.

(** * Definitions the further statements use *)

(** The [case] labels of the [switch key] of [Header.Set], per package, and
    the names under which jws [Construct] reads the map. *)
Definition jws_labels : list string :=
  ["alg"; "cty"; "kid"; "typ"; "x5t"; "x5t#256"; "x5c"; "crit"; "jku"; "x5u"].
Definition jwe_labels : list string :=
  ["alg"; "apu"; "apv"; "enc"; "cty"; "epk"; "kid"; "typ"; "x5t"; "x5t#256";
   "x5c"; "crit"; "jku"; "x5u"].
Definition construct_names : list string :=
  ["alg"; "cty"; "kid"; "typ"; "x5t"; "x5t#256"; "crit"; "x5c"; "jku"; "x5u"].

(** The key id [MergedHeader.KeyID] computes for a signature whose headers
    are read from the store [s], in words of the two key ids: the protected
    one unless it is empty, then the public one. [None] where the code
    dereferences nil. *)
Definition key_id_of (s : list jws.Header) (sig : jws.Signature)
  : option string :=
  let protected :=
    match jws.ProtectedHeader sig with
    | Some hp =>
        match jws.Header_of hp with
        | Some l => jws.KeyID ∘ jws.Essential <$> s !! l
        | None => None
        end
    | None => Some ""
    end in
  let public :=
    match jws.PublicHeader sig with
    | Some l => jws.KeyID ∘ jws.Essential <$> s !! l
    | None => Some ""
    end in
  match protected with
  | Some "" => public
  | other => other
  end.

(** [recipient.Header.Algorithm], read from the store [s]; [None] where the
    header is nil. *)
Definition recipient_Algorithm (s : list jwe.Header) (r : jwe.Recipient)
  : option string :=
  match jwe.Recipient_Header r with
  | Some l =>
      match s !! l with
      | Some o => Some (jwe.Algorithm (jwe.Essential o))
      | None => None
      end
  | None => None
  end.

(** The message [m] with the recipients [rs] in place of its own. *)
Definition with_Recipients (m : jwe.Message) (rs : list jwe.Recipient)
  : jwe.Message :=
  jwe.mkMessage (jwe.ProtectedHeader m) (jwe.UnprotectedHeader m)
    (jwe.AuthenticatedData m) (jwe.InitializationVector m) (jwe.CipherText m)
    (jwe.Tag m) rs.

(** The essential struct [e] after the entries of the map [m] went through
    jwe [Header.Set]: only a string under "x5t#256" reaches it. *)
Definition after_entries (m : gmap string value) (e : jwe.EssentialHeader)
  : jwe.EssentialHeader :=
  match m !! "x5t#256" with
  | Some (VString t) => jwe.set_X509CertThumbprintS256 t e
  | _ => e
  end.

(** Further headers, stores, signatures and messages the statements are
    checked on. *)
Module sample2.
(** jws headers with key ids, and a store that holds a protected header
    with the key id k1 at 0, a public header with the key id k2 at 1 and an
    empty header at 2. *)
Definition jws_k1 : jws.Header :=
  jws.mkHeader (jws.set_KeyID "k1" (jws.set_Algorithm "HS256" jws.zero)) ∅.
Definition jws_k2 : jws.Header :=
  jws.mkHeader (jws.set_KeyID "k2" jws.zero) ∅.
Definition jws_store : list jws.Header := [jws_k1; jws_k2; sample.jws_empty].

Definition sig_b : jws.Signature :=
  jws.mkSignature (Some 1) (Some (jws.mkEncodedHeader (Some 2) "")) "b".

(** A jws header and a jwe header with one private parameter each. *)
Definition jws_private : jws.Header :=
  jws.mkHeader jws.zero (<["nonce" := VString "n1"]> ∅).
Definition jwe_private : jwe.Header :=
  jwe.mkHeader jwe.zero (<["nonce" := VString "n1"]> ∅).

(** A jwe store with one recipient under "dir" at 2 and one under "wrap"
    at 3, whose content key is wrapped under the key K2. *)
Definition mixed_store : list jwe.Header :=
  [sample.protected "" "A128GCM" ""; sample.empty; sample.only_alg "dir";
   sample.only_alg "wrap"].
Definition mixed_message : jwe.Message :=
  sample.message "" "hello" [sample.recipient_plain; sample.recipient_K2].

(** [json.Unmarshal] for a text with the members kid = k1, nonce = n1 and
    x5t#256 = abc: the struct gets the key id, the generic map all three. *)
Definition json_three : jwe.json_pkg := {|
  jwe.MergeMarshal _ _ := ("", None);
  jwe.Unmarshal_EssentialHeader _ e := (jwe.set_KeyID "k1" e, None);
  jwe.Unmarshal_map _ :=
    (<["kid" := VString "k1"]>
       (<["nonce" := VString "n1"]> (<["x5t#256" := VString "abc"]> ∅)), None)
|}.
End sample2.

(** * Properties *)

(** ** The store monad *)

Section HeapFacts.
Context {Obj : Type}.
Implicit Types (s : list Obj) (l : loc) (o : Obj).

Lemma deref_Some s l o : s !! l = Some o -> deref (Some l) s = Done o s.
Proof. intros H. unfold deref. by rewrite H. Qed.

Lemma update_Some s l o (f : Obj -> Obj) :
  s !! l = Some o -> update (Some l) f s = Done tt (<[l := f o]> s).
Proof. intros H. unfold update. by rewrite H. Qed.

Lemma alloc_run s o : alloc o s = Done (length s) (s ++ [o]).
Proof. reflexivity. Qed.

Lemma lookup_alloc s o : (s ++ [o]) !! length s = Some o.
Proof. rewrite lookup_app_r by lia. by rewrite Nat.sub_diag. Qed.

Lemma lookup_alloc_old s o l x : s !! l = Some x -> (s ++ [o]) !! l = Some x.
Proof. intros H. by apply lookup_app_l_Some. Qed.

Lemma bind_Done {A B} (c : M A) (k : A -> M B) s a s' :
  c s = Done a s' -> bind c k s = k a s'.
Proof. intros H. unfold bind. by rewrite H. Qed.

(** Writing to the object allocated last. *)
Lemma insert_alloc_last s o o' :
  <[length s := o']> (s ++ [o]) = s ++ [o'].
Proof.
  rewrite insert_app_r_alt by lia. by rewrite Nat.sub_diag.
Qed.
End HeapFacts.

(** ** base64url *)

(** The test vectors of RFC 4648, without the padding. *)
Example Base64Encode_vectors :
  map (fun b => fst (buffer.Base64Encode b))
    [""; "f"; "fo"; "foo"; "foob"; "fooba"; "foobar"]
  = [""; "Zg"; "Zm8"; "Zm9v"; "Zm9vYg"; "Zm9vYmE"; "Zm9vYmFy"].
Proof. reflexivity. Qed.

Example Base64Decode_vectors :
  map buffer.Base64Decode [""; "Zg"; "Zm8"; "Zm9v"; "Zm9vYg"; "Z"; "Zm9v!"]
  = [Some ""; Some "f"; Some "fo"; Some "foo"; Some "foob"; None; None].
Proof. reflexivity. Qed.

Lemma sextet_digit (n : N) :
  (n < 64)%N -> buffer.sextet (buffer.digit n) = Some n.
Proof.
  intros H.
  assert (Hall : forallb
                   (fun k =>
                      match buffer.sextet (buffer.digit (N.of_nat k)) with
                      | Some m => N.eqb m (N.of_nat k)
                      | None => false
                      end) (seq 0 64) = true)
    by (vm_compute; reflexivity).
  rewrite forallb_forall in Hall.
  specialize (Hall (N.to_nat n)).
  rewrite N2Nat.id in Hall.
  assert (Hin : In (N.to_nat n) (seq 0 64)) by (apply in_seq; lia).
  specialize (Hall Hin).
  destruct (buffer.sextet _) as [m|]; [|discriminate].
  apply N.eqb_eq in Hall. by subst.
Qed.

Lemma N_of_ascii_lt (a : ascii) : (N_of_ascii a < 256)%N.
Proof. destruct a as [[] [] [] [] [] [] [] []]; vm_compute; reflexivity. Qed.

#[local] Ltac Zify.zify_post_hook ::= Z.to_euclidean_division_equations.

(** The arithmetic of regrouping three bytes as four sextets and back. *)
Lemma recompose (x y z : N) :
  (x < 256 -> y < 256 -> z < 256 ->
   x / 4 * 4 + (x mod 4 * 16 + y / 16) / 16 = x
   /\ (x mod 4 * 16 + y / 16) mod 16 * 16 + (y mod 16 * 4 + z / 64) / 4 = y
   /\ (y mod 16 * 4 + z / 64) mod 4 * 64 + z mod 64 = z
   /\ x / 4 < 64 /\ x mod 4 * 16 + y / 16 < 64
   /\ y mod 16 * 4 + z / 64 < 64 /\ z mod 64 < 64)%N.
Proof. intros. repeat split; lia. Qed.

Lemma decode_encode (l : list ascii) : buffer.decode (buffer.encode l) = Some l.
Proof.
  induction l as [l IH] using (induction_ltof1 _ (@length ascii)).
  unfold ltof in IH.
  destruct l as [|a [|b [|c rest]]]; [reflexivity| | |].
  - destruct (recompose (N_of_ascii a) 0 0 (N_of_ascii_lt a) eq_refl eq_refl)
      as (E1 & _ & _ & L1 & L2 & _).
    rewrite N.add_0_r in E1, L2.
    cbn [buffer.encode buffer.decode].
    rewrite !sextet_digit by done. cbn [mbind option_bind].
    by rewrite E1, ascii_N_embedding.
  - destruct (recompose (N_of_ascii a) (N_of_ascii b) 0 (N_of_ascii_lt a)
                (N_of_ascii_lt b) eq_refl) as (E1 & E2 & _ & L1 & L2 & L3 & _).
    rewrite N.add_0_r in E2, L3.
    cbn [buffer.encode buffer.decode].
    rewrite !sextet_digit by done. cbn [mbind option_bind].
    by rewrite E1, E2, !ascii_N_embedding.
  - destruct (recompose (N_of_ascii a) (N_of_ascii b) (N_of_ascii c)
                (N_of_ascii_lt a) (N_of_ascii_lt b) (N_of_ascii_lt c))
      as (E1 & E2 & E3 & L1 & L2 & L3 & L4).
    cbn [buffer.encode buffer.decode].
    rewrite !sextet_digit by done. cbn [mbind option_bind].
    rewrite IH by (simpl; lia). cbn [mbind option_bind].
    by rewrite E1, E2, E3, !ascii_N_embedding.
Qed.

(** Decoding undoes encoding, for every buffer. *)
Lemma Base64Decode_Base64Encode (b : Buffer) :
  buffer.Base64Decode (fst (buffer.Base64Encode b)) = Some b.
Proof.
  unfold buffer.Base64Decode, buffer.Base64Encode. simpl.
  rewrite list_ascii_of_string_of_list_ascii, decode_encode. simpl.
  by rewrite string_of_list_ascii_of_string.
Qed.

(** ** The parameter loop of Copy and Merge is a left-biased union *)

Lemma jws_copy_params_union (src dst : gmap string value) :
  jws.copy_params src dst = src ∪ dst.
Proof.
  unfold jws.copy_params.
  apply (map_fold_weak_ind (fun r m => r = m ∪ dst)).
  - by rewrite (left_id_L ∅ (∪)).
  - intros k v m r Hk ->. by rewrite insert_union_l.
Qed.

Lemma jwe_copy_params_union (src dst : gmap string value) :
  jwe.copy_params src dst = src ∪ dst.
Proof.
  unfold jwe.copy_params.
  apply (map_fold_weak_ind (fun r m => r = m ∪ dst)).
  - by rewrite (left_id_L ∅ (∪)).
  - intros k v m r Hk ->. by rewrite insert_union_l.
Qed.

(** ** Header.Set *)

Lemma jws_assign_no_error (h : ptr) f s (err : error) s' :
  jws.assign h f s = Done (Some err) s' -> False.
Proof.
  unfold jws.assign, bind, update, ret.
  destruct h as [l|]; [destruct (s !! l)|]; discriminate.
Qed.

Lemma jwe_assign_no_error (h : ptr) f s (err : error) s' :
  jwe.assign h f s = Done (Some err) s' -> False.
Proof.
  unfold jwe.assign, bind, update, ret.
  destruct h as [l|]; [destruct (s !! l)|]; discriminate.
Qed.

Ltac set_error_case :=
  match goal with
  | H : jws.assign _ _ _ = Done (Some _) _ |- _ =>
      destruct (jws_assign_no_error _ _ _ _ _ H)
  | H : jwe.assign _ _ _ = Done (Some _) _ |- _ =>
      destruct (jwe_assign_no_error _ _ _ _ _ H)
  | H : ret (Some _) _ = Done (Some _) _ |- _ =>
      unfold ret in H; inversion H; subst; split; reflexivity
  end.

(** C9 (jws): a [Set] that returns an error returns [ErrInvalidHeaderValue]
    and leaves the whole store, the header included, as it was. *)
Lemma jws_Set_error_unchanged url_Parse h key v s err s' :
  jws.Header_Set url_Parse h key v s = Done (Some err) s' ->
  s' = s /\ err = jws.ErrInvalidHeaderValue.
Proof.
  unfold jws.Header_Set.
  destruct (jws.switch_key key); destruct v; intros H;
    try set_error_case;
    destruct (url_Parse s0); set_error_case.
Qed.

Lemma jwe_Set_error_unchanged url_Parse h key v s err s' :
  jwe.Header_Set url_Parse h key v s = Done (Some err) s' ->
  s' = s /\ err = jwe.ErrInvalidHeaderValue.
Proof.
  unfold jwe.Header_Set.
  destruct (jwe.switch_key key); destruct v; intros H;
    try set_error_case;
    destruct (url_Parse s0); set_error_case.
Qed.

(** ** jws: what Copy and Merge do to the store *)

(** [Copy] through two addresses that hold headers, aliased or not: the
    destination gets the source's fields as [EssentialHeader.Copy] assigns
    them and the source's parameters over its own; nothing else is written. *)
Lemma jws_Header_Copy_run (s : list jws.Header) l1 l2 d src :
  s !! l1 = Some d -> s !! l2 = Some src ->
  jws.Header_Copy (Some l1) (Some l2) s =
    Done None
      (<[l1 := jws.mkHeader
                 (jws.EssentialHeader_Copy (jws.Essential d) (jws.Essential src))
                 (jws.PrivateParams src ∪ jws.PrivateParams d)]> s).
Proof.
  intros H1 H2. unfold jws.Header_Copy.
  rewrite (bind_Done _ _ _ _ _ (deref_Some _ _ _ H2)).
  rewrite (bind_Done _ _ _ _ _ (update_Some _ _ _ _ H1)).
  pose proof (lookup_lt_Some _ _ _ H1) as Hlt.
  set (d' := jws.on_essential _ d).
  assert (Hd' : <[l1 := d']> s !! l1 = Some d')
    by (by apply list_lookup_insert_eq).
  assert (Hsrc : exists src', <[l1 := d']> s !! l2 = Some src'
                   /\ jws.PrivateParams src' = jws.PrivateParams src).
  { destruct (decide (l1 = l2)) as [->|Hne].
    - exists d'. split; [done|]. rewrite H1 in H2. injection H2 as <-.
      reflexivity.
    - exists src. by rewrite list_lookup_insert_ne. }
  destruct Hsrc as (src' & Hsrc' & Hp).
  rewrite (bind_Done _ _ _ _ _ (deref_Some _ _ _ Hsrc')).
  rewrite (bind_Done _ _ _ _ _ (update_Some _ _ _ _ Hd')).
  unfold ret. rewrite list_insert_insert_eq. subst d'.
  unfold jws.on_params, jws.on_essential. simpl.
  by rewrite Hp, jws_copy_params_union.
Qed.

(** [Copy] returns an error exactly when one of its two pointers is nil, and
    then writes nothing. *)
Lemma jws_Header_Copy_error (s : list jws.Header) h1 h2 :
  (h1 = None \/ h2 = None ->
   exists err, jws.Header_Copy h1 h2 s = Done (Some err) s)
  /\ (forall err s', jws.Header_Copy h1 h2 s = Done (Some err) s' ->
      h1 = None \/ h2 = None).
Proof.
  split.
  - intros [-> | ->]; [|destruct h1]; eexists; reflexivity.
  - intros err s' H. destruct h1 as [l1|]; [|by left].
    destruct h2 as [l2|]; [|by right]. exfalso.
    unfold jws.Header_Copy, bind, deref, update, ret in H.
    repeat match type of H with
           | context [match ?x with _ => _ end] => destruct x eqn:?
           end; simplify_eq.
Qed.

(** [Merge] of two addresses that hold headers: a new header at a new
    address, built from the zero header by [Copy] from the receiver and
    [EssentialHeader.Merge] from the argument, with the argument's parameters
    over the receiver's; the store it started from is a prefix of the store
    it ends with. *)
Lemma jws_Header_Merge_run (s : list jws.Header) l1 l2 a b :
  s !! l1 = Some a -> s !! l2 = Some b ->
  jws.Header_Merge (Some l1) (Some l2) s =
    Done (Some (length s), None)
      (s ++ [jws.mkHeader
               (jws.EssentialHeader_Merge
                  (jws.EssentialHeader_Copy jws.zero (jws.Essential a))
                  (jws.Essential b))
               (jws.PrivateParams b ∪ jws.PrivateParams a)]).
Proof.
  intros H1 H2. unfold jws.Header_Merge, jws.NewHeader.
  rewrite (bind_Done _ _ _ _ _ (alloc_run _ _)).
  set (h0 := jws.mkHeader jws.zero ∅).
  pose proof (lookup_alloc s h0) as H3.
  pose proof (lookup_alloc_old s h0 _ _ H1) as H1'.
  rewrite (bind_Done _ _ _ _ _ (jws_Header_Copy_run _ _ _ _ _ H3 H1')).
  rewrite insert_alloc_last. simpl.
  rewrite (right_id_L ∅ (∪)).
  set (h3 := jws.mkHeader _ _).
  pose proof (lookup_alloc s h3) as H3'.
  pose proof (lookup_alloc_old s h3 _ _ H2) as H2'.
  rewrite (bind_Done _ _ _ _ _ (deref_Some _ _ _ H2')).
  rewrite (bind_Done _ _ _ _ _ (update_Some _ _ _ _ H3')).
  rewrite insert_alloc_last.
  set (h3' := jws.on_essential _ h3).
  pose proof (lookup_alloc s h3') as H3''.
  pose proof (lookup_alloc_old s h3' _ _ H2) as H2''.
  rewrite (bind_Done _ _ _ _ _ (deref_Some _ _ _ H2'')).
  rewrite (bind_Done _ _ _ _ _ (update_Some _ _ _ _ H3'')).
  rewrite insert_alloc_last. unfold ret.
  subst h3' h3. unfold jws.on_params, jws.on_essential. simpl.
  by rewrite jws_copy_params_union.
Qed.

(** ** jwe: what Copy and Merge do to the store *)

(** [Copy] through two addresses that hold headers, aliased or not: the
    destination gets the source's fields as [EssentialHeader.Copy] assigns
    them and the source's parameters over its own; nothing else is written. *)
Lemma jwe_Header_Copy_run (s : list jwe.Header) l1 l2 d src :
  s !! l1 = Some d -> s !! l2 = Some src ->
  jwe.Header_Copy (Some l1) (Some l2) s =
    Done None
      (<[l1 := jwe.mkHeader
                 (jwe.EssentialHeader_Copy (jwe.Essential d) (jwe.Essential src))
                 (jwe.PrivateParams src ∪ jwe.PrivateParams d)]> s).
Proof.
  intros H1 H2. unfold jwe.Header_Copy.
  rewrite (bind_Done _ _ _ _ _ (deref_Some _ _ _ H2)).
  rewrite (bind_Done _ _ _ _ _ (update_Some _ _ _ _ H1)).
  pose proof (lookup_lt_Some _ _ _ H1) as Hlt.
  set (d' := jwe.on_essential _ d).
  assert (Hd' : <[l1 := d']> s !! l1 = Some d')
    by (by apply list_lookup_insert_eq).
  assert (Hsrc : exists src', <[l1 := d']> s !! l2 = Some src'
                   /\ jwe.PrivateParams src' = jwe.PrivateParams src).
  { destruct (decide (l1 = l2)) as [->|Hne].
    - exists d'. split; [done|]. rewrite H1 in H2. injection H2 as <-.
      reflexivity.
    - exists src. by rewrite list_lookup_insert_ne. }
  destruct Hsrc as (src' & Hsrc' & Hp).
  rewrite (bind_Done _ _ _ _ _ (deref_Some _ _ _ Hsrc')).
  rewrite (bind_Done _ _ _ _ _ (update_Some _ _ _ _ Hd')).
  unfold ret. rewrite list_insert_insert_eq. subst d'.
  unfold jwe.on_params, jwe.on_essential. simpl.
  by rewrite Hp, jwe_copy_params_union.
Qed.

(** [Copy] returns an error exactly when one of its two pointers is nil, and
    then writes nothing. *)
Lemma jwe_Header_Copy_error (s : list jwe.Header) h1 h2 :
  (h1 = None \/ h2 = None ->
   exists err, jwe.Header_Copy h1 h2 s = Done (Some err) s)
  /\ (forall err s', jwe.Header_Copy h1 h2 s = Done (Some err) s' ->
      h1 = None \/ h2 = None).
Proof.
  split.
  - intros [-> | ->]; [|destruct h1]; eexists; reflexivity.
  - intros err s' H. destruct h1 as [l1|]; [|by left].
    destruct h2 as [l2|]; [|by right]. exfalso.
    unfold jwe.Header_Copy, bind, deref, update, ret in H.
    repeat match type of H with
           | context [match ?x with _ => _ end] => destruct x eqn:?
           end; simplify_eq.
Qed.

(** [Merge] of two addresses that hold headers: a new header at a new
    address, built from the zero header by [Copy] from the receiver and
    [EssentialHeader.Merge] from the argument, with the argument's parameters
    over the receiver's; the store it started from is a prefix of the store
    it ends with. *)
Lemma jwe_Header_Merge_run (s : list jwe.Header) l1 l2 a b :
  s !! l1 = Some a -> s !! l2 = Some b ->
  jwe.Header_Merge (Some l1) (Some l2) s =
    Done (Some (length s), None)
      (s ++ [jwe.mkHeader
               (jwe.EssentialHeader_Merge
                  (jwe.EssentialHeader_Copy jwe.zero (jwe.Essential a))
                  (jwe.Essential b))
               (jwe.PrivateParams b ∪ jwe.PrivateParams a)]).
Proof.
  intros H1 H2. unfold jwe.Header_Merge, jwe.NewHeader.
  rewrite (bind_Done _ _ _ _ _ (alloc_run _ _)).
  set (h0 := jwe.mkHeader jwe.zero ∅).
  pose proof (lookup_alloc s h0) as H3.
  pose proof (lookup_alloc_old s h0 _ _ H1) as H1'.
  rewrite (bind_Done _ _ _ _ _ (jwe_Header_Copy_run _ _ _ _ _ H3 H1')).
  rewrite insert_alloc_last. simpl.
  rewrite (right_id_L ∅ (∪)).
  set (h3 := jwe.mkHeader _ _).
  pose proof (lookup_alloc s h3) as H3'.
  pose proof (lookup_alloc_old s h3 _ _ H2) as H2'.
  rewrite (bind_Done _ _ _ _ _ (deref_Some _ _ _ H2')).
  rewrite (bind_Done _ _ _ _ _ (update_Some _ _ _ _ H3')).
  rewrite insert_alloc_last.
  set (h3' := jwe.on_essential _ h3).
  pose proof (lookup_alloc s h3') as H3''.
  pose proof (lookup_alloc_old s h3' _ _ H2) as H2''.
  rewrite (bind_Done _ _ _ _ _ (deref_Some _ _ _ H2'')).
  rewrite (bind_Done _ _ _ _ _ (update_Some _ _ _ _ H3'')).
  rewrite insert_alloc_last. unfold ret.
  subst h3' h3. unfold jwe.on_params, jwe.on_essential. simpl.
  by rewrite jwe_copy_params_union.
Qed.

(** ** Reading a field through the conditional assignments of Merge *)

Lemma proj_when {S B} (p : S -> B) (c : bool) (f : S -> S) (h : S) :
  p (when c f h) = if c then p (f h) else p h.
Proof. by destruct c. Qed.

Lemma if_same {A} (c : bool) (x : A) : (if c then x else x) = x.
Proof. by destruct c. Qed.

Lemma if_negb {A} (c : bool) (x y : A) :
  (if negb c then x else y) = if c then y else x.
Proof. by destruct c. Qed.

Lemma if_notnil {A C} (o : option C) (x y : A) :
  (if notnil o then x else y) = match o with None => y | Some _ => x end.
Proof. by destruct o. Qed.

(** Reads a field of the result of a chain of conditional assignments, one
    assignment at a time from the last. *)
Ltac through_merge :=
  cbv zeta;
  repeat (rewrite proj_when; simpl; rewrite ?if_same).

(** jws: [EssentialHeader.Merge] never writes [Critical] or [Jwk], and
    neither does [EssentialHeader.Copy]. *)
Lemma jws_Merge_keeps_Critical_Jwk h1 h2 :
  jws.Critical (jws.EssentialHeader_Merge h1 h2) = jws.Critical h1
  /\ jws.Jwk (jws.EssentialHeader_Merge h1 h2) = jws.Jwk h1.
Proof. unfold jws.EssentialHeader_Merge. split; by through_merge. Qed.

Lemma jws_Copy_keeps_Critical_Jwk h1 h2 :
  jws.Critical (jws.EssentialHeader_Copy h1 h2) = jws.Critical h1
  /\ jws.Jwk (jws.EssentialHeader_Copy h1 h2) = jws.Jwk h1.
Proof. split; reflexivity. Qed.

(** jws: the nine fields [EssentialHeader.Copy] does assign. *)
Lemma jws_Copy_assigned_fields h1 h2 :
  jws.EssentialHeader_Copy h1 h2
  = jws.set_Jwk_Critical (jws.Jwk h1) (jws.Critical h1) h2.
Proof. reflexivity. Qed.

(** jwe: [EssentialHeader.Copy] assigns every field, so the destination ends
    up equal to the source. *)
Lemma jwe_Copy_all_fields h1 h2 : jwe.EssentialHeader_Copy h1 h2 = h2.
Proof. by destruct h2. Qed.

(** jwe: after [EssentialHeader.Merge] every field holds the argument's value
    where the argument's is not empty (a string other than the empty one, a
    buffer of length other than 0, a slice or pointer other than nil) and
    the receiver's value where it is. *)
Lemma jwe_Merge_fields a b :
  let r := jwe.EssentialHeader_Merge a b in
  jwe.AgreementPartyUInfo r
     = merged_buffer (jwe.AgreementPartyUInfo a) (jwe.AgreementPartyUInfo b)
  /\ jwe.AgreementPartyVInfo r
     = merged_buffer (jwe.AgreementPartyVInfo a) (jwe.AgreementPartyVInfo b)
  /\ jwe.Algorithm r
     = merged_string (jwe.Algorithm a) (jwe.Algorithm b)
  /\ jwe.ContentEncryption r
     = merged_string (jwe.ContentEncryption a) (jwe.ContentEncryption b)
  /\ jwe.ContentType r
     = merged_string (jwe.ContentType a) (jwe.ContentType b)
  /\ jwe.Compression r
     = merged_string (jwe.Compression a) (jwe.Compression b)
  /\ jwe.Critical r
     = merged_nilable (jwe.Critical a) (jwe.Critical b)
  /\ jwe.EphemeralPublicKey r
     = merged_nilable (jwe.EphemeralPublicKey a) (jwe.EphemeralPublicKey b)
  /\ jwe.Jwk r
     = merged_nilable (jwe.Jwk a) (jwe.Jwk b)
  /\ jwe.JwkSetURL r
     = merged_nilable (jwe.JwkSetURL a) (jwe.JwkSetURL b)
  /\ jwe.KeyID r
     = merged_string (jwe.KeyID a) (jwe.KeyID b)
  /\ jwe.Type' r
     = merged_string (jwe.Type' a) (jwe.Type' b)
  /\ jwe.X509Url r
     = merged_nilable (jwe.X509Url a) (jwe.X509Url b)
  /\ jwe.X509CertChain r
     = merged_nilable (jwe.X509CertChain a) (jwe.X509CertChain b)
  /\ jwe.X509CertThumbprint r
     = merged_string (jwe.X509CertThumbprint a) (jwe.X509CertThumbprint b)
  /\ jwe.X509CertThumbprintS256 r
     = merged_string (jwe.X509CertThumbprintS256 a) (jwe.X509CertThumbprintS256 b).
Proof.
  unfold jwe.EssentialHeader_Merge, merged_string, merged_buffer, merged_nilable.
  repeat split; through_merge;
    rewrite ?if_negb, ?if_notnil; reflexivity.
Qed.

(** jws: the same for the nine fields its [EssentialHeader.Merge] handles. *)
Lemma jws_Merge_fields a b :
  let r := jws.EssentialHeader_Merge a b in
  jws.Algorithm r
     = merged_string (jws.Algorithm a) (jws.Algorithm b)
  /\ jws.ContentType r
     = merged_string (jws.ContentType a) (jws.ContentType b)
  /\ jws.JwkSetURL r
     = merged_nilable (jws.JwkSetURL a) (jws.JwkSetURL b)
  /\ jws.KeyID r
     = merged_string (jws.KeyID a) (jws.KeyID b)
  /\ jws.Type' r
     = merged_string (jws.Type' a) (jws.Type' b)
  /\ jws.X509Url r
     = merged_nilable (jws.X509Url a) (jws.X509Url b)
  /\ jws.X509CertChain r
     = merged_nilable (jws.X509CertChain a) (jws.X509CertChain b)
  /\ jws.X509CertThumbprint r
     = merged_string (jws.X509CertThumbprint a) (jws.X509CertThumbprint b)
  /\ jws.X509CertThumbprintS256 r
     = merged_string (jws.X509CertThumbprintS256 a) (jws.X509CertThumbprintS256 b).
Proof.
  unfold jws.EssentialHeader_Merge, merged_string, merged_buffer, merged_nilable.
  repeat split; through_merge;
    rewrite ?if_negb, ?if_notnil; reflexivity.
Qed.

(** ** Claims on the header model *)

Lemma jws_eta (e : jws.EssentialHeader) :
  e = jws.mkEssentialHeader (jws.Algorithm e) (jws.ContentType e)
        (jws.Critical e) (jws.Jwk e) (jws.JwkSetURL e) (jws.KeyID e)
        (jws.Type' e) (jws.X509Url e) (jws.X509CertChain e)
        (jws.X509CertThumbprint e) (jws.X509CertThumbprintS256 e).
Proof. by destruct e. Qed.

(** jws: merging into a copy made by [EssentialHeader.Copy] from the zero
    struct is merging into the original, but for [Critical] and [Jwk], which
    the copy does not have. *)
Lemma jws_Merge_of_Copy a b :
  jws.EssentialHeader_Merge (jws.EssentialHeader_Copy jws.zero a) b
  = jws.set_Jwk_Critical None None (jws.EssentialHeader_Merge a b).
Proof.
  rewrite (jws_eta (jws.EssentialHeader_Merge _ b)).
  unfold jws.set_Jwk_Critical, jws.EssentialHeader_Merge.
  f_equal; by through_merge.
Qed.

(** C6. The claim, that the result of [merge(a, b)] holds [b]'s value for
    every field not empty in [b] and [a]'s value for every other field, the
    jws [Critical] and [Jwk] included, fails in package jws: its
    [EssentialHeader.Merge] and [EssentialHeader.Copy] have no statement for
    these two fields, so the merged header, which starts from a new header,
    has both nil whatever [a] and [b] hold. The other nine fields are merged
    as claimed, and the merge writes neither [a] nor [b]: the store it
    started from is a prefix of the final store. *)
Theorem jws_Merge_drops_Critical_and_Jwk (s : list jws.Header) l1 l2 a b :
  s !! l1 = Some a -> s !! l2 = Some b ->
  exists h3,
    jws.Header_Merge (Some l1) (Some l2) s
    = Done (Some (length s), None) (s ++ [h3])
    /\ jws.Essential h3
       = jws.set_Jwk_Critical None None
           (jws.EssentialHeader_Merge (jws.Essential a) (jws.Essential b))
    /\ jws.Critical (jws.Essential h3) = None
    /\ jws.Jwk (jws.Essential h3) = None.
Proof.
  intros H1 H2. eexists. split.
  - by apply jws_Header_Merge_run.
  - simpl. rewrite jws_Merge_of_Copy. by split_and!.
Qed.

Lemma jws_Merge_drops_Critical_and_Jwk_witness :
  ([sample.jws_with_crit; sample.jws_empty] !! 0 = Some sample.jws_with_crit
   /\ [sample.jws_with_crit; sample.jws_empty] !! 1 = Some sample.jws_empty)
  /\ exists h3,
      jws.Header_Merge (Some 0) (Some 1)
        [sample.jws_with_crit; sample.jws_empty]
      = Done (Some 2, None) ([sample.jws_with_crit; sample.jws_empty] ++ [h3])
      /\ jws.Essential h3
         = jws.set_Jwk_Critical None None
             (jws.EssentialHeader_Merge (jws.Essential sample.jws_with_crit)
                (jws.Essential sample.jws_empty))
      /\ jws.Critical (jws.Essential h3) = None
      /\ jws.Jwk (jws.Essential h3) = None.
Proof.
  split; [split; reflexivity|].
  apply (jws_Merge_drops_Critical_and_Jwk
           [sample.jws_with_crit; sample.jws_empty] 0 1
           sample.jws_with_crit sample.jws_empty); reflexivity.
Defined.

(** What does hold of [Merge] in package jwe, all sixteen fields and the
    parameters: the claim of C6 as it stands. *)
Lemma jwe_Merge_meets_claim (s : list jwe.Header) l1 l2 a b :
  s !! l1 = Some a -> s !! l2 = Some b ->
  exists h3,
    jwe.Header_Merge (Some l1) (Some l2) s
    = Done (Some (length s), None) (s ++ [h3])
    /\ jwe.Essential h3
       = jwe.EssentialHeader_Merge (jwe.Essential a) (jwe.Essential b)
    /\ (forall k v, jwe.PrivateParams b !! k = Some v ->
                    jwe.PrivateParams h3 !! k = Some v)
    /\ (forall k, jwe.PrivateParams b !! k = None ->
                  jwe.PrivateParams h3 !! k = jwe.PrivateParams a !! k)
    /\ (forall l o, s !! l = Some o -> (s ++ [h3]) !! l = Some o).
Proof.
  intros H1 H2. eexists. split; [by apply jwe_Header_Merge_run|].
  simpl. rewrite jwe_Copy_all_fields. repeat split.
  - intros k v Hk. by apply lookup_union_Some_l.
  - intros k Hk. by rewrite lookup_union_r.
  - intros l o Hl. by apply lookup_app_l_Some.
Qed.

(** C7. The claim, that [set] routes every essential key to its typed field
    and keeps it out of the extension map, fails for the keys the [switch] of
    [Header.Set] has no [case] for: "x5t#S256" in both packages (the case is
    spelled "x5t#256"), and "zip" and "jwk" in package jwe. For these [Set]
    takes the [default] branch: any value, of any type, is stored in
    [PrivateParams] under the key and the essential struct is left as it
    was. *)
Theorem Set_essential_key_lands_in_PrivateParams url_Parse l v :
  (forall (s : list jws.Header) o,
      s !! l = Some o ->
      jws.Header_Set url_Parse (Some l) "x5t#S256" v s
      = Done None
          (<[l := jws.mkHeader (jws.Essential o)
                    (<["x5t#S256" := v]> (jws.PrivateParams o))]> s))
  /\ (forall (s : list jwe.Header) o key,
         key ∈ ["x5t#S256"; "zip"; "jwk"] ->
         s !! l = Some o ->
         jwe.Header_Set url_Parse (Some l) key v s
         = Done None
             (<[l := jwe.mkHeader (jwe.Essential o)
                       (<[key := v]> (jwe.PrivateParams o))]> s)).
Proof.
  split.
  - intros s o H. unfold jws.Header_Set. simpl. unfold jws.assign.
    by rewrite (bind_Done _ _ _ _ _ (update_Some _ _ _ _ H)).
  - intros s o key Hkey H.
    assert (Hd : jwe.switch_key key = jwe.K_default).
    { repeat (apply elem_of_cons in Hkey as [-> | Hkey]; [reflexivity|]).
      by apply elem_of_nil in Hkey. }
    unfold jwe.Header_Set. rewrite Hd. unfold jwe.assign.
    by rewrite (bind_Done _ _ _ _ _ (update_Some _ _ _ _ H)).
Qed.

Lemma Set_essential_key_lands_in_PrivateParams_witness :
  jws.Header_Set sample_url_Parse (Some 0) "x5t#S256" (VString "abc")
    [sample.jws_empty]
  = Done None [jws.mkHeader jws.zero (<["x5t#S256" := VString "abc"]> ∅)]
  /\ jwe.Header_Set sample_url_Parse (Some 0) "zip" (VOther 7) [sample.empty]
     = Done None [jwe.mkHeader jwe.zero (<["zip" := VOther 7]> ∅)].
Proof.
  split.
  - apply (proj1 (Set_essential_key_lands_in_PrivateParams
                    sample_url_Parse 0 (VString "abc"))
             [sample.jws_empty] sample.jws_empty).
    reflexivity.
  - apply (proj2 (Set_essential_key_lands_in_PrivateParams
                    sample_url_Parse 0 (VOther 7))
             [sample.empty] sample.empty "zip").
    + by apply (bool_decide_unpack _).
    + reflexivity.
Defined.

(** C8. The claim, that after [Copy(dst, src)] every essential field of
    [dst] equals that of [src], the jws [Critical] and [Jwk] among them,
    fails in package jws: [Copy] assigns the other nine fields and leaves
    [Critical] and [Jwk] of the destination as they were. *)
Theorem jws_Copy_leaves_Critical_and_Jwk (s : list jws.Header) l1 l2 d src :
  s !! l1 = Some d -> s !! l2 = Some src ->
  exists d',
    jws.Header_Copy (Some l1) (Some l2) s = Done None (<[l1 := d']> s)
    /\ jws.Essential d'
       = jws.set_Jwk_Critical (jws.Jwk (jws.Essential d))
           (jws.Critical (jws.Essential d)) (jws.Essential src).
Proof.
  intros H1 H2. eexists. split; [by apply jws_Header_Copy_run|].
  reflexivity.
Qed.

Lemma jws_Copy_leaves_Critical_and_Jwk_witness :
  ([sample.jws_empty; sample.jws_with_crit] !! 0 = Some sample.jws_empty
   /\ [sample.jws_empty; sample.jws_with_crit] !! 1 = Some sample.jws_with_crit)
  /\ exists d',
      jws.Header_Copy (Some 0) (Some 1) [sample.jws_empty; sample.jws_with_crit]
      = Done None (<[0 := d']> [sample.jws_empty; sample.jws_with_crit])
      /\ jws.Essential d'
         = jws.set_Jwk_Critical None None (jws.Essential sample.jws_with_crit).
Proof.
  split; [split; reflexivity|].
  apply (jws_Copy_leaves_Critical_and_Jwk
           [sample.jws_empty; sample.jws_with_crit] 0 1
           sample.jws_empty sample.jws_with_crit); reflexivity.
Defined.

(** What does hold of [Copy] in package jwe: the claim of C8 as it stands.
    ([Copy] adds the source's parameters to the destination's; it removes
    none.) *)
Lemma jwe_Copy_meets_claim (s : list jwe.Header) l1 l2 d src :
  s !! l1 = Some d -> s !! l2 = Some src ->
  exists d',
    jwe.Header_Copy (Some l1) (Some l2) s = Done None (<[l1 := d']> s)
    /\ jwe.Essential d' = jwe.Essential src.
Proof.
  intros H1 H2. eexists. split; [by apply jwe_Header_Copy_run|].
  simpl. apply jwe_Copy_all_fields.
Qed.

(** C9. For every header, key and value, in both packages: a [Set] that
    returns an error returns [ErrInvalidHeaderValue] and has written
    nothing, neither to the header nor anywhere else in the store. *)
Theorem Set_error_leaves_header_unchanged url_Parse h key v :
  (forall (s s' : list jws.Header) err,
      jws.Header_Set url_Parse h key v s = Done (Some err) s' ->
      s' = s /\ err = jws.ErrInvalidHeaderValue)
  /\ (forall (s s' : list jwe.Header) err,
         jwe.Header_Set url_Parse h key v s = Done (Some err) s' ->
         s' = s /\ err = jwe.ErrInvalidHeaderValue).
Proof.
  split; intros s s' err H.
  - by apply (jws_Set_error_unchanged url_Parse h key v).
  - by apply (jwe_Set_error_unchanged url_Parse h key v).
Qed.

Lemma Set_error_leaves_header_unchanged_witness :
  (jws.Header_Set sample_url_Parse (Some 0) "jku" (VString ":")
     [sample.jws_with_crit]
   = Done (Some jws.ErrInvalidHeaderValue) [sample.jws_with_crit]
   /\ jwe.Header_Set sample_url_Parse (Some 0) "epk" (VString "key")
        [sample.empty]
      = Done (Some jwe.ErrInvalidHeaderValue) [sample.empty])
  /\ ([sample.jws_with_crit] = [sample.jws_with_crit]
      /\ jws.ErrInvalidHeaderValue = jws.ErrInvalidHeaderValue)
  /\ ([sample.empty] = [sample.empty]
      /\ jwe.ErrInvalidHeaderValue = jwe.ErrInvalidHeaderValue).
Proof.
  split; [split; reflexivity|]. split.
  - apply (proj1 (Set_error_leaves_header_unchanged sample_url_Parse
                    (Some 0) "jku" (VString ":"))
             [sample.jws_with_crit] [sample.jws_with_crit]
             jws.ErrInvalidHeaderValue).
    reflexivity.
  - apply (proj2 (Set_error_leaves_header_unchanged sample_url_Parse
                    (Some 0) "epk" (VString "key"))
             [sample.empty] [sample.empty] jwe.ErrInvalidHeaderValue).
    reflexivity.
Defined.

(** jws [EssentialHeader.Construct], field by field, for every map, every
    receiver and whatever the getters of [emap.Hmap] return. *)
Lemma jws_Construct_fields
  GetString GetStringSlice url_Parse (h0 : jws.EssentialHeader)
  (m : gmap string value) :
  let r := jws.EssentialHeader_Construct GetString GetStringSlice url_Parse h0 m in
  let h := fst r in
  snd r = None
  /\ jws.Critical h
     = match GetStringSlice m "crit" with
       | (v, Some _) => v
       | (_, None) => jws.Critical h0
       end
  /\ jws.X509CertChain h
     = match GetStringSlice m "x5c" with
       | (v, Some _) => v
       | (_, None) => jws.X509CertChain h0
       end
  /\ jws.Algorithm h
     = (let a := match GetString m "alg" with
                 | (alg, None) => alg
                 | (_, Some _) => jws.Algorithm h0
                 end in
        if String.eqb a "" then jwa.NoSignature else a)
  /\ jws.ContentType h = fst (GetString m "cty")
  /\ jws.KeyID h = fst (GetString m "kid")
  /\ jws.Type' h = fst (GetString m "typ")
  /\ jws.X509CertThumbprint h = fst (GetString m "x5t")
  /\ jws.X509CertThumbprintS256 h = fst (GetString m "x5t#256")
  /\ jws.JwkSetURL h
     = match GetString m "jku" with
       | (v, None) => match url_Parse v with
                      | Some u => Some u
                      | None => jws.JwkSetURL h0
                      end
       | (_, Some _) => jws.JwkSetURL h0
       end
  /\ jws.X509Url h
     = match GetString m "x5u" with
       | (v, None) => match url_Parse v with
                      | Some u => Some u
                      | None => jws.X509Url h0
                      end
       | (_, Some _) => jws.X509Url h0
       end
  /\ jws.Jwk h = jws.Jwk h0.
Proof.
  unfold jws.EssentialHeader_Construct.
  destruct (GetString m "alg") as [alg [e1|]];
    destruct (GetStringSlice m "crit") as [c [e2|]];
    destruct (GetStringSlice m "x5c") as [x [e3|]];
    destruct (GetString m "jku") as [j [e4|]];
    destruct (GetString m "x5u") as [u [e5|]];
    try destruct (url_Parse j); try destruct (url_Parse u);
    cbv zeta; simpl;
    repeat match goal with
           | |- context [String.eqb ?a ""] => destruct (String.eqb a "") eqn:?
           end;
    simpl; repeat split; congruence.
Qed.

(** C10. jws [EssentialHeader.Construct], for every map [m], every receiver
    [h0] and whatever the getters of [emap.Hmap] return: it returns no
    error; it assigns [Critical] (and [X509CertChain]) only when the
    extraction of "crit" (of "x5c") returned an error, and then assigns what
    the extraction returned next to the error, so that a list extracted
    without error is never stored and the field stays as the receiver had it
    (nil for a new header); when the extraction of "alg" fails (absent or
    not a string) the algorithm of a new header becomes [NoSignature], as it
    does for an empty "alg"; the other string fields take whatever their
    extraction returned, error or not; the two URLs stay as they were when
    their extraction fails. *)
Theorem Construct_assigns_crit_x5c_only_on_error
  GetString GetStringSlice url_Parse (h0 : jws.EssentialHeader)
  (m : gmap string value) :
  let r := jws.EssentialHeader_Construct GetString GetStringSlice url_Parse h0 m in
  let h := fst r in
  snd r = None
  /\ (forall l, GetStringSlice m "crit" = (l, None) ->
                jws.Critical h = jws.Critical h0)
  /\ (forall v e, GetStringSlice m "crit" = (v, Some e) -> jws.Critical h = v)
  /\ (forall l, GetStringSlice m "x5c" = (l, None) ->
                jws.X509CertChain h = jws.X509CertChain h0)
  /\ (forall v e, GetStringSlice m "x5c" = (v, Some e) ->
                  jws.X509CertChain h = v)
  /\ (forall a e, GetString m "alg" = (a, Some e) -> jws.Algorithm h0 = "" ->
                  jws.Algorithm h = jwa.NoSignature)
  /\ (forall a, GetString m "alg" = (a, None) ->
                jws.Algorithm h = if String.eqb a "" then jwa.NoSignature else a)
  /\ jws.ContentType h = fst (GetString m "cty")
  /\ jws.KeyID h = fst (GetString m "kid")
  /\ jws.Type' h = fst (GetString m "typ")
  /\ jws.X509CertThumbprint h = fst (GetString m "x5t")
  /\ jws.X509CertThumbprintS256 h = fst (GetString m "x5t#256")
  /\ (forall v e, GetString m "jku" = (v, Some e) ->
                  jws.JwkSetURL h = jws.JwkSetURL h0)
  /\ (forall v e, GetString m "x5u" = (v, Some e) ->
                  jws.X509Url h = jws.X509Url h0).
Proof.
  intros r h.
  destruct (jws_Construct_fields GetString GetStringSlice url_Parse h0 m)
    as (Herr & Hcrit & Hx5c & Halg & Hcty & Hkid & Htyp & Hx5t & Hs256
        & Hjku & Hx5u & _).
  fold r h in Herr, Hcrit, Hx5c, Halg, Hcty, Hkid, Htyp, Hx5t, Hs256, Hjku, Hx5u.
  split_and!; try assumption.
  - intros l H. by rewrite Hcrit, H.
  - intros v e H. by rewrite Hcrit, H.
  - intros l H. by rewrite Hx5c, H.
  - intros v e H. by rewrite Hx5c, H.
  - intros a e H H0. by rewrite Halg, H, H0.
  - intros a H. by rewrite Halg, H.
  - intros v e H. by rewrite Hjku, H.
  - intros v e H. by rewrite Hx5u, H.
Qed.

Lemma Construct_assigns_crit_x5c_only_on_error_witness :
  sample_GetStringSlice sample.with_lists "crit" = (Some ["exp"], None)
  /\ sample_GetStringSlice sample.with_lists "x5c" = (Some ["MIIB"], None)
  /\ sample_GetString sample.with_lists "alg" = ("", Some "hmap: no such string")
  /\ jws.EssentialHeader_Construct sample_GetString sample_GetStringSlice
       sample_url_Parse jws.zero sample.with_lists
     = (jws.set_KeyID "k1" (jws.set_Algorithm jwa.NoSignature jws.zero), None)
  /\ jws.Critical
       (fst (jws.EssentialHeader_Construct sample_GetString
               sample_GetStringSlice sample_url_Parse jws.zero
               sample.with_lists))
     = None
  /\ jws.Algorithm
       (fst (jws.EssentialHeader_Construct sample_GetString
               sample_GetStringSlice sample_url_Parse jws.zero
               sample.with_lists))
     = jwa.NoSignature.
Proof.
  pose proof (Construct_assigns_crit_x5c_only_on_error sample_GetString
                sample_GetStringSlice sample_url_Parse jws.zero
                sample.with_lists) as (_ & Hcrit & _ & _ & _ & Halg & _).
  split_and!; [reflexivity..| |].
  - exact (Hcrit (Some ["exp"]) eq_refl).
  - exact (Halg "" "hmap: no such string" eq_refl eq_refl).
Defined.

(** ** Claims on the encoded header *)

(** jws: what [EncodedHeader.MarshalJSON] returns for a header at a known
    address. [Source] does not occur on the right. *)
Lemma jws_EncodedHeader_MarshalJSON_run J E (s : list jws.Header) l o src :
  s !! l = Some o ->
  jws.EncodedHeader_MarshalJSON J E (jws.mkEncodedHeader (Some l) src) s
  = Done (match jws.MergeMarshal E (jws.Essential o) (jws.PrivateParams o) with
          | (_, Some err) => ("", Some err)
          | (js, None) => Marshal_string J (fst (buffer.Base64Encode js))
          end) s.
Proof.
  intros H.
  unfold jws.EncodedHeader_MarshalJSON, jws.json_Marshal_Header,
    jws.Header_MarshalJSON, bind, deref, ret.
  simpl. rewrite H.
  by destruct (jws.MergeMarshal E _ _) as [js [err|]].
Qed.

Lemma jwe_EncodedHeader_MarshalJSON_run J E (s : list jwe.Header) l o src :
  s !! l = Some o ->
  jwe.EncodedHeader_MarshalJSON J E (jwe.mkEncodedHeader (Some l) src) s
  = Done (match jwe.MergeMarshal E (jwe.Essential o) (jwe.PrivateParams o) with
          | (_, Some err) => ("", Some err)
          | (js, None) => Marshal_string J (fst (buffer.Base64Encode js))
          end) s.
Proof.
  intros H.
  unfold jwe.EncodedHeader_MarshalJSON, jwe.EncodedHeader_Base64Encode,
    jwe.json_Marshal_Header, jwe.Header_MarshalJSON, bind, deref, ret.
  simpl. rewrite H.
  by destruct (jwe.MergeMarshal E _ _) as [js [err|]].
Qed.

(** jws: whatever [EncodedHeader.MarshalJSON] returns without error is the
    JSON string of the base64url text of [null], for a nil header, or of the
    marshaled header; the store is not written. *)
Lemma jws_EncodedHeader_MarshalJSON_result J E e (s s' : list jws.Header) out :
  jws.EncodedHeader_MarshalJSON J E e s = Done (out, None) s' ->
  s' = s
  /\ ((jws.Header_of e = None
       /\ Marshal_string J (fst (buffer.Base64Encode "null")) = (out, None))
      \/ exists l o js,
          jws.Header_of e = Some l /\ s !! l = Some o
          /\ jws.MergeMarshal E (jws.Essential o) (jws.PrivateParams o)
             = (js, None)
          /\ Marshal_string J (fst (buffer.Base64Encode js)) = (out, None)).
Proof.
  destruct e as [[l|] src].
  - destruct (s !! l) as [o|] eqn:Hl.
    + rewrite (jws_EncodedHeader_MarshalJSON_run J E s l o src Hl).
      destruct (jws.MergeMarshal E _ _) as [js [err|]] eqn:Hm; intros H.
      * discriminate.
      * injection H as H1 H2. subst s'. split; [done|]. right.
        exists l, o, js. by split_and!.
    + intros H. exfalso. revert H.
      unfold jws.EncodedHeader_MarshalJSON, jws.json_Marshal_Header, bind, deref.
      simpl. by rewrite Hl.
  - intros H. revert H.
    unfold jws.EncodedHeader_MarshalJSON, jws.json_Marshal_Header, bind, ret.
    simpl. intros H. injection H as H1 H2. subst s'. split; [done|]. by left.
Qed.

(** jwe: whatever [EncodedHeader.MarshalJSON] returns without error is the
    JSON string of the base64url text of [null], for a nil header, or of the
    marshaled header; the store is not written. *)
Lemma jwe_EncodedHeader_MarshalJSON_result J E e (s s' : list jwe.Header) out :
  jwe.EncodedHeader_MarshalJSON J E e s = Done (out, None) s' ->
  s' = s
  /\ ((jwe.Header_of e = None
       /\ Marshal_string J (fst (buffer.Base64Encode "null")) = (out, None))
      \/ exists l o js,
          jwe.Header_of e = Some l /\ s !! l = Some o
          /\ jwe.MergeMarshal E (jwe.Essential o) (jwe.PrivateParams o)
             = (js, None)
          /\ Marshal_string J (fst (buffer.Base64Encode js)) = (out, None)).
Proof.
  destruct e as [[l|] src].
  - destruct (s !! l) as [o|] eqn:Hl.
    + rewrite (jwe_EncodedHeader_MarshalJSON_run J E s l o src Hl).
      destruct (jwe.MergeMarshal E _ _) as [js [err|]] eqn:Hm; intros H.
      * discriminate.
      * injection H as H1 H2. subst s'. split; [done|]. right.
        exists l, o, js. by split_and!.
    + intros H. exfalso. revert H.
      unfold jwe.EncodedHeader_MarshalJSON, jwe.EncodedHeader_Base64Encode, jwe.json_Marshal_Header, bind, deref.
      simpl. by rewrite Hl.
  - intros H. revert H.
    unfold jwe.EncodedHeader_MarshalJSON, jwe.EncodedHeader_Base64Encode, jwe.json_Marshal_Header, bind, ret.
    simpl. intros H. injection H as H1 H2. subst s'. split; [done|]. by left.
Qed.

(** X25. jwe: [EncodedHeader.UnmarshalJSON] has no assignment to [Source]:
    whenever it returns, [Source] is what it was. *)
Lemma jwe_EncodedHeader_UnmarshalJSON_keeps_Source J E url_Parse e buf
  (s : list jwe.Header) :
  match jwe.EncodedHeader_UnmarshalJSON J E url_Parse e buf s with
  | Done (e', _) _ => jwe.Source e' = jwe.Source e
  | Panic => True
  end.
Proof.
  unfold jwe.EncodedHeader_UnmarshalJSON.
  destruct (Unmarshal_Buffer J buf) as [b [err|]]; [reflexivity|].
  unfold bind.
  destruct (jwe.json_Unmarshal_Header J E url_Parse b _ s)
    as [[h [err|]] s'|]; reflexivity.
Qed.

(** C1, as the code has it. Decoding: jws [EncodedHeader.UnmarshalJSON], when
    it succeeds, stores the bytes decoded from the wire text as [Source]
    (and leaves [Source] as it was when it fails). Encoding: in both
    packages [EncodedHeader.MarshalJSON] never reads [Source]; for a header
    at an address it returns the JSON string of the base64url text of the
    marshaled header, whatever [Source] holds. Hence re-encoding a parsed
    header returns the wire text only when that text is the one marshaling
    produces (last part, for jws, which is where [Source] is stored). *)
Theorem EncodedHeader_encode_marshals_whatever_Source (J : encoding_json) :
  (forall (E : jws.emap_pkg) e buf (s : list jws.Header),
      match jws.EncodedHeader_UnmarshalJSON J E e buf s with
      | Done (e', None) _ => jws.Source e' = fst (Unmarshal_Buffer J buf)
      | Done (e', Some _) _ => jws.Source e' = jws.Source e
      | Panic => True
      end)
  /\ (forall (E : jws.emap_pkg) h src src' (s : list jws.Header),
         jws.EncodedHeader_MarshalJSON J E (jws.mkEncodedHeader h src) s
         = jws.EncodedHeader_MarshalJSON J E (jws.mkEncodedHeader h src') s)
  /\ (forall (E : jwe.json_pkg) h src src' (s : list jwe.Header),
         jwe.EncodedHeader_MarshalJSON J E (jwe.mkEncodedHeader h src) s
         = jwe.EncodedHeader_MarshalJSON J E (jwe.mkEncodedHeader h src') s)
  /\ (forall (E : jws.emap_pkg) (s : list jws.Header) l o src,
         s !! l = Some o ->
         jws.EncodedHeader_MarshalJSON J E (jws.mkEncodedHeader (Some l) src) s
         = Done (match jws.MergeMarshal E (jws.Essential o)
                         (jws.PrivateParams o) with
                 | (_, Some err) => ("", Some err)
                 | (js, None) => Marshal_string J (fst (buffer.Base64Encode js))
                 end) s)
  /\ (forall (E : jwe.json_pkg) (s : list jwe.Header) l o src,
         s !! l = Some o ->
         jwe.EncodedHeader_MarshalJSON J E (jwe.mkEncodedHeader (Some l) src) s
         = Done (match jwe.MergeMarshal E (jwe.Essential o)
                         (jwe.PrivateParams o) with
                 | (_, Some err) => ("", Some err)
                 | (js, None) => Marshal_string J (fst (buffer.Base64Encode js))
                 end) s)
  /\ (forall (E : jws.emap_pkg) e0 B (s s1 s2 : list jws.Header) e,
         jws.EncodedHeader_UnmarshalJSON J E e0 B s = Done (e, None) s1 ->
         jws.EncodedHeader_MarshalJSON J E e s1 = Done (B, None) s2 ->
         (jws.Header_of e = None
          /\ Marshal_string J (fst (buffer.Base64Encode "null")) = (B, None))
         \/ exists l o js,
             jws.Header_of e = Some l /\ s1 !! l = Some o
             /\ jws.MergeMarshal E (jws.Essential o) (jws.PrivateParams o)
                = (js, None)
             /\ Marshal_string J (fst (buffer.Base64Encode js)) = (B, None)).
Proof.
  split_and!;
    [| | | | |intros E e0 B s s1 s2 e _ H;
              exact (proj2 (jws_EncodedHeader_MarshalJSON_result _ _ _ _ _ _ H))].
  - intros E e buf s. unfold jws.EncodedHeader_UnmarshalJSON.
    destruct (Unmarshal_Buffer J buf) as [b [err|]]; [reflexivity|].
    unfold bind.
    destruct (jws.json_Unmarshal_Header J E b _ s) as [[h [err|]] s'|];
      reflexivity.
  - reflexivity.
  - reflexivity.
  - intros. by apply jws_EncodedHeader_MarshalJSON_run.
  - intros. by apply jwe_EncodedHeader_MarshalJSON_run.
Qed.

Lemma EncodedHeader_encode_marshals_whatever_Source_witness :
  [sample.jws_HS256] !! 0 = Some sample.jws_HS256
  /\ jws.EncodedHeader_MarshalJSON minijson.json minijson.jws_emap
       (jws.mkEncodedHeader (Some 0) "any bytes") [sample.jws_HS256]
     = Done (minijson.quote "eyJhbGciOiJIUzI1NiJ9", None) [sample.jws_HS256].
Proof.
  split; [reflexivity|].
  exact (proj1 (proj2 (proj2 (proj2
           (EncodedHeader_encode_marshals_whatever_Source minijson.json))))
           minijson.jws_emap [sample.jws_HS256] 0 sample.jws_HS256
           "any bytes" eq_refl).
Defined.

(** C1 as stated fails: a wire text whose JSON has a space after the opening
    brace, and one whose keys are in another order than marshaling puts them
    (their base64url texts decode to the object with the member alg = HS256,
    and to the one with the members kid = k1 and alg = HS256 in this order),
    both parse without error and with [Source] set to the decoded bytes, and
    re-encode to another text. *)
Lemma EncodedHeader_reencode_differs :
  (exists e s out,
      jws.EncodedHeader_UnmarshalJSON minijson.json minijson.jws_emap
        (jws.mkEncodedHeader None "") sample.wire_spaced []
      = Done (e, None) s
      /\ Some (jws.Source e) = buffer.Base64Decode "eyAiYWxnIjoiSFMyNTYifQ"
      /\ String.length (jws.Source e) = 16
      /\ jws.EncodedHeader_MarshalJSON minijson.json minijson.jws_emap e s
         = Done (out, None) s
      /\ out = minijson.quote "eyJhbGciOiJIUzI1NiJ9"
      /\ out <> sample.wire_spaced)
  /\ (exists e s out,
         jws.EncodedHeader_UnmarshalJSON minijson.json minijson.jws_emap
           (jws.mkEncodedHeader None "") sample.wire_kid_first []
         = Done (e, None) s
         /\ Some (jws.Source e)
            = buffer.Base64Decode "eyJraWQiOiJrMSIsImFsZyI6IkhTMjU2In0"
         /\ String.length (jws.Source e) = 26
         /\ jws.EncodedHeader_MarshalJSON minijson.json minijson.jws_emap e s
            = Done (out, None) s
         /\ out = minijson.quote "eyJhbGciOiJIUzI1NiIsImtpZCI6ImsxIn0"
         /\ out <> sample.wire_kid_first).
Proof.
  split; do 3 eexists; (split; [vm_compute; reflexivity|]);
    repeat split; try (vm_compute; reflexivity); vm_compute; discriminate.
Qed.

(** What does hold of the round trip: a wire text that is the marshaled form
    of its header comes back as it was. *)
Lemma EncodedHeader_reencode_marshaled_form :
  exists e s,
    jws.EncodedHeader_UnmarshalJSON minijson.json minijson.jws_emap
      (jws.mkEncodedHeader None "")
      (minijson.quote "eyJhbGciOiJIUzI1NiIsImtpZCI6ImsxIn0") []
    = Done (e, None) s
    /\ jws.EncodedHeader_MarshalJSON minijson.json minijson.jws_emap e s
       = Done (minijson.quote "eyJhbGciOiJIUzI1NiIsImtpZCI6ImsxIn0", None) s.
Proof. do 2 eexists. split; vm_compute; reflexivity. Qed.

(** ** Decrypt *)

(** One pass through the loop body for a recipient whose header and the base
    header are at known addresses: the guard reads the recipient's own
    algorithm; past the guard, two headers are allocated, a copy of the base
    header and its merge with the recipient's, and the merge is what the key
    decrypter is built from. *)
Lemma jwe_try_recipient_run C alg key lh cipher iv ct tag aad pt lr ek
  (s : list jwe.Header) ho rh :
  s !! lh = Some ho -> s !! lr = Some rh ->
  jwe.try_recipient C alg key (Some lh) cipher iv ct tag aad pt
    (jwe.mkRecipient (Some lr) ek) s
  = if negb (String.eqb (jwe.Algorithm (jwe.Essential rh)) alg)
    then Done (jwe.Continue jwe.AlgorithmDiffers pt) s
    else
      let c := jwe.mkHeader (jwe.Essential ho) (jwe.PrivateParams ho) in
      let h2 := jwe.mkHeader
                  (jwe.EssentialHeader_Merge (jwe.Essential ho) (jwe.Essential rh))
                  (jwe.PrivateParams rh ∪ jwe.PrivateParams ho) in
      Done
        match jwe.BuildKeyDecrypter C (jwe.Algorithm (jwe.Essential h2)) h2 key
                (jwe.KeySize cipher) with
        | inr _ => jwe.Continue jwe.NoKeyDecrypter pt
        | inl k =>
            match jwe.KeyDecrypt k ek with
            | (_, Some _) => jwe.Return "failed to decrypt key"
            | (cek, None) =>
                match jwe.decrypt cipher cek iv ct tag aad with
                | (pt', None) => jwe.Break pt'
                | (pt', Some _) => jwe.Continue jwe.ContentDecryptFailed pt'
                end
            end
        end
        (s ++ [c; h2]).
Proof.
  intros Hh Hr. unfold jwe.try_recipient. simpl.
  rewrite (bind_Done _ _ _ _ _ (deref_Some _ _ _ Hr)).
  destruct (negb _); [reflexivity|].
  unfold jwe.NewHeader. rewrite (bind_Done _ _ _ _ _ (alloc_run _ _)).
  set (h0 := jwe.mkHeader jwe.zero ∅).
  rewrite (bind_Done _ _ _ _ _
             (jwe_Header_Copy_run _ _ _ _ _ (lookup_alloc s h0)
                (lookup_alloc_old s h0 _ _ Hh))).
  rewrite insert_alloc_last, jwe_Copy_all_fields. simpl.
  rewrite (right_id_L ∅ (∪)).
  set (c := jwe.mkHeader _ _).
  rewrite (bind_Done _ _ _ _ _
             (jwe_Header_Merge_run _ _ _ _ _ (lookup_alloc s c)
                (lookup_alloc_old s c _ _ Hr))).
  rewrite jwe_Copy_all_fields. simpl.
  set (h2 := jwe.mkHeader _ _).
  assert (H2 : (s ++ [c] ++ [h2]) !! length (s ++ [c]) = Some h2).
  { rewrite (assoc_L (++)). apply lookup_alloc. }
  rewrite <- (assoc_L (++)).
  rewrite (bind_Done _ _ _ _ _ (deref_Some _ _ _ H2)).
  destruct (jwe.BuildKeyDecrypter C _ _ _ _) as [k|e]; [|reflexivity].
  destruct (jwe.KeyDecrypt k ek) as [cek [e|]]; [reflexivity|].
  by destruct (jwe.decrypt cipher _ _ _ _ _) as [pt' [e|]].
Qed.

(** The loop only allocates: the store a pass, or the whole loop, ends with
    extends the store it started from, so that no header that existed
    before is written. *)
Lemma jwe_try_recipient_grows C alg key h cipher iv ct tag aad pt r
  (s s' : list jwe.Header) st :
  jwe.try_recipient C alg key h cipher iv ct tag aad pt r s = Done st s' ->
  exists k, s' = s ++ k.
Proof.
  destruct r as [[lr|] ek]; [|discriminate].
  destruct (s !! lr) as [rh|] eqn:Hr;
    [|unfold jwe.try_recipient, bind, deref; simpl; by rewrite Hr].
  destruct h as [lh|].
  - destruct (decide (lh < length s)) as [Hlt|Hge].
    + destruct (lookup_lt_is_Some_2 _ _ Hlt) as [ho Hh].
      rewrite (jwe_try_recipient_run C alg key lh cipher iv ct tag aad pt lr ek
                 s ho rh Hh Hr).
      destruct (negb _); intros H; inversion H; subst.
      * exists []. by rewrite app_nil_r.
      * by eexists.
    + unfold jwe.try_recipient. simpl.
      rewrite (bind_Done _ _ _ _ _ (deref_Some _ _ _ Hr)).
      destruct (negb _).
      { intros H; inversion H; subst. exists []. by rewrite app_nil_r. }
      unfold jwe.NewHeader. rewrite (bind_Done _ _ _ _ _ (alloc_run _ _)).
      set (h0 := jwe.mkHeader jwe.zero ∅).
      destruct (decide (lh = length s)) as [->|Hne].
      * rewrite (bind_Done _ _ _ _ _
                   (jwe_Header_Copy_run _ _ _ _ _ (lookup_alloc s h0)
                      (lookup_alloc s h0))).
        rewrite insert_alloc_last.
        set (c := jwe.mkHeader _ _).
        rewrite (bind_Done _ _ _ _ _
                   (jwe_Header_Merge_run _ _ _ _ _ (lookup_alloc s c)
                      (lookup_alloc_old s c _ _ Hr))).
        set (h2 := jwe.mkHeader _ _).
        assert (H2 : (s ++ [c] ++ [h2]) !! length (s ++ [c]) = Some h2).
        { rewrite (assoc_L (++)). apply lookup_alloc. }
        rewrite <- (assoc_L (++)).
        rewrite (bind_Done _ _ _ _ _ (deref_Some _ _ _ H2)).
        intros H. exists ([c] ++ [h2]).
        destruct (jwe.BuildKeyDecrypter C _ _ _ _) as [k|e];
          [|by inversion H].
        destruct (jwe.KeyDecrypt k ek) as [cek [e|]]; [by inversion H|].
        destruct (jwe.decrypt cipher _ _ _ _ _) as [pt' [e|]]; by inversion H.
      * assert (Hnone : (s ++ [h0]) !! lh = None).
        { apply lookup_ge_None. rewrite length_app. simpl. lia. }
        unfold jwe.Header_Copy, bind, deref. by rewrite Hnone.
  - unfold jwe.try_recipient. simpl.
    rewrite (bind_Done _ _ _ _ _ (deref_Some _ _ _ Hr)).
    destruct (negb _); intros H; inversion H; subst.
    + exists []. by rewrite app_nil_r.
    + by eexists.
Qed.

Lemma jwe_recipients_loop_grows C alg key h cipher iv ct tag aad rs :
  forall pt (s s' : list jwe.Header) r,
  jwe.recipients_loop C alg key h cipher iv ct tag aad pt rs s = Done r s' ->
  exists k, s' = s ++ k.
Proof.
  induction rs as [|rc rs IH]; intros pt s s' r H.
  - inversion H. exists []. by rewrite app_nil_r.
  - simpl in H. unfold bind in H.
    destruct (jwe.try_recipient C _ _ _ _ _ _ _ _ _ _ s) as [st s1|] eqn:Ht;
      [|discriminate].
    destruct (jwe_try_recipient_grows _ _ _ _ _ _ _ _ _ _ _ _ _ _ Ht) as [k1 ->].
    destruct st as [w pt1|pt1|e].
    + destruct (IH _ _ _ _ H) as [k2 ->]. exists (k1 ++ k2).
      by rewrite (assoc_L (++)).
    + inversion H; subst. by eexists.
    + inversion H; subst. by eexists.
Qed.

(** [Decrypt] for a message whose protected and unprotected headers are at
    known addresses. *)
Lemma jwe_Decrypt_run C m alg key (s : list jwe.Header) lp src lu po uo :
  jwe.Recipients m <> [] ->
  jwe.ProtectedHeader m = Some (jwe.mkEncodedHeader (Some lp) src) ->
  jwe.UnprotectedHeader m = Some lu ->
  s !! lp = Some po -> s !! lu = Some uo ->
  let c := jwe.mkHeader (jwe.Essential po) (jwe.PrivateParams po) in
  let h := jwe.mkHeader
             (jwe.EssentialHeader_Merge (jwe.Essential po) (jwe.Essential uo))
             (jwe.PrivateParams uo ∪ jwe.PrivateParams po) in
  jwe.Message_Decrypt C m alg key s
  = match jwe.BuildContentCipher C (jwe.ContentEncryption (jwe.Essential po)) with
    | inr _ =>
        Done ("", Some (String.append "unsupported content cipher algorithm '"
                          (String.append
                             (jwe.ContentEncryption (jwe.Essential po)) "'")))
          (s ++ [c; h])
    | inl cipher =>
        match jwe.recipients_loop C alg key (Some (S (length s))) cipher
                (jwe.InitializationVector m) (jwe.CipherText m) (jwe.Tag m)
                (fst (buffer.Base64Encode (jwe.AuthenticatedData m))) None
                (jwe.Recipients m) (s ++ [c; h]) with
        | Done (inr err) s2 => Done ("", Some err) s2
        | Done (inl None) s2 =>
            Done ("", Some "failed to find matching recipient to decrypt key") s2
        | Done (inl (Some plaintext)) s2 =>
            if String.eqb (jwe.Compression (jwe.Essential h)) jwa.Deflate
            then Done (match jwe.flate_Writer C 1 plaintext with
                       | (_, Some err) => ("", Some err)
                       | (output, None) => (output, None)
                       end) s2
            else Done (plaintext, None) s2
        | Panic => Panic
        end
    end.
Proof.
  intros Hrs Hp Hu Hpo Huo c h. unfold jwe.Message_Decrypt.
  assert (Hlen : Nat.eqb (length (jwe.Recipients m)) 0 = false)
    by (by destruct (jwe.Recipients m)).
  rewrite Hlen, Hp, Hu. simpl.
  rewrite (bind_Done _ _ _ _ _ (deref_Some _ _ _ Hpo)).
  unfold jwe.NewHeader. rewrite (bind_Done _ _ _ _ _ (alloc_run _ _)).
  set (h0 := jwe.mkHeader jwe.zero ∅).
  rewrite (bind_Done _ _ _ _ _
             (jwe_Header_Copy_run _ _ _ _ _ (lookup_alloc s h0)
                (lookup_alloc_old s h0 _ _ Hpo))).
  rewrite insert_alloc_last, jwe_Copy_all_fields. simpl.
  rewrite (right_id_L ∅ (∪)). fold c.
  rewrite (bind_Done _ _ _ _ _
             (jwe_Header_Merge_run _ _ _ _ _ (lookup_alloc s c)
                (lookup_alloc_old s c _ _ Huo))).
  rewrite jwe_Copy_all_fields. simpl. fold h.
  rewrite <- (assoc_L (++)). simpl.
  replace (length (s ++ [c])) with (S (length s))
    by (rewrite length_app; simpl; lia).
  destruct (jwe.BuildContentCipher C _) as [cipher|e]; [|reflexivity].
  unfold bind at 1.
  destruct (jwe.recipients_loop _ _ _ _ _ _ _ _ _ _ _ _)
    as [[[pt|]|err] s2|] eqn:Hloop; try reflexivity.
  destruct (jwe_recipients_loop_grows _ _ _ _ _ _ _ _ _ _ _ _ _ _ Hloop)
    as [k ->].
  assert (Hh : ((s ++ [c; h]) ++ k) !! S (length s) = Some h).
  { apply lookup_app_l_Some.
    replace (S (length s)) with (length (s ++ [c]))
      by (rewrite length_app; simpl; lia).
    change (s ++ [c; h]) with (s ++ [c] ++ [h]). rewrite (assoc_L (++)).
    apply lookup_alloc. }
  rewrite (bind_Done _ _ _ _ _ (deref_Some _ _ _ Hh)).
  destruct (String.eqb _ _); [|reflexivity].
  by destruct (jwe.flate_Writer C 1 pt) as [out [e|]].
Qed.

(** C5, as the code has it. The guard at the head of the loop body reads the
    algorithm of the recipient's own header: the pass ends at the guard's
    [continue] exactly when that algorithm differs from the one the caller
    gave, whatever the base header holds. The merged header is built only
    past the guard, for the key decrypter. *)
Theorem recipient_guard_reads_own_header C alg key h cipher iv ct tag aad pt
  lr ek (s : list jwe.Header) rh :
  s !! lr = Some rh ->
  (exists pt' s',
      jwe.try_recipient C alg key h cipher iv ct tag aad pt
        (jwe.mkRecipient (Some lr) ek) s
      = Done (jwe.Continue jwe.AlgorithmDiffers pt') s')
  <-> jwe.Algorithm (jwe.Essential rh) <> alg.
Proof.
  intros Hr. unfold jwe.try_recipient. simpl.
  rewrite (bind_Done _ _ _ _ _ (deref_Some _ _ _ Hr)).
  destruct (String.eqb_spec (jwe.Algorithm (jwe.Essential rh)) alg) as [Heq|Hne];
    simpl.
  - split; [|done]. intros (pt' & s' & H). exfalso.
    unfold bind in H.
    repeat match type of H with
           | context [match ?x with _ => _ end] => destruct x eqn:?
           end; discriminate.
  - split; [done|]. intros _. by exists pt, s.
Qed.

Lemma recipient_guard_reads_own_header_witness :
  sample.dir_store "A128GCM" "" !! 2 = Some sample.empty
  /\ ((exists pt' s',
          jwe.try_recipient (samplecrypto.crypto samplecrypto.mark) "dir"
            (VBytes "cek") (Some 0) samplecrypto.cipher "iv" "hello" "cek.aGRy"
            "aGRy" None (jwe.mkRecipient (Some 2) "")
            (sample.dir_store "A128GCM" "")
          = Done (jwe.Continue jwe.AlgorithmDiffers pt') s')
      <-> jwe.Algorithm (jwe.Essential sample.empty) <> "dir").
Proof.
  split; [reflexivity|].
  apply (recipient_guard_reads_own_header
           (samplecrypto.crypto samplecrypto.mark) "dir" (VBytes "cek") (Some 0)
           samplecrypto.cipher "iv" "hello" "cek.aGRy" "aGRy" None 2 ""
           (sample.dir_store "A128GCM" "") sample.empty).
  reflexivity.
Defined.

(** C5 as stated fails: the recipient's own header omits the algorithm, the
    protected header carries "dir", so the effective algorithm of the
    recipient is the caller's "dir"; the recipient is skipped all the same,
    and [Decrypt] finds no recipient, where it returns the plaintext once
    the recipient's header names "dir" itself. *)
Lemma recipient_with_merged_alg_is_skipped :
  (exists s', jwe.effective_Algorithm (Some 0) (Some 2)
                (sample.dir_store "A128GCM" "") = Done "dir" s')
  /\ jwe.try_recipient (samplecrypto.crypto samplecrypto.mark) "dir"
       (VBytes "cek") (Some 0) samplecrypto.cipher "iv" "hello" "cek.aGRy"
       "aGRy" None sample.recipient_plain (sample.dir_store "A128GCM" "")
     = Done (jwe.Continue jwe.AlgorithmDiffers None)
         (sample.dir_store "A128GCM" "")
  /\ (exists s',
         jwe.Message_Decrypt (samplecrypto.crypto samplecrypto.mark)
           (sample.message "" "hello" [sample.recipient_plain]) "dir"
           (VBytes "cek") (sample.dir_store "A128GCM" "")
         = Done ("", Some "failed to find matching recipient to decrypt key") s')
  /\ (exists s',
         jwe.Message_Decrypt (samplecrypto.crypto samplecrypto.mark)
           (sample.message "" "hello" [sample.recipient_plain]) "dir"
           (VBytes "cek") (sample.dir_store' "A128GCM" "")
         = Done ("hello", None) s').
Proof.
  split_and!; [eexists| |eexists|eexists]; vm_compute; reflexivity.
Qed.

(** C2, as the code has it. The additional data [Decrypt] hands to the
    content cipher are the base64url text of the message's
    [AuthenticatedData] buffer: the result is the one obtained with ciphers
    that are handed this text whatever they are called with. Neither the
    [Source] of the protected header nor any encoding of that header is
    read for it: the result does not depend on [Source]. *)
Theorem Decrypt_aad_is_AuthenticatedData C m alg key (s : list jwe.Header) :
  jwe.Message_Decrypt C m alg key s
  = jwe.Message_Decrypt
      (jwe.crypto_with_aad
         (fst (buffer.Base64Encode (jwe.AuthenticatedData m))) C)
      m alg key s
  /\ forall h src src',
      jwe.ProtectedHeader m = Some (jwe.mkEncodedHeader h src) ->
      jwe.Message_Decrypt C m alg key s
      = jwe.Message_Decrypt C
          (jwe.mkMessage (Some (jwe.mkEncodedHeader h src'))
             (jwe.UnprotectedHeader m) (jwe.AuthenticatedData m)
             (jwe.InitializationVector m) (jwe.CipherText m) (jwe.Tag m)
             (jwe.Recipients m))
          alg key s.
Proof.
  split.
  - unfold jwe.Message_Decrypt.
    destruct (Nat.eqb _ _); [reflexivity|].
    destruct (jwe.ProtectedHeader m) as [p|]; [|reflexivity].
    unfold bind.
    destruct (deref _ s) as [ph s1|]; [|reflexivity].
    destruct (jwe.NewHeader s1) as [h s2|]; [|reflexivity].
    destruct (jwe.Header_Copy _ _ s2) as [[e|] s3|]; try reflexivity.
    destruct (jwe.Header_Merge _ _ s3) as [[h' [e|]] s4|]; try reflexivity.
    simpl.
    destruct (jwe.BuildContentCipher C _) as [cipher|e]; reflexivity.
  - intros h src src' Hp. unfold jwe.Message_Decrypt. simpl.
    rewrite Hp. reflexivity.
Qed.

Lemma Decrypt_aad_is_AuthenticatedData_witness :
  jwe.ProtectedHeader
    (sample.message sample.protected_source "hello" [sample.recipient_plain])
  = Some (jwe.mkEncodedHeader (Some 0) sample.protected_source)
  /\ jwe.Message_Decrypt (samplecrypto.crypto samplecrypto.mark)
       (sample.message sample.protected_source "hello" [sample.recipient_plain])
       "dir" (VBytes "cek") (sample.dir_store' "PROBE" "")
     = jwe.Message_Decrypt (samplecrypto.crypto samplecrypto.mark)
         (sample.message "" "hello" [sample.recipient_plain])
         "dir" (VBytes "cek") (sample.dir_store' "PROBE" "").
Proof.
  split; [reflexivity|].
  apply (proj2 (Decrypt_aad_is_AuthenticatedData
                  (samplecrypto.crypto samplecrypto.mark)
                  (sample.message sample.protected_source "hello"
                     [sample.recipient_plain])
                  "dir" (VBytes "cek") (sample.dir_store' "PROBE" ""))
           (Some 0) sample.protected_source "").
  reflexivity.
Defined.

(** C2 as stated fails: for a message whose protected header came from the
    wire bytes [sample.protected_source] and whose [AuthenticatedData] are
    the bytes [hdr], the cipher, which here gives out the additional data it
    was handed, is handed the base64url text of [hdr], not that of the
    protected header's wire bytes. *)
Lemma Decrypt_aad_differs_from_protected_header :
  (exists s',
      jwe.Message_Decrypt (samplecrypto.crypto samplecrypto.mark)
        (sample.message sample.protected_source "hello" [sample.recipient_plain])
        "dir" (VBytes "cek") (sample.dir_store' "PROBE" "")
      = Done ("aGRy", None) s')
  /\ buffer.Base64Encode "hdr" = ("aGRy", None)
  /\ buffer.Base64Encode sample.protected_source = ("eyJlbmMiOiJQUk9CRSJ9", None)
  /\ fst (buffer.Base64Encode sample.protected_source) <> "aGRy".
Proof.
  split_and!; try (vm_compute; reflexivity).
  - eexists; vm_compute; reflexivity.
  - vm_compute; discriminate.
Qed.

(** When [KeyDecrypt] returns an error for a recipient that passed the guard
    and got a key decrypter, the loop is left at once with the error
    "failed to decrypt key", whatever recipients follow. *)
Lemma jwe_loop_returns_on_KeyDecrypt_failure C alg key lh cipher iv ct tag aad
  pt lr ek rest (s : list jwe.Header) ho rh k junk e :
  s !! lh = Some ho -> s !! lr = Some rh ->
  jwe.Algorithm (jwe.Essential rh) = alg ->
  let h2 := jwe.mkHeader
              (jwe.EssentialHeader_Merge (jwe.Essential ho) (jwe.Essential rh))
              (jwe.PrivateParams rh ∪ jwe.PrivateParams ho) in
  jwe.BuildKeyDecrypter C (jwe.Algorithm (jwe.Essential h2)) h2 key
    (jwe.KeySize cipher) = inl k ->
  jwe.KeyDecrypt k ek = (junk, Some e) ->
  jwe.recipients_loop C alg key (Some lh) cipher iv ct tag aad pt
    (jwe.mkRecipient (Some lr) ek :: rest) s
  = Done (inr "failed to decrypt key")
      (s ++ [jwe.mkHeader (jwe.Essential ho) (jwe.PrivateParams ho); h2]).
Proof.
  intros Hh Hr Halg h2 Hk He. simpl.
  unfold bind.
  rewrite (jwe_try_recipient_run C alg key lh cipher iv ct tag aad pt lr ek
             s ho rh Hh Hr).
  rewrite Halg, String.eqb_refl. subst h2. simpl in Hk |- *. by rewrite Hk, He.
Qed.

(** C3. The claim, that a recipient whose wrapped key fails to decrypt is
    skipped and the loop goes on to the next recipient, fails. For a message
    whose content cipher is known and whose first recipient carries the
    caller's algorithm: when a key decrypter is built for that recipient and
    its [KeyDecrypt] returns an error, [Decrypt] returns the error "failed
    to decrypt key" (the [return] before the unreachable [continue]),
    whatever recipients follow and whether or not one of them would
    decrypt. *)
Theorem Decrypt_returns_on_KeyDecrypt_failure C m alg key
  (s : list jwe.Header) lp src lu po uo cipher lr ek rest rh k junk e :
  jwe.ProtectedHeader m = Some (jwe.mkEncodedHeader (Some lp) src) ->
  jwe.UnprotectedHeader m = Some lu ->
  jwe.Recipients m = jwe.mkRecipient (Some lr) ek :: rest ->
  s !! lp = Some po -> s !! lu = Some uo -> s !! lr = Some rh ->
  jwe.BuildContentCipher C (jwe.ContentEncryption (jwe.Essential po))
  = inl cipher ->
  jwe.Algorithm (jwe.Essential rh) = alg ->
  let h := jwe.EssentialHeader_Merge (jwe.Essential po) (jwe.Essential uo) in
  let h2 := jwe.mkHeader
              (jwe.EssentialHeader_Merge h (jwe.Essential rh))
              (jwe.PrivateParams rh
               ∪ (jwe.PrivateParams uo ∪ jwe.PrivateParams po)) in
  jwe.BuildKeyDecrypter C (jwe.Algorithm (jwe.Essential h2)) h2 key
    (jwe.KeySize cipher) = inl k ->
  jwe.KeyDecrypt k ek = (junk, Some e) ->
  exists s',
    jwe.Message_Decrypt C m alg key s
    = Done ("", Some "failed to decrypt key") s'.
Proof.
  intros Hp Hu Hrs Hpo Huo Hr Hc Halg h h2 Hk He.
  assert (Hne : jwe.Recipients m <> []) by (by rewrite Hrs).
  rewrite (jwe_Decrypt_run C m alg key s lp src lu po uo Hne Hp Hu Hpo Huo).
  rewrite Hc, Hrs.
  set (c := jwe.mkHeader (jwe.Essential po) (jwe.PrivateParams po)).
  set (hm := jwe.mkHeader h (jwe.PrivateParams uo ∪ jwe.PrivateParams po)).
  assert (Hh : (s ++ [c; hm]) !! S (length s) = Some hm).
  { replace (S (length s)) with (length (s ++ [c]))
      by (rewrite length_app; simpl; lia).
    change (s ++ [c; hm]) with (s ++ [c] ++ [hm]). rewrite (assoc_L (++)).
    apply lookup_alloc. }
  assert (Hr' : (s ++ [c; hm]) !! lr = Some rh) by (by apply lookup_app_l_Some).
  rewrite (jwe_loop_returns_on_KeyDecrypt_failure C alg key (S (length s))
             cipher _ _ _ _ None lr ek rest _ hm rh k junk e Hh Hr' Halg Hk He).
  by eexists.
Qed.

Lemma Decrypt_returns_on_KeyDecrypt_failure_witness :
  exists s',
    jwe.Message_Decrypt (samplecrypto.crypto samplecrypto.mark)
      (sample.message "" "hello" [sample.recipient_K1; sample.recipient_K2])
      "wrap" (VBytes "K2") sample.wrap_store
    = Done ("", Some "failed to decrypt key") s'.
Proof.
  eapply (Decrypt_returns_on_KeyDecrypt_failure
            (samplecrypto.crypto samplecrypto.mark)
            (sample.message "" "hello" [sample.recipient_K1; sample.recipient_K2])
            "wrap" (VBytes "K2") sample.wrap_store 0 "" 1
            (sample.protected "" "A128GCM" "") sample.empty samplecrypto.cipher
            2 "K1cek" [sample.recipient_K2] (sample.only_alg "wrap"));
    reflexivity.
Defined.

(** The same at the level of [Decrypt]: with the recipient wrapped under
    another key first, the call fails; with the recipients in the other
    order, or the matching one alone, it returns the plaintext. *)
Lemma Decrypt_fails_when_first_wrapped_key_fails :
  (exists s',
      jwe.Message_Decrypt (samplecrypto.crypto samplecrypto.mark)
        (sample.message "" "hello" [sample.recipient_K1; sample.recipient_K2])
        "wrap" (VBytes "K2") sample.wrap_store
      = Done ("", Some "failed to decrypt key") s')
  /\ (exists s',
         jwe.Message_Decrypt (samplecrypto.crypto samplecrypto.mark)
           (sample.message "" "hello" [sample.recipient_K2; sample.recipient_K1])
           "wrap" (VBytes "K2") sample.wrap_store
         = Done ("hello", None) s')
  /\ (exists s',
         jwe.Message_Decrypt (samplecrypto.crypto samplecrypto.mark)
           (sample.message "" "hello" [sample.recipient_K2])
           "wrap" (VBytes "K2") sample.wrap_store
         = Done ("hello", None) s').
Proof. split_and!; eexists; vm_compute; reflexivity. Qed.

(** What does hold of the loop: a recipient for which no key decrypter can be
    built is passed over. *)
Lemma loop_continues_without_key_decrypter C alg key lh cipher iv ct tag aad pt
  lr ek rest (s : list jwe.Header) ho rh e :
  s !! lh = Some ho -> s !! lr = Some rh ->
  jwe.Algorithm (jwe.Essential rh) = alg ->
  let h2 := jwe.mkHeader
              (jwe.EssentialHeader_Merge (jwe.Essential ho) (jwe.Essential rh))
              (jwe.PrivateParams rh ∪ jwe.PrivateParams ho) in
  jwe.BuildKeyDecrypter C (jwe.Algorithm (jwe.Essential h2)) h2 key
    (jwe.KeySize cipher) = inr e ->
  jwe.recipients_loop C alg key (Some lh) cipher iv ct tag aad pt
    (jwe.mkRecipient (Some lr) ek :: rest) s
  = jwe.recipients_loop C alg key (Some lh) cipher iv ct tag aad pt rest
      (s ++ [jwe.mkHeader (jwe.Essential ho) (jwe.PrivateParams ho); h2]).
Proof.
  intros Hh Hr Halg h2 Hk. simpl.
  unfold bind.
  rewrite (jwe_try_recipient_run C alg key lh cipher iv ct tag aad pt lr ek
             s ho rh Hh Hr).
  rewrite Halg, String.eqb_refl. subst h2. simpl in Hk |- *. by rewrite Hk.
Qed.

(** C4. The claim, that [Decrypt] returns the inflation of the recovered
    plaintext when the effective header's compression is Deflate, fails:
    the code builds [flate.NewWriter(&output, 1)], writes the recovered
    plaintext to it, closes it and returns what the writer put out, the
    deflation of the plaintext at level 1. For every message whose loop ends
    with a plaintext [pt] and whose merged protected and unprotected header
    has the compression Deflate, [Decrypt] returns the output of the writer
    for [pt] (or the writer's error). *)
Theorem Decrypt_Deflate_runs_flate_Writer C m alg key (s : list jwe.Header)
  lp src lu po uo cipher pt s2 :
  jwe.ProtectedHeader m = Some (jwe.mkEncodedHeader (Some lp) src) ->
  jwe.UnprotectedHeader m = Some lu ->
  s !! lp = Some po -> s !! lu = Some uo ->
  jwe.BuildContentCipher C (jwe.ContentEncryption (jwe.Essential po))
  = inl cipher ->
  let c := jwe.mkHeader (jwe.Essential po) (jwe.PrivateParams po) in
  let h := jwe.mkHeader
             (jwe.EssentialHeader_Merge (jwe.Essential po) (jwe.Essential uo))
             (jwe.PrivateParams uo ∪ jwe.PrivateParams po) in
  jwe.recipients_loop C alg key (Some (S (length s))) cipher
    (jwe.InitializationVector m) (jwe.CipherText m) (jwe.Tag m)
    (fst (buffer.Base64Encode (jwe.AuthenticatedData m))) None
    (jwe.Recipients m) (s ++ [c; h])
  = Done (inl (Some pt)) s2 ->
  jwe.Compression (jwe.Essential h) = jwa.Deflate ->
  jwe.Message_Decrypt C m alg key s
  = Done (match jwe.flate_Writer C 1 pt with
          | (_, Some err) => ("", Some err)
          | (output, None) => (output, None)
          end) s2.
Proof.
  intros Hp Hu Hpo Huo Hc c h Hloop Hzip.
  assert (Hne : jwe.Recipients m <> []).
  { intros Hnil. rewrite Hnil in Hloop. discriminate. }
  rewrite (jwe_Decrypt_run C m alg key s lp src lu po uo Hne Hp Hu Hpo Huo).
  rewrite Hc. fold c h. rewrite Hloop, Hzip. reflexivity.
Qed.

Lemma Decrypt_Deflate_runs_flate_Writer_witness :
  exists s2,
    jwe.Message_Decrypt (samplecrypto.crypto samplecrypto.mark)
      (sample.message "" "hello" [sample.recipient_plain]) "dir" (VBytes "cek")
      (sample.dir_store' "A128GCM" jwa.Deflate)
    = Done ("deflate:hello", None) s2.
Proof.
  eexists.
  eapply (Decrypt_Deflate_runs_flate_Writer
            (samplecrypto.crypto samplecrypto.mark)
            (sample.message "" "hello" [sample.recipient_plain]) "dir"
            (VBytes "cek") (sample.dir_store' "A128GCM" jwa.Deflate) 0 "" 1
            (sample.protected "" "A128GCM" jwa.Deflate) sample.empty
            samplecrypto.cipher "hello");
    reflexivity.
Defined.

(** The same on the sample message for every writer [w] and every plaintext
    [ct] (the sample cipher gives out the ciphertext): what comes back is
    the writer's output for [ct]. *)
Lemma Decrypt_Deflate_sample (w : nat -> Buffer -> Buffer * option error)
  (ct : Buffer) :
  exists s',
    jwe.Message_Decrypt (samplecrypto.crypto w)
      (sample.message "" ct [sample.recipient_plain]) "dir" (VBytes "cek")
      (sample.dir_store' "A128GCM" jwa.Deflate)
    = Done (match w 1 ct with
            | (_, Some err) => ("", Some err)
            | (output, None) => (output, None)
            end) s'.
Proof.
  eexists. vm_compute. destruct (w 1 ct) as [out [err|]]; reflexivity.
Qed.

(** * Further properties *)

(** ** Header.Set and Header.Get *)

Ltac label_in Hin H :=
  repeat (apply elem_of_cons in Hin as [->|Hin]; [by vm_compute in H|]);
  by apply elem_of_nil in Hin.

Ltac label_out key Hn :=
  repeat match goal with
         | |- context [String.eqb key ?l] =>
             destruct (String.eqb_spec key l) as [->|_];
             [exfalso; apply Hn; by apply (bool_decide_unpack _)|]
         end.

(** The [default] branch of [Set] is taken exactly for the keys that are no
    [case] label. *)
Lemma jws_switch_default key :
  jws.switch_key key = jws.K_default <-> key ∉ jws_labels.
Proof.
  split.
  - intros H Hin. unfold jws_labels in Hin. label_in Hin H.
  - intros Hn. unfold jws.switch_key. label_out key Hn. reflexivity.
Qed.

Lemma jwe_switch_default key :
  jwe.switch_key key = jwe.K_default <-> key ∉ jwe_labels.
Proof.
  split.
  - intros H Hin. unfold jwe_labels in Hin. label_in Hin H.
  - intros Hn. unfold jwe.switch_key. label_out key Hn. reflexivity.
Qed.

(** [Get] lists the labels of [Set] in another order. *)
Lemma jwe_switch_Get key : jwe.switch_key_Get key = jwe.switch_key key.
Proof.
  unfold jwe.switch_key_Get, jwe.switch_key.
  repeat match goal with
         | |- context [String.eqb key ?l] =>
             destruct (String.eqb_spec key l) as [->|_]; [reflexivity|]
         end.
  reflexivity.
Qed.

Lemma jws_assign_run (s : list jws.Header) l o f r s' :
  s !! l = Some o -> jws.assign (Some l) f s = Done r s' ->
  r = None /\ s' = <[l := f o]> s.
Proof.
  intros H. unfold jws.assign.
  rewrite (bind_Done _ _ _ _ _ (update_Some _ _ _ _ H)). unfold ret.
  intros E. by inversion E.
Qed.

Lemma jwe_assign_run (s : list jwe.Header) l o f r s' :
  s !! l = Some o -> jwe.assign (Some l) f s = Done r s' ->
  r = None /\ s' = <[l := f o]> s.
Proof.
  intros H. unfold jwe.assign.
  rewrite (bind_Done _ _ _ _ _ (update_Some _ _ _ _ H)). unfold ret.
  intros E. by inversion E.
Qed.

Ltac set_cases Ho :=
  repeat match goal with
         | H : jws.assign _ _ _ = Done _ _ |- _ =>
             apply (jws_assign_run _ _ _ _ _ _ Ho) in H as [_ ->]
         | H : jwe.assign _ _ _ = Done _ _ |- _ =>
             apply (jwe_assign_run _ _ _ _ _ _ Ho) in H as [_ ->]
         | H : ret (Some _) _ = Done None _ |- _ => discriminate H
         | H : match ?x with _ => _ end _ = Done _ _ |- _ => destruct x
         end.

(** jwe [Set] under a key that is no [case] label, and under "x5t#256" with
    a string. *)
Lemma jwe_Set_default_run url_Parse l key v (s : list jwe.Header) o :
  key ∉ jwe_labels -> s !! l = Some o ->
  jwe.Header_Set url_Parse (Some l) key v s
  = Done None
      (<[l := jwe.mkHeader (jwe.Essential o)
                (<[key := v]> (jwe.PrivateParams o))]> s).
Proof.
  intros Hk Ho. unfold jwe.Header_Set.
  rewrite (proj2 (jwe_switch_default key) Hk). unfold jwe.assign.
  by rewrite (bind_Done _ _ _ _ _ (update_Some _ _ _ _ Ho)).
Qed.

Lemma jwe_Set_x5t256_run url_Parse l t (s : list jwe.Header) o :
  s !! l = Some o ->
  jwe.Header_Set url_Parse (Some l) "x5t#256" (VString t) s
  = Done None
      (<[l := jwe.mkHeader
                (jwe.set_X509CertThumbprintS256 t (jwe.Essential o))
                (jwe.PrivateParams o)]> s).
Proof.
  intros Ho. unfold jwe.Header_Set. simpl. unfold jwe.assign.
  by rewrite (bind_Done _ _ _ _ _ (update_Some _ _ _ _ Ho)).
Qed.

(** X1. In both packages, a [Set] that succeeds writes the header it is
    called on and nothing else; under one of the case labels of its [switch]
    it leaves [PrivateParams] as it was, under any other key it leaves the
    essential struct as it was and stores the value, of whatever type, under
    the key. *)
Theorem Set_writes_one_side url_Parse l key v :
  (forall (s s' : list jws.Header) o,
      s !! l = Some o ->
      jws.Header_Set url_Parse (Some l) key v s = Done None s' ->
      exists o',
        s' = <[l := o']> s
        /\ (key ∈ jws_labels -> jws.PrivateParams o' = jws.PrivateParams o)
        /\ (key ∉ jws_labels ->
            o' = jws.mkHeader (jws.Essential o)
                   (<[key := v]> (jws.PrivateParams o))))
  /\ (forall (s s' : list jwe.Header) o,
         s !! l = Some o ->
         jwe.Header_Set url_Parse (Some l) key v s = Done None s' ->
         exists o',
           s' = <[l := o']> s
           /\ (key ∈ jwe_labels -> jwe.PrivateParams o' = jwe.PrivateParams o)
           /\ (key ∉ jwe_labels ->
               o' = jwe.mkHeader (jwe.Essential o)
                      (<[key := v]> (jwe.PrivateParams o)))).
Proof.
  split; intros s s' o Ho H.
  - unfold jws.Header_Set in H.
    destruct (jws.switch_key key) eqn:Hk; set_cases Ho;
      (eexists; split; [reflexivity|]); split;
      first [ reflexivity
            | intros Hin; by apply jws_switch_default in Hin
            | intros Hn; apply jws_switch_default in Hn; congruence
            | idtac ].
    all: try (intros _; reflexivity).
  - unfold jwe.Header_Set in H.
    destruct (jwe.switch_key key) eqn:Hk; set_cases Ho;
      (eexists; split; [reflexivity|]); split;
      first [ reflexivity
            | intros Hin; by apply jwe_switch_default in Hin
            | intros Hn; apply jwe_switch_default in Hn; congruence
            | idtac ].
    all: try (intros _; reflexivity).
Qed.

Lemma Set_writes_one_side_witness :
  (exists o', [sample2.jws_k2] = <[0 := o']> [sample.jws_empty]
              /\ jws.PrivateParams o' = ∅)
  /\ (exists o', [sample2.jwe_private] = <[0 := o']> [sample.empty]
                 /\ jwe.Essential o' = jwe.zero).
Proof.
  split.
  - destruct (proj1 (Set_writes_one_side sample_url_Parse 0 "kid"
                       (VString "k2"))
                [sample.jws_empty] [sample2.jws_k2] sample.jws_empty
                eq_refl eq_refl) as (o' & H & Hin & _).
    exists o'. split; [exact H|]. apply Hin.
    by apply (bool_decide_unpack _).
  - destruct (proj2 (Set_writes_one_side sample_url_Parse 0 "nonce"
                       (VString "n1"))
                [sample.empty] [sample2.jwe_private] sample.empty
                eq_refl eq_refl) as (o' & H & _ & Hout).
    exists o'. split; [exact H|]. rewrite Hout; [reflexivity|].
    by apply (bool_decide_unpack _).
Defined.

(** X2. jwe [Get] on a header at an address: no write; an error, "invalid
    header name", exactly for a key that is no case label and has no entry
    in [PrivateParams], and then the value returned is nil; under a key
    that is no case label and has an entry, that entry. *)
Theorem jwe_Get_error_iff (s : list jwe.Header) l o key :
  s !! l = Some o ->
  exists d err,
    jwe.Header_Get (Some l) key s = Done (d, err) s
    /\ ((err <> None) <->
        ((key ∉ jwe_labels) /\ jwe.PrivateParams o !! key = None))
    /\ (err <> None -> err = Some "invalid header name" /\ d = jwe.DNil)
    /\ (key ∉ jwe_labels -> forall v,
          jwe.PrivateParams o !! key = Some v -> d = jwe.DValue v).
Proof.
  intros Ho. unfold jwe.Header_Get.
  rewrite (bind_Done _ _ _ _ _ (deref_Some _ _ _ Ho)).
  rewrite jwe_switch_Get.
  destruct (jwe.switch_key key) eqn:Hk;
    try (do 2 eexists; split; [reflexivity|]; split_and!;
         [split; [done|intros [Hn _]; apply jwe_switch_default in Hn;
                       congruence]
         |done
         |intros Hn; apply jwe_switch_default in Hn; congruence]).
  apply jwe_switch_default in Hk.
  destruct (jwe.PrivateParams o !! key) as [v|] eqn:Hv;
    do 2 eexists; (split; [reflexivity|]); split_and!.
  - split; [done|]. by intros [_ ?].
  - done.
  - intros _ v' [= ->]. reflexivity.
  - done.
  - done.
  - done.
Qed.

Lemma jwe_Get_error_iff_witness :
  exists d,
    jwe.Header_Get (Some 0) "nonce" [sample2.jwe_private]
    = Done (d, None) [sample2.jwe_private]
    /\ d = jwe.DValue (VString "n1").
Proof.
  destruct (jwe_Get_error_iff [sample2.jwe_private] 0 sample2.jwe_private
              "nonce" eq_refl) as (d & err & H & Hiff & _ & Hv).
  exists d. destruct err as [e|].
  - exfalso. destruct (proj1 Hiff) as [_ Hn]; [done|]. discriminate Hn.
  - split; [exact H|]. apply Hv; [by apply (bool_decide_unpack _)|].
    reflexivity.
Defined.

(** X3. jwe: [Get] after a [Set] that succeeded, under the same key,
    returns no error and the value as [Set] stored it: the value itself
    under a key that is no case label and under the string, slice and key
    fields; the typed algorithm for "alg" and "enc", which [Set] takes as a
    string too; a buffer for "apu" and "apv", which [Set] takes as bytes or
    a string too; the parsed URL for "jku" and "x5u". *)
Theorem jwe_Get_after_Set url_Parse l key v (s s' : list jwe.Header) o :
  s !! l = Some o ->
  jwe.Header_Set url_Parse (Some l) key v s = Done None s' ->
  exists d,
    jwe.Header_Get (Some l) key s' = Done (d, None) s'
    /\ (key ∉ ["alg"; "enc"; "apu"; "apv"; "jku"; "x5u"] -> d = jwe.DValue v)
    /\ (key = "alg" -> exists a,
          (v = VString a \/ v = VKeyEncryptionAlgorithm a)
          /\ d = jwe.DValue (VKeyEncryptionAlgorithm a))
    /\ (key = "enc" -> exists a,
          (v = VString a \/ v = VContentEncryptionAlgorithm a)
          /\ d = jwe.DValue (VContentEncryptionAlgorithm a))
    /\ (key ∈ ["apu"; "apv"] -> exists b,
          (v = VBuffer b \/ v = VBytes b \/ v = VString b)
          /\ d = jwe.DValue (VBuffer b))
    /\ (key ∈ ["jku"; "x5u"] -> exists t u,
          v = VString t /\ url_Parse t = Some u /\ d = jwe.DURL (Some u)).
Proof.
  intros Ho. pose proof (lookup_lt_Some _ _ _ Ho) as Hlt.
  intros HSet. destruct (decide (key ∈ jwe_labels)) as [Hin|Hout].
  - unfold jwe_labels in Hin.
    repeat (apply elem_of_cons in Hin as [->|Hin]);
      [..|by apply elem_of_nil in Hin];
      unfold jwe.Header_Set in HSet; simpl in HSet;
      destruct v as [t|t|t|t|t|t|t|t|t]; try discriminate HSet;
      try (destruct (url_Parse t) as [u|] eqn:Hu; [|discriminate HSet]);
      apply (jwe_assign_run _ _ _ _ _ _ Ho) in HSet as [_ ->];
      (eexists; split;
       [unfold jwe.Header_Get;
        rewrite (bind_Done _ _ _ _ _
                   (deref_Some _ _ _ (list_lookup_insert_eq _ _ _ Hlt)));
        reflexivity|]);
      split_and!; intros Hk;
      try discriminate Hk;
      try (exfalso; apply Hk; by apply (bool_decide_unpack _));
      try (exfalso; revert Hk; by apply (bool_decide_unpack _));
      try reflexivity;
      eauto 6.
  - rewrite (jwe_Set_default_run url_Parse l key v s o Hout Ho) in HSet.
    injection HSet as <-.
    unfold jwe.Header_Get.
    rewrite (bind_Done _ _ _ _ _
               (deref_Some _ _ _ (list_lookup_insert_eq _ _ _ Hlt))).
    rewrite jwe_switch_Get, (proj2 (jwe_switch_default key) Hout). simpl.
    rewrite lookup_insert_eq. eexists. split; [reflexivity|].
    split_and!; try done; intros Hk; exfalso; apply Hout.
    + subst. by apply (bool_decide_unpack _).
    + subst. by apply (bool_decide_unpack _).
    + unfold jwe_labels. set_solver.
    + unfold jwe_labels. set_solver.
Qed.

Lemma jwe_Get_after_Set_witness :
  exists d,
    jwe.Header_Get (Some 0) "alg" [sample.only_alg "dir"]
    = Done (d, None) [sample.only_alg "dir"]
    /\ d = jwe.DValue (VKeyEncryptionAlgorithm "dir").
Proof.
  destruct (jwe_Get_after_Set sample_url_Parse 0 "alg" (VString "dir")
              [sample.empty] [sample.only_alg "dir"] sample.empty
              eq_refl eq_refl) as (d & H & _ & Halg & _).
  exists d. split; [exact H|].
  destruct (Halg eq_refl) as (a & [Ha|Ha] & ->);
    [by injection Ha as <-|discriminate Ha].
Defined.

(** ** Copy and Merge through pointers *)

(** X4. jws [Copy]: the destination is tested first, then the source; an error
    comes back exactly when one of them is nil, and then nothing is
    written. *)
Theorem jws_Copy_nil_errors (s : list jws.Header) h1 h2 :
  (h1 = None ->
   jws.Header_Copy h1 h2 s = Done (Some "copy destination is nil") s)
  /\ (h1 <> None -> h2 = None ->
      jws.Header_Copy h1 h2 s = Done (Some "copy target is nil") s)
  /\ (forall err s', jws.Header_Copy h1 h2 s = Done (Some err) s' ->
                     (h1 = None \/ h2 = None) /\ s' = s).
Proof.
  split_and!.
  - by intros ->.
  - intros H1 ->. by destruct h1.
  - intros err s' H.
    destruct (proj2 (jws_Header_Copy_error s h1 h2) err s' H) as [->| ->].
    + split; [by left|]. by inversion H.
    + split; [by right|]. destruct h1; by inversion H.
Qed.

Lemma jws_Copy_nil_errors_witness :
  jws.Header_Copy None (Some 0) [sample.jws_empty]
  = Done (Some "copy destination is nil") [sample.jws_empty]
  /\ jws.Header_Copy (Some 0) None [sample.jws_empty]
     = Done (Some "copy target is nil") [sample.jws_empty].
Proof.
  split.
  - exact (proj1 (jws_Copy_nil_errors [sample.jws_empty] None (Some 0)) eq_refl).
  - apply (proj1 (proj2 (jws_Copy_nil_errors [sample.jws_empty] (Some 0) None)));
      [discriminate|reflexivity].
Defined.

(** X6. jws [Merge], its errors and its result: a nil argument is reported as
    "merge target is nil" before anything is allocated; a nil receiver is
    reported by the inner [Copy], as "copy target is nil", after the new
    header was allocated, so the store has grown by one empty header.
    Whenever [Merge] returns, the error is nil exactly when both pointers
    are not, the pointer returned is nil exactly when the error is not, and
    a pointer returned is the address of a header that did not exist
    before. *)
Theorem jws_Merge_outcomes (s : list jws.Header) h1 h2 :
  (h2 = None ->
   jws.Header_Merge h1 h2 s = Done (None, Some "merge target is nil") s)
  /\ (h1 = None -> h2 <> None ->
      jws.Header_Merge h1 h2 s
      = Done (None, Some "copy target is nil")
          (s ++ [jws.mkHeader jws.zero ∅]))
  /\ (forall r err s',
         jws.Header_Merge h1 h2 s = Done (r, err) s' ->
         ((err = None) <-> (h1 <> None /\ h2 <> None))
         /\ ((r = None) <-> (err <> None))
         /\ (forall l3, r = Some l3 -> l3 = length s /\ s !! l3 = None)).
Proof.
  split_and!.
  - by intros ->.
  - intros -> H2. by destruct h2.
  - intros r err s' H.
    assert (Hfresh : s !! length s = None) by (by apply lookup_ge_None).
    destruct h2 as [l2|]; [|inversion H; subst; naive_solver].
    destruct h1 as [l1|]; [|inversion H; subst; naive_solver].
    unfold jws.Header_Merge, jws.NewHeader in H.
    rewrite (bind_Done _ _ _ _ _ (alloc_run _ _)) in H.
    unfold bind at 1 in H.
    destruct (jws.Header_Copy _ _ _) as [[e|] s1|] eqn:Hc; [| |discriminate].
    + apply jws_Header_Copy_error in Hc as [|]; discriminate.
    + unfold bind, deref, update, ret in H.
      repeat match type of H with
             | context [match ?x with _ => _ end] => destruct x eqn:?
             end; simplify_eq; naive_solver.
Qed.

Lemma jws_Merge_outcomes_witness :
  jws.Header_Merge (Some 0) None [sample.jws_empty]
  = Done (None, Some "merge target is nil") [sample.jws_empty]
  /\ jws.Header_Merge None (Some 0) [sample.jws_empty]
     = Done (None, Some "copy target is nil") [sample.jws_empty; sample.jws_empty].
Proof.
  split.
  - exact (proj1 (jws_Merge_outcomes [sample.jws_empty] (Some 0) None) eq_refl).
  - apply (proj1 (proj2 (jws_Merge_outcomes [sample.jws_empty] None (Some 0))));
      [reflexivity|discriminate].
Defined.

(** X8. jws [Copy] of a header onto itself changes nothing. *)
Theorem jws_Copy_onto_itself (s : list jws.Header) l o :
  s !! l = Some o -> jws.Header_Copy (Some l) (Some l) s = Done None s.
Proof.
  intros Ho. rewrite (jws_Header_Copy_run s l l o o Ho Ho).
  assert (Hsame : jws.mkHeader
                    (jws.EssentialHeader_Copy (jws.Essential o) (jws.Essential o))
                    (jws.PrivateParams o ∪ jws.PrivateParams o) = o).
  { destruct o as [e p]. simpl. rewrite (idemp (∪) p). f_equal.
    by destruct e. }
  rewrite Hsame. by rewrite list_insert_id.
Qed.

Lemma jws_Copy_onto_itself_witness :
  jws.Header_Copy (Some 0) (Some 0) [sample.jws_with_crit] = Done None [sample.jws_with_crit].
Proof.
  exact (jws_Copy_onto_itself [sample.jws_with_crit] 0 (sample.jws_with_crit) eq_refl).
Defined.

(** X10. jws [Copy] does not replace the parameter map of the destination: the
    source's entries are written over it and the entries under keys the
    source does not have stay. The source and every other header are left
    as they were, and copying a second time changes nothing more. *)
Theorem jws_Copy_adds_parameters (s : list jws.Header) l1 l2 d src :
  s !! l1 = Some d -> s !! l2 = Some src -> l1 <> l2 ->
  exists d',
    jws.Header_Copy (Some l1) (Some l2) s = Done None (<[l1 := d']> s)
    /\ (forall k v, jws.PrivateParams src !! k = Some v ->
                    jws.PrivateParams d' !! k = Some v)
    /\ (forall k, jws.PrivateParams src !! k = None ->
                  jws.PrivateParams d' !! k = jws.PrivateParams d !! k)
    /\ (forall l, l <> l1 -> <[l1 := d']> s !! l = s !! l)
    /\ jws.Header_Copy (Some l1) (Some l2) (<[l1 := d']> s)
       = Done None (<[l1 := d']> s).
Proof.
  intros H1 H2 Hne. eexists. split; [by apply jws_Header_Copy_run|].
  split_and!.
  - intros k v Hk. simpl. by apply lookup_union_Some_l.
  - intros k Hk. simpl. by rewrite lookup_union_r.
  - intros l Hl. by rewrite list_lookup_insert_ne.
  - pose proof (lookup_lt_Some _ _ _ H1) as Hlt.
    rewrite (jws_Header_Copy_run _ l1 l2 _ src
               (list_lookup_insert_eq _ _ _ Hlt)).
    2: by rewrite list_lookup_insert_ne.
    rewrite list_insert_insert_eq. simpl.
    rewrite (assoc_L (∪)), (idemp (∪) (jws.PrivateParams src)).
    by rewrite !jws_Copy_assigned_fields.
Qed.

Lemma jws_Copy_adds_parameters_witness :
  exists d',
    jws.Header_Copy (Some 0) (Some 1) [sample.jws_with_crit; sample2.jws_private]
    = Done None (<[0 := d']> [sample.jws_with_crit; sample2.jws_private])
    /\ jws.PrivateParams d' !! "nonce" = Some (VString "n1").
Proof.
  destruct (jws_Copy_adds_parameters [sample.jws_with_crit; sample2.jws_private] 0 1 (sample.jws_with_crit) sample2.jws_private
              eq_refl eq_refl)
    as (d' & H & Hsrc & _); [discriminate|].
  exists d'. split; [exact H|]. apply Hsrc. reflexivity.
Defined.

(** X5. jwe [Copy]: the destination is tested first, then the source; an error
    comes back exactly when one of them is nil, and then nothing is
    written. *)
Theorem jwe_Copy_nil_errors (s : list jwe.Header) h1 h2 :
  (h1 = None ->
   jwe.Header_Copy h1 h2 s = Done (Some "copy destination is nil") s)
  /\ (h1 <> None -> h2 = None ->
      jwe.Header_Copy h1 h2 s = Done (Some "copy target is nil") s)
  /\ (forall err s', jwe.Header_Copy h1 h2 s = Done (Some err) s' ->
                     (h1 = None \/ h2 = None) /\ s' = s).
Proof.
  split_and!.
  - by intros ->.
  - intros H1 ->. by destruct h1.
  - intros err s' H.
    destruct (proj2 (jwe_Header_Copy_error s h1 h2) err s' H) as [->| ->].
    + split; [by left|]. by inversion H.
    + split; [by right|]. destruct h1; by inversion H.
Qed.

Lemma jwe_Copy_nil_errors_witness :
  jwe.Header_Copy None (Some 0) [sample.empty]
  = Done (Some "copy destination is nil") [sample.empty]
  /\ jwe.Header_Copy (Some 0) None [sample.empty]
     = Done (Some "copy target is nil") [sample.empty].
Proof.
  split.
  - exact (proj1 (jwe_Copy_nil_errors [sample.empty] None (Some 0)) eq_refl).
  - apply (proj1 (proj2 (jwe_Copy_nil_errors [sample.empty] (Some 0) None)));
      [discriminate|reflexivity].
Defined.

(** X7. jwe [Merge], its errors and its result: a nil argument is reported as
    "merge target is nil" before anything is allocated; a nil receiver is
    reported by the inner [Copy], as "copy target is nil", after the new
    header was allocated, so the store has grown by one empty header.
    Whenever [Merge] returns, the error is nil exactly when both pointers
    are not, the pointer returned is nil exactly when the error is not, and
    a pointer returned is the address of a header that did not exist
    before. *)
Theorem jwe_Merge_outcomes (s : list jwe.Header) h1 h2 :
  (h2 = None ->
   jwe.Header_Merge h1 h2 s = Done (None, Some "merge target is nil") s)
  /\ (h1 = None -> h2 <> None ->
      jwe.Header_Merge h1 h2 s
      = Done (None, Some "copy target is nil")
          (s ++ [jwe.mkHeader jwe.zero ∅]))
  /\ (forall r err s',
         jwe.Header_Merge h1 h2 s = Done (r, err) s' ->
         ((err = None) <-> (h1 <> None /\ h2 <> None))
         /\ ((r = None) <-> (err <> None))
         /\ (forall l3, r = Some l3 -> l3 = length s /\ s !! l3 = None)).
Proof.
  split_and!.
  - by intros ->.
  - intros -> H2. by destruct h2.
  - intros r err s' H.
    assert (Hfresh : s !! length s = None) by (by apply lookup_ge_None).
    destruct h2 as [l2|]; [|inversion H; subst; naive_solver].
    destruct h1 as [l1|]; [|inversion H; subst; naive_solver].
    unfold jwe.Header_Merge, jwe.NewHeader in H.
    rewrite (bind_Done _ _ _ _ _ (alloc_run _ _)) in H.
    unfold bind at 1 in H.
    destruct (jwe.Header_Copy _ _ _) as [[e|] s1|] eqn:Hc; [| |discriminate].
    + apply jwe_Header_Copy_error in Hc as [|]; discriminate.
    + unfold bind, deref, update, ret in H.
      repeat match type of H with
             | context [match ?x with _ => _ end] => destruct x eqn:?
             end; simplify_eq; naive_solver.
Qed.

Lemma jwe_Merge_outcomes_witness :
  jwe.Header_Merge (Some 0) None [sample.empty]
  = Done (None, Some "merge target is nil") [sample.empty]
  /\ jwe.Header_Merge None (Some 0) [sample.empty]
     = Done (None, Some "copy target is nil") [sample.empty; sample.empty].
Proof.
  split.
  - exact (proj1 (jwe_Merge_outcomes [sample.empty] (Some 0) None) eq_refl).
  - apply (proj1 (proj2 (jwe_Merge_outcomes [sample.empty] None (Some 0))));
      [reflexivity|discriminate].
Defined.

(** X9. jwe [Copy] of a header onto itself changes nothing. *)
Theorem jwe_Copy_onto_itself (s : list jwe.Header) l o :
  s !! l = Some o -> jwe.Header_Copy (Some l) (Some l) s = Done None s.
Proof.
  intros Ho. rewrite (jwe_Header_Copy_run s l l o o Ho Ho).
  assert (Hsame : jwe.mkHeader
                    (jwe.EssentialHeader_Copy (jwe.Essential o) (jwe.Essential o))
                    (jwe.PrivateParams o ∪ jwe.PrivateParams o) = o).
  { destruct o as [e p]. simpl. rewrite (idemp (∪) p). f_equal.
    by destruct e. }
  rewrite Hsame. by rewrite list_insert_id.
Qed.

Lemma jwe_Copy_onto_itself_witness :
  jwe.Header_Copy (Some 0) (Some 0) [sample.only_alg "dir"] = Done None [sample.only_alg "dir"].
Proof.
  exact (jwe_Copy_onto_itself [sample.only_alg "dir"] 0 (sample.only_alg "dir") eq_refl).
Defined.

(** X11. jwe [Copy] does not replace the parameter map of the destination: the
    source's entries are written over it and the entries under keys the
    source does not have stay. The source and every other header are left
    as they were, and copying a second time changes nothing more. *)
Theorem jwe_Copy_adds_parameters (s : list jwe.Header) l1 l2 d src :
  s !! l1 = Some d -> s !! l2 = Some src -> l1 <> l2 ->
  exists d',
    jwe.Header_Copy (Some l1) (Some l2) s = Done None (<[l1 := d']> s)
    /\ (forall k v, jwe.PrivateParams src !! k = Some v ->
                    jwe.PrivateParams d' !! k = Some v)
    /\ (forall k, jwe.PrivateParams src !! k = None ->
                  jwe.PrivateParams d' !! k = jwe.PrivateParams d !! k)
    /\ (forall l, l <> l1 -> <[l1 := d']> s !! l = s !! l)
    /\ jwe.Header_Copy (Some l1) (Some l2) (<[l1 := d']> s)
       = Done None (<[l1 := d']> s).
Proof.
  intros H1 H2 Hne. eexists. split; [by apply jwe_Header_Copy_run|].
  split_and!.
  - intros k v Hk. simpl. by apply lookup_union_Some_l.
  - intros k Hk. simpl. by rewrite lookup_union_r.
  - intros l Hl. by rewrite list_lookup_insert_ne.
  - pose proof (lookup_lt_Some _ _ _ H1) as Hlt.
    rewrite (jwe_Header_Copy_run _ l1 l2 _ src
               (list_lookup_insert_eq _ _ _ Hlt)).
    2: by rewrite list_lookup_insert_ne.
    rewrite list_insert_insert_eq. simpl.
    rewrite (assoc_L (∪)), (idemp (∪) (jwe.PrivateParams src)).
    reflexivity.
Qed.

Lemma jwe_Copy_adds_parameters_witness :
  exists d',
    jwe.Header_Copy (Some 0) (Some 1) [sample.only_alg "dir"; sample2.jwe_private]
    = Done None (<[0 := d']> [sample.only_alg "dir"; sample2.jwe_private])
    /\ jwe.PrivateParams d' !! "nonce" = Some (VString "n1").
Proof.
  destruct (jwe_Copy_adds_parameters [sample.only_alg "dir"; sample2.jwe_private] 0 1 (sample.only_alg "dir") sample2.jwe_private
              eq_refl eq_refl)
    as (d' & H & Hsrc & _); [discriminate|].
  exists d'. split; [exact H|]. apply Hsrc. reflexivity.
Defined.

(** ** The algebra of Merge *)

Lemma merged_string_assoc a b c :
  merged_string (merged_string a b) c = merged_string a (merged_string b c).
Proof. unfold merged_string. destruct c, b; reflexivity. Qed.

Lemma merged_buffer_assoc a b c :
  merged_buffer (merged_buffer a b) c = merged_buffer a (merged_buffer b c).
Proof. unfold merged_buffer. destruct c, b; reflexivity. Qed.

Lemma merged_nilable_assoc {A} (a b c : option A) :
  merged_nilable (merged_nilable a b) c
  = merged_nilable a (merged_nilable b c).
Proof. destruct c, b; reflexivity. Qed.

Lemma merged_string_idemp a : merged_string a a = a.
Proof. by destruct a. Qed.
Lemma merged_buffer_idemp a : merged_buffer a a = a.
Proof. by destruct a. Qed.
Lemma merged_nilable_idemp {A} (a : option A) : merged_nilable a a = a.
Proof. by destruct a. Qed.

Lemma merged_string_zero_l b : merged_string "" b = b.
Proof. by destruct b. Qed.
Lemma merged_buffer_zero_l b : merged_buffer "" b = b.
Proof. by destruct b. Qed.
Lemma merged_nilable_zero_l {A} (b : option A) : merged_nilable None b = b.
Proof. by destruct b. Qed.

Lemma jwe_eta (e : jwe.EssentialHeader) :
  e = jwe.mkEssentialHeader (jwe.AgreementPartyUInfo e)
        (jwe.AgreementPartyVInfo e) (jwe.Algorithm e) (jwe.ContentEncryption e)
        (jwe.ContentType e) (jwe.Compression e) (jwe.Critical e)
        (jwe.EphemeralPublicKey e) (jwe.Jwk e) (jwe.JwkSetURL e) (jwe.KeyID e)
        (jwe.Type' e) (jwe.X509Url e) (jwe.X509CertChain e)
        (jwe.X509CertThumbprint e) (jwe.X509CertThumbprintS256 e).
Proof. by destruct e. Qed.

(** jwe [EssentialHeader.Merge] as a record of merged fields. *)
Lemma jwe_Merge_record a b :
  jwe.EssentialHeader_Merge a b
  = jwe.mkEssentialHeader
      (merged_buffer (jwe.AgreementPartyUInfo a) (jwe.AgreementPartyUInfo b))
      (merged_buffer (jwe.AgreementPartyVInfo a) (jwe.AgreementPartyVInfo b))
      (merged_string (jwe.Algorithm a) (jwe.Algorithm b))
      (merged_string (jwe.ContentEncryption a) (jwe.ContentEncryption b))
      (merged_string (jwe.ContentType a) (jwe.ContentType b))
      (merged_string (jwe.Compression a) (jwe.Compression b))
      (merged_nilable (jwe.Critical a) (jwe.Critical b))
      (merged_nilable (jwe.EphemeralPublicKey a) (jwe.EphemeralPublicKey b))
      (merged_nilable (jwe.Jwk a) (jwe.Jwk b))
      (merged_nilable (jwe.JwkSetURL a) (jwe.JwkSetURL b))
      (merged_string (jwe.KeyID a) (jwe.KeyID b))
      (merged_string (jwe.Type' a) (jwe.Type' b))
      (merged_nilable (jwe.X509Url a) (jwe.X509Url b))
      (merged_nilable (jwe.X509CertChain a) (jwe.X509CertChain b))
      (merged_string (jwe.X509CertThumbprint a) (jwe.X509CertThumbprint b))
      (merged_string (jwe.X509CertThumbprintS256 a)
         (jwe.X509CertThumbprintS256 b)).
Proof.
  rewrite (jwe_eta (jwe.EssentialHeader_Merge a b)).
  pose proof (jwe_Merge_fields a b) as H. cbv zeta in H.
  destruct H as (-> & -> & -> & -> & -> & -> & -> & -> & -> & -> & -> & ->
                 & -> & -> & -> & ->).
  reflexivity.
Qed.

Lemma jws_Merge_record a b :
  jws.EssentialHeader_Merge a b
  = jws.mkEssentialHeader
      (merged_string (jws.Algorithm a) (jws.Algorithm b))
      (merged_string (jws.ContentType a) (jws.ContentType b))
      (jws.Critical a) (jws.Jwk a)
      (merged_nilable (jws.JwkSetURL a) (jws.JwkSetURL b))
      (merged_string (jws.KeyID a) (jws.KeyID b))
      (merged_string (jws.Type' a) (jws.Type' b))
      (merged_nilable (jws.X509Url a) (jws.X509Url b))
      (merged_nilable (jws.X509CertChain a) (jws.X509CertChain b))
      (merged_string (jws.X509CertThumbprint a) (jws.X509CertThumbprint b))
      (merged_string (jws.X509CertThumbprintS256 a)
         (jws.X509CertThumbprintS256 b)).
Proof.
  rewrite (jws_eta (jws.EssentialHeader_Merge a b)).
  pose proof (jws_Merge_fields a b) as H. cbv zeta in H.
  destruct H as (-> & -> & -> & -> & -> & -> & -> & -> & ->).
  destruct (jws_Merge_keeps_Critical_Jwk a b) as [-> ->].
  reflexivity.
Qed.

(** X12. [EssentialHeader.Merge] in both packages: merging is associative, so the
    effective header of protected, unprotected and per-recipient headers
    does not depend on how the merges are grouped; merging a header into
    itself or merging the zero struct into it changes nothing. Merging into
    the zero struct gives the argument in package jwe. *)
Theorem Merge_laws :
  (forall a b c : jwe.EssentialHeader,
      jwe.EssentialHeader_Merge (jwe.EssentialHeader_Merge a b) c
      = jwe.EssentialHeader_Merge a (jwe.EssentialHeader_Merge b c))
  /\ (forall a, jwe.EssentialHeader_Merge a a = a)
  /\ (forall a, jwe.EssentialHeader_Merge a jwe.zero = a)
  /\ (forall b, jwe.EssentialHeader_Merge jwe.zero b = b)
  /\ (forall a b c : jws.EssentialHeader,
         jws.EssentialHeader_Merge (jws.EssentialHeader_Merge a b) c
         = jws.EssentialHeader_Merge a (jws.EssentialHeader_Merge b c))
  /\ (forall a, jws.EssentialHeader_Merge a a = a)
  /\ (forall a, jws.EssentialHeader_Merge a jws.zero = a).
Proof.
  split_and!.
  - intros a b c. rewrite !jwe_Merge_record. simpl.
    by rewrite !merged_string_assoc, !merged_buffer_assoc,
      !merged_nilable_assoc.
  - intros a. rewrite jwe_Merge_record.
    rewrite !merged_string_idemp, !merged_buffer_idemp, !merged_nilable_idemp.
    by destruct a.
  - intros a. by destruct a.
  - intros b. rewrite jwe_Merge_record. simpl.
    rewrite !merged_string_zero_l, !merged_buffer_zero_l,
      !merged_nilable_zero_l.
    by destruct b.
  - intros a b c. rewrite !jws_Merge_record. simpl.
    by rewrite !merged_string_assoc, !merged_nilable_assoc.
  - intros a. rewrite jws_Merge_record.
    rewrite !merged_string_idemp, !merged_nilable_idemp.
    by destruct a.
  - intros a. by destruct a.
Qed.

(** X13. jwe [Merge] of two headers at addresses, field by field: the new
    header holds, in every one of the sixteen fields, the argument's value
    where that is not empty and the receiver's where it is, and the
    argument's parameters over the receiver's; it is put at a new address
    and no header that existed is written. *)
Theorem jwe_Merge_field_by_field (s : list jwe.Header) l1 l2 a b :
  s !! l1 = Some a -> s !! l2 = Some b ->
  let ea := jwe.Essential a in
  let eb := jwe.Essential b in
  jwe.Header_Merge (Some l1) (Some l2) s
  = Done (Some (length s), None)
      (s ++ [jwe.mkHeader
               (jwe.mkEssentialHeader
                  (merged_buffer (jwe.AgreementPartyUInfo ea)
                     (jwe.AgreementPartyUInfo eb))
                  (merged_buffer (jwe.AgreementPartyVInfo ea)
                     (jwe.AgreementPartyVInfo eb))
                  (merged_string (jwe.Algorithm ea) (jwe.Algorithm eb))
                  (merged_string (jwe.ContentEncryption ea)
                     (jwe.ContentEncryption eb))
                  (merged_string (jwe.ContentType ea) (jwe.ContentType eb))
                  (merged_string (jwe.Compression ea) (jwe.Compression eb))
                  (merged_nilable (jwe.Critical ea) (jwe.Critical eb))
                  (merged_nilable (jwe.EphemeralPublicKey ea)
                     (jwe.EphemeralPublicKey eb))
                  (merged_nilable (jwe.Jwk ea) (jwe.Jwk eb))
                  (merged_nilable (jwe.JwkSetURL ea) (jwe.JwkSetURL eb))
                  (merged_string (jwe.KeyID ea) (jwe.KeyID eb))
                  (merged_string (jwe.Type' ea) (jwe.Type' eb))
                  (merged_nilable (jwe.X509Url ea) (jwe.X509Url eb))
                  (merged_nilable (jwe.X509CertChain ea)
                     (jwe.X509CertChain eb))
                  (merged_string (jwe.X509CertThumbprint ea)
                     (jwe.X509CertThumbprint eb))
                  (merged_string (jwe.X509CertThumbprintS256 ea)
                     (jwe.X509CertThumbprintS256 eb)))
               (jwe.PrivateParams b ∪ jwe.PrivateParams a)]).
Proof.
  intros H1 H2 ea eb. rewrite (jwe_Header_Merge_run s l1 l2 a b H1 H2).
  by rewrite jwe_Copy_all_fields, jwe_Merge_record.
Qed.

Lemma jwe_Merge_field_by_field_witness :
  jwe.Header_Merge (Some 0) (Some 1)
    [sample.protected "dir" "A128GCM" ""; sample.only_alg "wrap"]
  = Done (Some 2, None)
      [sample.protected "dir" "A128GCM" ""; sample.only_alg "wrap";
       sample.protected "wrap" "A128GCM" ""].
Proof.
  pose proof (jwe_Merge_field_by_field
                [sample.protected "dir" "A128GCM" ""; sample.only_alg "wrap"]
                0 1 (sample.protected "dir" "A128GCM" "")
                (sample.only_alg "wrap") eq_refl eq_refl) as H.
  cbv zeta in H. refine (eq_trans H _). vm_compute. reflexivity.
Defined.

(** ** jws: signatures and the merged view of their headers *)

Lemma jws_KeyID_run (s : list jws.Header) sig :
  jws.MergedHeader_KeyID (jws.Signature_MergedHeaders sig) s
  = match key_id_of s sig with
    | Some kid => Done kid s
    | None => Panic
    end.
Proof.
  unfold jws.MergedHeader_KeyID, key_id_of, jws.Signature_MergedHeaders.
  destruct sig as [pub [[[l|] src]|] b]; simpl; unfold bind, deref, ret.
  - destruct (s !! l) as [o|]; simpl; [|reflexivity].
    destruct (String.eqb_spec (jws.KeyID (jws.Essential o)) "") as [->|Hne];
      simpl.
    + destruct pub as [lp|]; [|reflexivity].
      destruct (s !! lp) as [op|]; simpl; [|reflexivity].
      by destruct (String.eqb_spec (jws.KeyID (jws.Essential op)) "")
        as [->|].
    + by destruct (jws.KeyID (jws.Essential o)).
  - reflexivity.
  - destruct pub as [lp|]; [|reflexivity].
    destruct (s !! lp) as [op|]; simpl; [|reflexivity].
    by destruct (String.eqb_spec (jws.KeyID (jws.Essential op)) "") as [->|].
Qed.


(** X14. [MergedHeader.KeyID] and [MergedHeader.Algorithm] for a signature whose
    protected and public headers are at addresses: the key id is the
    protected header's unless that is empty, and then the public header's,
    which is the key id of the public header with the protected one merged
    over it; the algorithm is the protected header's, also when that is
    empty and the public header names one. Without a protected header the
    algorithm is [NoSignature]. Neither writes. *)
Theorem jws_MergedHeader_view (s : list jws.Header) l1 o1 src l2 o2 b :
  s !! l1 = Some o1 -> s !! l2 = Some o2 ->
  let sig := jws.mkSignature (Some l2)
               (Some (jws.mkEncodedHeader (Some l1) src)) b in
  jws.MergedHeader_KeyID (jws.Signature_MergedHeaders sig) s
  = Done (jws.KeyID (jws.EssentialHeader_Merge (jws.Essential o2)
                       (jws.Essential o1))) s
  /\ jws.MergedHeader_KeyID (jws.Signature_MergedHeaders sig) s
     = Done (merged_string (jws.KeyID (jws.Essential o2))
               (jws.KeyID (jws.Essential o1))) s
  /\ jws.MergedHeader_Algorithm (jws.Signature_MergedHeaders sig) s
     = Done (jws.Algorithm (jws.Essential o1)) s
  /\ jws.MergedHeader_Algorithm
       (jws.Signature_MergedHeaders (jws.mkSignature (Some l2) None b)) s
     = Done jwa.NoSignature s
  /\ jws.MergedHeader_KeyID
       (jws.Signature_MergedHeaders (jws.mkSignature (Some l2) None b)) s
     = Done (jws.KeyID (jws.Essential o2)) s.
Proof.
  intros H1 H2 sig.
  assert (Hk : jws.MergedHeader_KeyID (jws.Signature_MergedHeaders sig) s
               = Done (merged_string (jws.KeyID (jws.Essential o2))
                         (jws.KeyID (jws.Essential o1))) s).
  { rewrite jws_KeyID_run. unfold key_id_of, sig. simpl. rewrite H1, H2.
    simpl. unfold merged_string.
    by destruct (jws.KeyID (jws.Essential o1)). }
  split_and!.
  - rewrite Hk. f_equal.
    pose proof (jws_Merge_fields (jws.Essential o2) (jws.Essential o1)) as F.
    cbv zeta in F. by destruct F as (_ & _ & _ & -> & _).
  - exact Hk.
  - unfold jws.MergedHeader_Algorithm, sig. simpl.
    by rewrite (bind_Done _ _ _ _ _ (deref_Some _ _ _ H1)).
  - reflexivity.
  - rewrite jws_KeyID_run. unfold key_id_of. simpl. rewrite H2. simpl.
    done.
Qed.

Lemma jws_MergedHeader_view_witness :
  jws.MergedHeader_KeyID (jws.Signature_MergedHeaders sample2.sig_b)
    sample2.jws_store
  = Done "k2" sample2.jws_store
  /\ jws.MergedHeader_Algorithm (jws.Signature_MergedHeaders sample2.sig_b)
       sample2.jws_store
     = Done "" sample2.jws_store.
Proof.
  pose proof (jws_MergedHeader_view sample2.jws_store 2 sample.jws_empty ""
                1 sample2.jws_k2 "b" eq_refl eq_refl) as H.
  cbv zeta in H. destruct H as (_ & Hk & Ha & _).
  split; [exact Hk|exact Ha].
Defined.



(** X16. [NewSignature]: two new empty headers at two addresses, the public one
    first. Its merged key id is empty and its merged algorithm is the empty
    algorithm of its protected header, not [NoSignature]. *)
Theorem jws_NewSignature_view (s : list jws.Header) :
  exists sig,
    jws.NewSignature s
    = Done sig (s ++ [jws.mkHeader jws.zero ∅; jws.mkHeader jws.zero ∅])
    /\ jws.PublicHeader sig = Some (length s)
    /\ jws.ProtectedHeader sig
       = Some (jws.mkEncodedHeader (Some (S (length s))) "")
    /\ forall s', let s2 := (s ++ [jws.mkHeader jws.zero ∅;
                                   jws.mkHeader jws.zero ∅]) ++ s' in
       jws.MergedHeader_KeyID (jws.Signature_MergedHeaders sig) s2
       = Done "" s2
       /\ jws.MergedHeader_Algorithm (jws.Signature_MergedHeaders sig) s2
          = Done "" s2
       /\ jws.Message_LookupSignature (jws.mkMessage "" [sig]) "" s2
          = Done [sig] s2.
Proof.
  exists (jws.mkSignature (Some (length s))
            (Some (jws.mkEncodedHeader (Some (S (length s))) "")) "").
  split_and!.
  - unfold jws.NewSignature, jws.NewHeader.
    rewrite (bind_Done _ _ _ _ _ (alloc_run _ _)).
    rewrite (bind_Done _ _ _ _ _ (alloc_run _ _)).
    unfold ret. rewrite <- (assoc_L (++)). rewrite length_app. simpl.
    replace (length s + 1) with (S (length s)) by lia. reflexivity.
  - reflexivity.
  - reflexivity.
  - intros s' s2.
    set (z := jws.mkHeader jws.zero ∅) in *.
    assert (H1 : s2 !! length s = Some z).
    { unfold s2. apply lookup_app_l_Some.
      change (s ++ [z; z]) with (s ++ [z] ++ [z]). rewrite (assoc_L (++)).
      apply lookup_alloc_old, lookup_alloc. }
    assert (H2 : s2 !! S (length s) = Some z).
    { unfold s2. apply lookup_app_l_Some.
      change (s ++ [z; z]) with (s ++ [z] ++ [z]). rewrite (assoc_L (++)).
      replace (S (length s)) with (length (s ++ [z]))
        by (rewrite length_app; simpl; lia).
      apply lookup_alloc. }
    clearbody s2.
    assert (HK : forall l1 l2, s2 !! l1 = Some z -> s2 !! l2 = Some z ->
              jws.MergedHeader_KeyID
                (jws.Signature_MergedHeaders
                   (jws.mkSignature (Some l2)
                      (Some (jws.mkEncodedHeader (Some l1) "")) "")) s2
              = Done "" s2).
    { intros l1 l2 Ha Hb. unfold jws.MergedHeader_KeyID, bind, deref. simpl.
      rewrite Ha. simpl. by rewrite Hb. }
    assert (HA : forall l1 l2, s2 !! l1 = Some z ->
              jws.MergedHeader_Algorithm
                (jws.Signature_MergedHeaders
                   (jws.mkSignature (Some l2)
                      (Some (jws.mkEncodedHeader (Some l1) "")) "")) s2
              = Done "" s2).
    { intros l1 l2 Ha. unfold jws.MergedHeader_Algorithm, bind, deref. simpl.
      by rewrite Ha. }
    split_and!.
    + by apply HK.
    + by apply HA.
    + unfold jws.Message_LookupSignature. cbn [jws.Signatures jws.lookup_loop].
      by rewrite (bind_Done _ _ _ _ _ (HK _ _ H2 H1)).
Qed.

(** ** jws: Construct *)

(** X17. jws [Construct] run a second time on its own result changes nothing, and
    its result never has an empty algorithm. *)
Theorem Construct_idempotent GetString GetStringSlice url_Parse
  (h : jws.EssentialHeader) (m : gmap string value) :
  let r := jws.EssentialHeader_Construct GetString GetStringSlice url_Parse h m in
  jws.EssentialHeader_Construct GetString GetStringSlice url_Parse (fst r) m = r
  /\ jws.Algorithm (fst r) <> "".
Proof.
  intros r.
  pose proof (jws_Construct_fields GetString GetStringSlice url_Parse h m)
    as F1.
  pose proof (jws_Construct_fields GetString GetStringSlice url_Parse (fst r) m)
    as F2.
  cbv zeta in F1, F2. fold r in F1.
  set (r2 := jws.EssentialHeader_Construct _ _ _ (fst r) m) in *.
  destruct F1 as (E1 & C1 & X1 & A1 & T1 & K1 & Y1 & P1 & Q1 & J1 & U1 & W1).
  destruct F2 as (E2 & C2 & X2 & A2 & T2 & K2 & Y2 & P2 & Q2 & J2 & U2 & W2).
  assert (HA : jws.Algorithm (fst r) <> "").
  { rewrite A1. cbv zeta.
    destruct (GetString m "alg") as [alg [e|]];
      match goal with
      | |- context [String.eqb ?a ""] => by destruct (String.eqb_spec a "")
      end. }
  split; [|exact HA].
  apply injective_projections; [|congruence].
  rewrite (jws_eta (fst r2)), (jws_eta (fst r)). f_equal; try congruence.
  - rewrite A2. cbv zeta.
    destruct (GetString m "alg") as [alg [e|]].
    + by destruct (String.eqb_spec (jws.Algorithm (fst r)) "").
    + rewrite A1. cbv zeta. reflexivity.
  - rewrite C2. by destruct (GetStringSlice m "crit") as [v [e|]].
  - rewrite J2. destruct (GetString m "jku") as [v [e|]]; [done|].
    by destruct (url_Parse v).
  - rewrite U2. destruct (GetString m "x5u") as [v [e|]]; [done|].
    by destruct (url_Parse v).
  - rewrite X2. by destruct (GetStringSlice m "x5c") as [v [e|]].
Qed.

(** X18. jws [Construct] reads the map under ten names only, among them
    "x5t#256" and not "x5t#S256", the name of the struct tag, nor "jwk":
    with getters that look at the entry under the name they are given, an
    entry under any other key changes nothing. *)
Theorem Construct_reads_ten_names
  (GetString : gmap string value -> string -> string * option error)
  (GetStringSlice :
     gmap string value -> string -> option (list string) * option error)
  url_Parse (h : jws.EssentialHeader) (m : gmap string value) key v :
  (forall m m' n, m !! n = m' !! n -> GetString m n = GetString m' n) ->
  (forall m m' n, m !! n = m' !! n -> GetStringSlice m n = GetStringSlice m' n) ->
  key ∉ construct_names ->
  jws.EssentialHeader_Construct GetString GetStringSlice url_Parse h
    (<[key := v]> m)
  = jws.EssentialHeader_Construct GetString GetStringSlice url_Parse h m.
Proof.
  intros HS HL Hk.
  assert (Hn : forall n, n ∈ construct_names -> <[key := v]> m !! n = m !! n).
  { intros n Hn. apply lookup_insert_ne. by intros ->. }
  unfold jws.EssentialHeader_Construct.
  rewrite !(HS (<[key := v]> m) m) by (apply Hn; by apply (bool_decide_unpack _)).
  rewrite !(HL (<[key := v]> m) m) by (apply Hn; by apply (bool_decide_unpack _)).
  reflexivity.
Qed.

Lemma Construct_reads_ten_names_witness :
  jws.EssentialHeader_Construct sample_GetString sample_GetStringSlice
    sample_url_Parse jws.zero
    (<["x5t#S256" := VString "abc"]> sample.with_lists)
  = jws.EssentialHeader_Construct sample_GetString sample_GetStringSlice
      sample_url_Parse jws.zero sample.with_lists.
Proof.
  apply (Construct_reads_ten_names sample_GetString sample_GetStringSlice
           sample_url_Parse jws.zero sample.with_lists "x5t#S256"
           (VString "abc")).
  - intros m m' n H. unfold sample_GetString. by rewrite H.
  - intros m m' n H. unfold sample_GetStringSlice. by rewrite H.
  - by apply (bool_decide_unpack _).
Defined.

(** ** jwe: Header.UnmarshalJSON *)

(** What is left of a map after the names of a list were deleted. *)
Lemma lookup_delete_names (names : list string) :
  forall (m : gmap string value) k,
  foldl (fun m n => delete n m) m names !! k
  = if decide (k ∈ names) then None else m !! k.
Proof.
  induction names as [|n names IH]; intros m k; cbn [foldl].
  - destruct (decide (k ∈ [])) as [H|]; [by apply elem_of_nil in H|done].
  - rewrite IH. destruct (decide (k ∈ names)) as [Hin|Hout].
    + rewrite decide_True; [done|]. by right.
    + destruct (decide (k = n)) as [->|Hne].
      * rewrite decide_True by (by left). apply lookup_delete_eq.
      * rewrite decide_False by (rewrite elem_of_cons; naive_solver).
        by apply lookup_delete_ne.
Qed.

(** The loop over the entries of the generic map, for entries with distinct
    names that are no case label of [Set] or are a string under
    "x5t#256". *)
Lemma jwe_set_each_run url_Parse lh (l : list (string * value)) :
  forall (s : list jwe.Header) o,
  NoDup l.*1 ->
  (forall k v, (k, v) ∈ l ->
     k ∉ jwe_labels \/ (k = "x5t#256" /\ exists t, v = VString t)) ->
  s !! lh = Some o ->
  jwe.set_each url_Parse (Some lh) l s
  = Done None
      (<[lh := jwe.mkHeader
                 (after_entries (list_to_map l) (jwe.Essential o))
                 (delete "x5t#256" (list_to_map l) ∪ jwe.PrivateParams o)]> s).
Proof.
  induction l as [|[k v] l IH]; intros s o Hnd Hall Ho.
  - simpl. unfold ret, after_entries. rewrite lookup_empty, delete_empty.
    rewrite (left_id_L ∅ (∪)). destruct o. simpl in *.
    by rewrite list_insert_id.
  - rewrite fmap_cons in Hnd. apply NoDup_cons in Hnd as [Hk Hnd].
    cbn [fst] in Hk.
    assert (Hl : forall k' v', (k', v') ∈ l ->
              k' ∉ jwe_labels \/ (k' = "x5t#256" /\ exists t, v' = VString t))
      by (intros; apply Hall; by right).
    assert (Hnone : (list_to_map l : gmap string value) !! k = None)
      by (by apply not_elem_of_list_to_map_1).
    pose proof (lookup_lt_Some _ _ _ Ho) as Hlt.
    cbn [jwe.set_each].
    destruct (Hall k v) as [Hout|[-> [t ->]]]; [by left|..].
    + rewrite (bind_Done _ _ _ _ _ (jwe_Set_default_run url_Parse _ _ v _ _ Hout Ho)).
      rewrite (IH _ _ Hnd Hl (list_lookup_insert_eq _ _ _ Hlt)).
      rewrite list_insert_insert_eq. do 3 f_equal.
      * unfold after_entries. cbn [list_to_map foldr fst snd jwe.Essential].
        rewrite lookup_insert_ne; [done|].
        intros ->. apply Hout. by apply (bool_decide_unpack _).
      * cbn [list_to_map foldr fst snd jwe.PrivateParams].
        assert (Hne : "x5t#256" <> k).
        { intros <-. apply Hout. by apply (bool_decide_unpack _). }
        rewrite delete_insert_ne by done.
        rewrite <- insert_union_l.
        rewrite <- insert_union_r; [done|].
        rewrite lookup_delete_ne; done.
    + rewrite (bind_Done _ _ _ _ _ (jwe_Set_x5t256_run url_Parse _ t _ _ Ho)).
      rewrite (IH _ _ Hnd Hl (list_lookup_insert_eq _ _ _ Hlt)).
      rewrite list_insert_insert_eq. do 3 f_equal.
      * unfold after_entries. cbn [list_to_map foldr fst snd jwe.Essential].
        by rewrite lookup_insert_eq, Hnone.
      * cbn [list_to_map foldr fst snd jwe.PrivateParams].
        rewrite delete_insert_eq. by rewrite (delete_id _ _ Hnone).
Qed.

(** X19. jwe [Header.UnmarshalJSON] on a header at an address, when both
    decodings of the text succeed: the essential struct is what
    [json.Unmarshal] made of it, except that a member "x5t#256" (which the
    list of names to delete does not hold, and [Set] has a case for)
    replaces the SHA-256 thumbprint; every other member outside the list is
    stored in [PrivateParams] over the entries the header had; the order in
    which the map is ranged over does not matter, and no error comes back
    unless "x5t#256" is not a string. *)
Theorem jwe_UnmarshalJSON_parameters (E : jwe.json_pkg) url_Parse l data
  (s : list jwe.Header) o e m :
  s !! l = Some o ->
  jwe.Unmarshal_EssentialHeader E data (jwe.Essential o) = (e, None) ->
  jwe.Unmarshal_map E data = (m, None) ->
  (forall v, m !! "x5t#256" = Some v -> exists t, v = VString t) ->
  let rest := foldl (fun m n => delete n m) m jwe.essential_names in
  jwe.Header_UnmarshalJSON E url_Parse (Some l) data s
  = Done None
      (<[l := jwe.mkHeader (after_entries m e)
                (delete "x5t#256" rest ∪ jwe.PrivateParams o)]> s)
  /\ (forall k, rest !! k
                = if decide (k ∈ jwe.essential_names) then None else m !! k).
Proof.
  intros Ho He Hm Hx rest. split; [|intros k; apply lookup_delete_names].
  pose proof (lookup_lt_Some _ _ _ Ho) as Hlt.
  unfold jwe.Header_UnmarshalJSON.
  rewrite (bind_Done _ _ _ _ _ (deref_Some _ _ _ Ho)). rewrite He.
  rewrite (bind_Done _ _ _ _ _ (update_Some _ _ _ _ Ho)). rewrite Hm.
  fold rest.
  rewrite (jwe_set_each_run url_Parse l (map_to_list rest)
             (<[l := jwe.on_essential (fun _ => e) o]> s)
             (jwe.on_essential (fun _ => e) o)
             (NoDup_fst_map_to_list rest)).
  - rewrite list_insert_insert_eq, list_to_map_to_list. do 3 f_equal.
    unfold after_entries. unfold rest at 1. rewrite lookup_delete_names.
    rewrite decide_False; [done|]. by apply (bool_decide_unpack _).
  - intros k v Hkv. apply elem_of_map_to_list in Hkv.
    unfold rest in Hkv. rewrite lookup_delete_names in Hkv.
    destruct (decide (k ∈ jwe.essential_names)) as [|Hout]; [done|].
    destruct (decide (k = "x5t#256")) as [->|Hne].
    + right. split; [done|]. by apply Hx.
    + left. intros Hin. unfold jwe_labels in Hin.
      repeat (apply elem_of_cons in Hin as [->|Hin];
              [first [done | exfalso; apply Hout;
                             by apply (bool_decide_unpack _)]|]).
      by apply elem_of_nil in Hin.
  - by apply list_lookup_insert_eq.
Qed.

Lemma jwe_UnmarshalJSON_parameters_witness :
  exists o',
    jwe.Header_UnmarshalJSON sample2.json_three sample_url_Parse (Some 0) ""
      [sample.empty]
    = Done None [o']
    /\ jwe.KeyID (jwe.Essential o') = "k1"
    /\ jwe.X509CertThumbprintS256 (jwe.Essential o') = "abc"
    /\ jwe.PrivateParams o' !! "nonce" = Some (VString "n1")
    /\ jwe.PrivateParams o' !! "kid" = None
    /\ jwe.PrivateParams o' !! "x5t#256" = None.
Proof.
  eexists. split.
  - refine (proj1 (jwe_UnmarshalJSON_parameters sample2.json_three
                     sample_url_Parse 0 "" [sample.empty] sample.empty
                     (jwe.set_KeyID "k1" jwe.zero) _ eq_refl eq_refl eq_refl _)).
    intros v H. vm_compute in H. injection H as <-. by eexists.
  - split_and!; vm_compute; reflexivity.
Defined.

(** ** jwe: Decrypt, the recipients it reads and the ways it returns *)

(** A header that is in the store stays where it is when the store grows. *)
Lemma jwe_recipient_Algorithm_app (s k : list jwe.Header) r a :
  recipient_Algorithm s r = Some a -> recipient_Algorithm (s ++ k) r = Some a.
Proof.
  unfold recipient_Algorithm. destruct (jwe.Recipient_Header r) as [l|]; [|done].
  destruct (s !! l) as [o|] eqn:Ho; [|done].
  by rewrite (lookup_app_l_Some _ _ _ _ Ho).
Qed.

Lemma jwe_try_recipient_skip C alg key h cipher iv ct tag aad pt r
  (s : list jwe.Header) a :
  recipient_Algorithm s r = Some a -> a <> alg ->
  jwe.try_recipient C alg key h cipher iv ct tag aad pt r s
  = Done (jwe.Continue jwe.AlgorithmDiffers pt) s.
Proof.
  unfold recipient_Algorithm. destruct r as [[l|] ek]; [|done]. simpl.
  destruct (s !! l) as [o|] eqn:Ho; [|done]. intros [= <-] Hne.
  unfold jwe.try_recipient. simpl.
  rewrite (bind_Done _ _ _ _ _ (deref_Some _ _ _ Ho)).
  by destruct (String.eqb_spec (jwe.Algorithm (jwe.Essential o)) alg).
Qed.

Lemma jwe_loop_skip_prefix C alg key h cipher iv ct tag aad pt
  (s : list jwe.Header) pre rest :
  (forall r, r ∈ pre ->
     exists a, recipient_Algorithm s r = Some a /\ a <> alg) ->
  jwe.recipients_loop C alg key h cipher iv ct tag aad pt (pre ++ rest) s
  = jwe.recipients_loop C alg key h cipher iv ct tag aad pt rest s.
Proof.
  induction pre as [|r pre IH]; intros Hall; [done|].
  destruct (Hall r) as (a & Ha & Hne); [by left|].
  simpl. unfold bind at 1.
  rewrite (jwe_try_recipient_skip _ _ _ _ _ _ _ _ _ _ _ _ _ Ha Hne).
  apply IH. intros r' Hr'. apply Hall. by right.
Qed.

Lemma jwe_filter_Algorithm_app (s k : list jwe.Header) alg
  (rs : list jwe.Recipient) :
  (forall r, r ∈ rs -> is_Some (recipient_Algorithm s r)) ->
  filter (fun r => recipient_Algorithm (s ++ k) r = Some alg) rs
  = filter (fun r => recipient_Algorithm s r = Some alg) rs.
Proof.
  induction rs as [|r rs IH]; intros Hall; [done|].
  destruct (Hall r) as [a Ha]; [by left|].
  rewrite !filter_cons, IH by (intros; apply Hall; by right).
  rewrite (jwe_recipient_Algorithm_app s k r a Ha), Ha. done.
Qed.

Lemma jwe_loop_filter C alg key h cipher iv ct tag aad rs :
  forall pt (s : list jwe.Header),
  (forall r, r ∈ rs -> is_Some (recipient_Algorithm s r)) ->
  jwe.recipients_loop C alg key h cipher iv ct tag aad pt rs s
  = jwe.recipients_loop C alg key h cipher iv ct tag aad pt
      (filter (fun r => recipient_Algorithm s r = Some alg) rs) s.
Proof.
  induction rs as [|r rs IH]; intros pt s Hall; [done|].
  destruct (Hall r) as [a Ha]; [by left|].
  assert (Hrs : forall r', r' ∈ rs -> is_Some (recipient_Algorithm s r'))
    by (intros; apply Hall; by right).
  rewrite filter_cons. destruct (decide (a = alg)) as [->|Hne].
  - rewrite decide_True by done. simpl. unfold bind.
    destruct (jwe.try_recipient C _ _ _ _ _ _ _ _ _ _ s) as [st s1|] eqn:Ht;
      [|done].
    destruct (jwe_try_recipient_grows _ _ _ _ _ _ _ _ _ _ _ _ _ _ Ht)
      as [k ->].
    destruct st as [w pt1|pt1|e]; [|done..].
    rewrite IH.
    + by rewrite jwe_filter_Algorithm_app.
    + intros r' Hr'. destruct (Hrs r' Hr') as [a' Ha'].
      exists a'. by apply jwe_recipient_Algorithm_app.
  - rewrite decide_False by (rewrite Ha; congruence).
    simpl. unfold bind at 1.
    rewrite (jwe_try_recipient_skip _ _ _ _ _ _ _ _ _ _ _ _ _ Ha Hne).
    by apply IH.
Qed.

(** How a pass through the loop body can end when the base header is not
    nil: never at the [continue] after [Copy] nor at the one after [Merge],
    and a [return] carries the error "failed to decrypt key". *)
Lemma jwe_try_recipient_ends C alg key lh cipher iv ct tag aad pt r
  (s s' : list jwe.Header) st :
  jwe.try_recipient C alg key (Some lh) cipher iv ct tag aad pt r s
  = Done st s' ->
  match st with
  | jwe.Continue jwe.CopyFailed _ | jwe.Continue jwe.MergeFailed _ => False
  | jwe.Return e => e = "failed to decrypt key"
  | _ => True
  end.
Proof.
  intros H. unfold jwe.try_recipient in H.
  destruct r as [[lr|] ek]; [|discriminate].
  cbn [jwe.Recipient_Header jwe.EncryptedKey] in H.
  unfold bind at 1 in H.
  destruct (deref (Some lr) s) as [rh s0|] eqn:Hd; [|discriminate].
  destruct (negb _); [by inversion H|].
  unfold bind at 1 in H.
  destruct (jwe.NewHeader s0) as [h2 s1|]; [|discriminate].
  unfold bind at 1 in H.
  destruct (jwe.Header_Copy _ _ s1) as [[e|] s2|] eqn:Hc; [| |discriminate].
  { destruct (proj2 (jwe_Header_Copy_error _ _ _) _ _ Hc); discriminate. }
  unfold bind at 1 in H.
  destruct (jwe.Header_Merge _ _ s2) as [[h3 [e|]] s3|] eqn:Hm;
    [| |discriminate].
  { exfalso. unfold jwe.Header_Merge, bind at 1 in Hm.
    destruct (jwe.NewHeader s2) as [l3 s4|]; [|discriminate].
    unfold bind at 1 in Hm.
    destruct (jwe.Header_Copy _ _ s4) as [[e'|] s5|] eqn:Hc'; [| |discriminate].
    - destruct (proj2 (jwe_Header_Copy_error _ _ _) _ _ Hc'); discriminate.
    - unfold bind, deref, update, ret in Hm.
      repeat match type of Hm with
             | context [match ?x with _ => _ end] => destruct x eqn:?
             end; simplify_eq. }
  unfold bind at 1 in H.
  destruct (deref h3 s3) as [h2o s4|]; [|discriminate].
  destruct (jwe.BuildKeyDecrypter C _ _ _ _) as [k|e]; [|by inversion H].
  destruct (jwe.KeyDecrypt k _) as [cek [e|]]; [by inversion H|].
  destruct (jwe.decrypt cipher _ _ _ _ _) as [pt' [e|]]; by inversion H.
Qed.

Lemma jwe_loop_Return_error C alg key lh cipher iv ct tag aad rs :
  forall pt (s s' : list jwe.Header) e,
  jwe.recipients_loop C alg key (Some lh) cipher iv ct tag aad pt rs s
  = Done (inr e) s' ->
  e = "failed to decrypt key".
Proof.
  induction rs as [|r rs IH]; intros pt s s' e H; [discriminate|].
  simpl in H. unfold bind in H.
  destruct (jwe.try_recipient C _ _ _ _ _ _ _ _ _ _ s) as [st s1|] eqn:Ht;
    [|discriminate].
  apply jwe_try_recipient_ends in Ht.
  destruct st as [w pt1|pt1|e1]; [by eapply IH|discriminate|].
  by inversion H; subst.
Qed.

Lemma deref_Done {Obj} (h : ptr) (s s' : list Obj) o :
  deref h s = Done o s' -> s' = s /\ exists l, h = Some l /\ s !! l = Some o.
Proof.
  unfold deref. destruct h as [l|]; [|done].
  destruct (s !! l) as [x|] eqn:Hx; [|done].
  intros [= <- <-]. split; [done|]. by exists l.
Qed.

(** Whenever [Merge] returns: the store it ends with extends the one it
    started from; the error is nil exactly when both pointers are not; the
    pointer returned is nil exactly when the error is not, and otherwise it
    is the address of a header that did not exist before. *)
Lemma jwe_Header_Merge_cases (s s' : list jwe.Header) h1 h2 r err :
  jwe.Header_Merge h1 h2 s = Done (r, err) s' ->
  (exists k, s' = s ++ k)
  /\ ((err = None) <-> (h1 <> None /\ h2 <> None))
  /\ ((r = None) <-> (err <> None))
  /\ (forall l3, r = Some l3 -> l3 = length s)
  /\ (forall e, err = Some e ->
        (h2 = None /\ e = "merge target is nil")
        \/ (h1 = None /\ e = "copy target is nil")).
Proof.
  destruct h2 as [l2|].
  2: { intros [= <- <- <-]. split; [exists []; by rewrite app_nil_r|].
       naive_solver. }
  unfold jwe.Header_Merge, jwe.NewHeader.
  rewrite (bind_Done _ _ _ _ _ (alloc_run _ _)).
  set (h0 := jwe.mkHeader jwe.zero ∅).
  destruct h1 as [l1|].
  2: { intros [= <- <- <-]. split; [by eexists|]. naive_solver. }
  destruct ((s ++ [h0]) !! l1) as [a|] eqn:H1.
  2: { unfold jwe.Header_Copy, bind, deref. by rewrite H1. }
  rewrite (bind_Done _ _ _ _ _
             (jwe_Header_Copy_run _ _ _ _ _ (lookup_alloc s h0) H1)).
  rewrite insert_alloc_last. set (c := jwe.mkHeader _ _).
  destruct ((s ++ [c]) !! l2) as [b|] eqn:H2.
  2: { unfold bind, deref. by rewrite H2. }
  rewrite (bind_Done _ _ _ _ _ (deref_Some _ _ _ H2)).
  rewrite (bind_Done _ _ _ _ _ (update_Some _ _ _ _ (lookup_alloc s c))).
  rewrite insert_alloc_last. set (c' := jwe.on_essential _ c).
  destruct ((s ++ [c']) !! l2) as [b'|] eqn:H2'.
  2: { unfold bind, deref. by rewrite H2'. }
  rewrite (bind_Done _ _ _ _ _ (deref_Some _ _ _ H2')).
  rewrite (bind_Done _ _ _ _ _ (update_Some _ _ _ _ (lookup_alloc s c'))).
  rewrite insert_alloc_last.
  intros [= <- <- <-]. split; [by eexists|]. naive_solver.
Qed.

(** X20. Every way [Decrypt] can return. The store it ends with extends the one
    it started from, so no header of the message or of a recipient is
    written; with an error the bytes returned are nil, and the error is one
    of: no recipients, "merge target is nil" (a nil unprotected header), the
    unsupported content cipher, "failed to decrypt key", no plaintext after
    the loop, or the error of the flate writer. The errors of [Copy] are not
    among them. *)
Theorem Decrypt_outcomes C m alg key (s s' : list jwe.Header) out err :
  jwe.Message_Decrypt C m alg key s = Done (out, err) s' ->
  (exists k, s' = s ++ k)
  /\ (forall e, err = Some e ->
        out = ""
        /\ (e = "no recipients, can not proceed with decrypt"
            \/ e = "merge target is nil"
            \/ (exists enc,
                   e = String.append "unsupported content cipher algorithm '"
                         (String.append enc "'"))
            \/ e = "failed to decrypt key"
            \/ e = "failed to find matching recipient to decrypt key"
            \/ (exists pt junk, jwe.flate_Writer C 1 pt = (junk, Some e)))).
Proof.
  intros H. unfold jwe.Message_Decrypt in H.
  destruct (Nat.eqb _ 0).
  { inversion H; subst. split; [exists []; by rewrite app_nil_r|].
    intros e [= <-]. split; [done|]. by left. }
  destruct (jwe.ProtectedHeader m) as [[hp src]|]; [|discriminate].
  cbn [jwe.Header_of] in H. unfold bind at 1 in H.
  destruct (deref hp s) as [po s0|] eqn:Hd; [|discriminate].
  apply deref_Done in Hd as (-> & lp & -> & Hpo).
  unfold jwe.NewHeader in H. rewrite (bind_Done _ _ _ _ _ (alloc_run _ _)) in H.
  set (h0 := jwe.mkHeader jwe.zero ∅) in H.
  rewrite (bind_Done _ _ _ _ _
             (jwe_Header_Copy_run _ _ _ _ _ (lookup_alloc s h0)
                (lookup_alloc_old s h0 _ _ Hpo))) in H.
  rewrite insert_alloc_last in H. set (c := jwe.mkHeader _ _) in H.
  unfold bind at 1 in H.
  destruct (jwe.Header_Merge _ _ _) as [[h e] s1|] eqn:Hm; [|discriminate].
  apply jwe_Header_Merge_cases in Hm as ([k1 ->] & Herr & Hnil & _ & He).
  destruct e as [e|].
  { inversion H; subst. split; [rewrite <- (assoc_L (++)); by eexists|].
    intros e' [= <-]. split; [done|]. right; left.
    by destruct (He e eq_refl) as [[_ ->]|[? _]]. }
  destruct h as [lh|]; [|exfalso; by apply (proj1 Hnil)].
  simpl in H.
  destruct (jwe.BuildContentCipher C _) as [cipher|e].
  2: { inversion H; subst. split; [rewrite <- (assoc_L (++)); by eexists|].
       intros e' [= <-]. split; [done|]. right; right; left. by eexists. }
  unfold bind at 1 in H.
  destruct (jwe.recipients_loop _ _ _ _ _ _ _ _ _ _ _ _)
    as [[[pt|]|e] s2|] eqn:Hloop; [| | |discriminate].
  - pose proof Hloop as Hg.
    apply jwe_recipients_loop_grows in Hg as [k2 ->].
    unfold bind at 1 in H.
    destruct (deref _ _) as [ho s3|] eqn:Hd; [|discriminate].
    apply deref_Done in Hd as (-> & _).
    assert (Hext : exists k, ((s ++ [c]) ++ k1) ++ k2 = s ++ k)
      by (rewrite <- !(assoc_L (++)); by eexists).
    destruct (String.eqb _ _).
    + destruct (jwe.flate_Writer C 1 pt) as [o [e|]] eqn:Hw;
        inversion H; subst; split; try done.
      intros e' [= <-]. split; [done|]. do 5 right. by exists pt, o.
    + inversion H; subst. by split.
  - apply jwe_recipients_loop_grows in Hloop as [k2 ->].
    inversion H; subst. split; [rewrite <- !(assoc_L (++)); by eexists|].
    intros e' [= <-]. split; [done|]. do 4 right. by left.
  - pose proof (jwe_loop_Return_error _ _ _ _ _ _ _ _ _ _ _ _ _ _ Hloop) as ->.
    apply jwe_recipients_loop_grows in Hloop as [k2 ->].
    inversion H; subst. split; [rewrite <- !(assoc_L (++)); by eexists|].
    intros e' [= <-]. split; [done|]. do 3 right. by left.
Qed.

Lemma Decrypt_outcomes_witness :
  exists s',
    jwe.Message_Decrypt (samplecrypto.crypto samplecrypto.mark)
      (sample.message "" "hello" [sample.recipient_K1; sample.recipient_K2])
      "wrap" (VBytes "K2") sample.wrap_store
    = Done ("", Some "failed to decrypt key") s'
    /\ exists k, s' = sample.wrap_store ++ k.
Proof.
  eexists. split; [vm_compute; reflexivity|].
  apply (Decrypt_outcomes (samplecrypto.crypto samplecrypto.mark)
           (sample.message "" "hello"
              [sample.recipient_K1; sample.recipient_K2])
           "wrap" (VBytes "K2") sample.wrap_store _ ""
           (Some "failed to decrypt key")).
  vm_compute. reflexivity.
Defined.


(** X21. [Decrypt] reads past the algorithm guard only the recipients whose own
    header names the caller's algorithm: with every recipient's header in
    the store, the call gives what it gives on the message with the other
    recipients removed, as long as one is left; when none is left (and the
    content cipher is known) the answer is the error for no plaintext, and
    only the two headers built before the loop were allocated. *)
Theorem Decrypt_ignores_other_algorithms C m alg key (s : list jwe.Header)
  lp src lu po uo :
  jwe.ProtectedHeader m = Some (jwe.mkEncodedHeader (Some lp) src) ->
  jwe.UnprotectedHeader m = Some lu ->
  s !! lp = Some po -> s !! lu = Some uo ->
  (forall r, r ∈ jwe.Recipients m -> is_Some (recipient_Algorithm s r)) ->
  let kept := filter (fun r => recipient_Algorithm s r = Some alg)
                (jwe.Recipients m) in
  (kept <> [] ->
   jwe.Message_Decrypt C m alg key s
   = jwe.Message_Decrypt C (with_Recipients m kept) alg key s)
  /\ (jwe.Recipients m <> [] -> kept = [] ->
      forall cipher,
      jwe.BuildContentCipher C (jwe.ContentEncryption (jwe.Essential po))
      = inl cipher ->
      jwe.Message_Decrypt C m alg key s
      = Done ("", Some "failed to find matching recipient to decrypt key")
          (s ++ [jwe.mkHeader (jwe.Essential po) (jwe.PrivateParams po);
                 jwe.mkHeader
                   (jwe.EssentialHeader_Merge (jwe.Essential po)
                      (jwe.Essential uo))
                   (jwe.PrivateParams uo ∪ jwe.PrivateParams po)])).
Proof.
  intros Hp Hu Hpo Huo Hall kept.
  set (c := jwe.mkHeader (jwe.Essential po) (jwe.PrivateParams po)).
  set (h := jwe.mkHeader _ (jwe.PrivateParams uo ∪ jwe.PrivateParams po)).
  assert (Hall' : forall r, r ∈ jwe.Recipients m ->
                            is_Some (recipient_Algorithm (s ++ [c; h]) r)).
  { intros r Hr. destruct (Hall r Hr) as [a Ha]. exists a.
    by apply jwe_recipient_Algorithm_app. }
  assert (Hloop : forall cipher iv ct tag aad,
             jwe.recipients_loop C alg key (Some (S (length s))) cipher iv ct
               tag aad None (jwe.Recipients m) (s ++ [c; h])
             = jwe.recipients_loop C alg key (Some (S (length s))) cipher iv
                 ct tag aad None kept (s ++ [c; h])).
  { intros. rewrite jwe_loop_filter by done.
    by rewrite jwe_filter_Algorithm_app. }
  split.
  - intros Hkept.
    assert (Hne : jwe.Recipients m <> []).
    { intros Hnil. apply Hkept. unfold kept. by rewrite Hnil. }
    rewrite (jwe_Decrypt_run C m alg key s lp src lu po uo Hne Hp Hu Hpo Huo).
    rewrite (jwe_Decrypt_run C (with_Recipients m kept) alg key s lp src lu
               po uo Hkept Hp Hu Hpo Huo).
    cbv zeta. fold c h. simpl.
    destruct (jwe.BuildContentCipher C _); [|done]. by rewrite Hloop.
  - intros Hne Hkept cipher Hc.
    rewrite (jwe_Decrypt_run C m alg key s lp src lu po uo Hne Hp Hu Hpo Huo).
    cbv zeta. fold c h. rewrite Hc, Hloop, Hkept. reflexivity.
Qed.

Lemma Decrypt_ignores_other_algorithms_witness :
  jwe.Message_Decrypt (samplecrypto.crypto samplecrypto.mark)
    sample2.mixed_message "wrap" (VBytes "K2") sample2.mixed_store
  = jwe.Message_Decrypt (samplecrypto.crypto samplecrypto.mark)
      (with_Recipients sample2.mixed_message [sample.recipient_K2])
      "wrap" (VBytes "K2") sample2.mixed_store.
Proof.
  refine (proj1 (Decrypt_ignores_other_algorithms
                   (samplecrypto.crypto samplecrypto.mark)
                   sample2.mixed_message "wrap" (VBytes "K2")
                   sample2.mixed_store 0 "" 1
                   (sample.protected "" "A128GCM" "") sample.empty
                   eq_refl eq_refl eq_refl eq_refl _) _).
  - intros r Hin. apply elem_of_cons in Hin as [->|Hin].
    + eexists. reflexivity.
    + apply list_elem_of_singleton in Hin as ->. eexists. reflexivity.
  - discriminate.
Defined.


(** X22. [Decrypt] at the first recipient whose own header names the caller's
    algorithm [alg], when a key decrypter is built for it and its wrapped
    key decrypts. The key decrypter is built for [alg] itself (when that is
    not empty) from the merge of the protected, the unprotected and the
    recipient's header. What [cipher.decrypt] then returns is all that is
    looked at: its error only decides between [break] and going on, so when
    there is no error, or no later recipient names [alg], the call succeeds
    exactly when the bytes returned are not nil. *)
Theorem Decrypt_first_match_decides C m alg key (s : list jwe.Header)
  lp src lu po uo cipher pre lr ek post rh k cek opt err :
  jwe.ProtectedHeader m = Some (jwe.mkEncodedHeader (Some lp) src) ->
  jwe.UnprotectedHeader m = Some lu ->
  s !! lp = Some po -> s !! lu = Some uo ->
  jwe.BuildContentCipher C (jwe.ContentEncryption (jwe.Essential po))
  = inl cipher ->
  jwe.Recipients m = pre ++ jwe.mkRecipient (Some lr) ek :: post ->
  (forall r, r ∈ pre ->
     exists a, recipient_Algorithm s r = Some a /\ a <> alg) ->
  s !! lr = Some rh -> jwe.Algorithm (jwe.Essential rh) = alg -> alg <> "" ->
  let c := jwe.mkHeader (jwe.Essential po) (jwe.PrivateParams po) in
  let h := jwe.mkHeader
             (jwe.EssentialHeader_Merge (jwe.Essential po) (jwe.Essential uo))
             (jwe.PrivateParams uo ∪ jwe.PrivateParams po) in
  let h2 := jwe.mkHeader
              (jwe.EssentialHeader_Merge (jwe.Essential h) (jwe.Essential rh))
              (jwe.PrivateParams rh ∪ jwe.PrivateParams h) in
  jwe.BuildKeyDecrypter C alg h2 key (jwe.KeySize cipher) = inl k ->
  jwe.KeyDecrypt k ek = (cek, None) ->
  jwe.decrypt cipher cek (jwe.InitializationVector m) (jwe.CipherText m)
    (jwe.Tag m) (fst (buffer.Base64Encode (jwe.AuthenticatedData m)))
  = (opt, err) ->
  (err = None
   \/ forall r, r ∈ post ->
        exists a, recipient_Algorithm s r = Some a /\ a <> alg) ->
  jwe.Message_Decrypt C m alg key s
  = Done
      match opt with
      | None => ("", Some "failed to find matching recipient to decrypt key")
      | Some pt =>
          if String.eqb (jwe.Compression (jwe.Essential h)) jwa.Deflate
          then match jwe.flate_Writer C 1 pt with
               | (_, Some e) => ("", Some e)
               | (output, None) => (output, None)
               end
          else (pt, None)
      end
      (s ++ [c; h; h; h2]).
Proof.
  intros Hp Hu Hpo Huo Hc Hrs Hpre Hr Halg Hne c h h2 Hk Hek Hd Hpost.
  assert (Hrs' : jwe.Recipients m <> [])
    by (rewrite Hrs; by destruct pre).
  rewrite (jwe_Decrypt_run C m alg key s lp src lu po uo Hrs' Hp Hu Hpo Huo).
  cbv zeta. fold c h. rewrite Hc, Hrs.
  set (s1 := s ++ [c; h]).
  assert (Hext : forall r a, recipient_Algorithm s r = Some a ->
                             recipient_Algorithm s1 r = Some a)
    by (intros; by apply jwe_recipient_Algorithm_app).
  rewrite jwe_loop_skip_prefix.
  2: { intros r Hin. destruct (Hpre r Hin) as (a & Ha & Hna). exists a.
       split; [by apply Hext|done]. }
  assert (Hh : s1 !! S (length s) = Some h).
  { replace (S (length s)) with (length (s ++ [c]))
      by (rewrite length_app; simpl; lia).
    unfold s1. change (s ++ [c; h]) with (s ++ [c] ++ [h]).
    rewrite (assoc_L (++)). apply lookup_alloc. }
  assert (Hr1 : s1 !! lr = Some rh) by (by apply lookup_app_l_Some).
  assert (Halg2 : jwe.Algorithm (jwe.Essential h2) = alg).
  { change (jwe.Algorithm
              (jwe.EssentialHeader_Merge (jwe.Essential h) (jwe.Essential rh))
            = alg).
    pose proof (jwe_Merge_fields (jwe.Essential h) (jwe.Essential rh)) as F.
    cbv zeta in F. destruct F as (_ & _ & -> & _).
    rewrite Halg. unfold merged_string.
    destruct (String.eqb_spec alg ""); [done|reflexivity]. }
  cbn [jwe.recipients_loop]. unfold bind at 1.
  rewrite (jwe_try_recipient_run C alg key (S (length s)) cipher _ _ _ _ None
             lr ek s1 h rh Hh Hr1).
  rewrite Halg, String.eqb_refl. cbv zeta. cbn [negb].
  change (jwe.mkHeader
            (jwe.EssentialHeader_Merge (jwe.Essential h) (jwe.Essential rh))
            (jwe.PrivateParams rh ∪ jwe.PrivateParams h)) with h2.
  change (jwe.mkHeader (jwe.Essential h) (jwe.PrivateParams h)) with h.
  rewrite Halg2, Hk, Hek, Hd.
  assert (Hs2 : s1 ++ [h; h2] = s ++ [c; h; h; h2])
    by (unfold s1; by rewrite <- (assoc_L (++))).
  rewrite Hs2.
  destruct err as [e|].
  - destruct Hpost as [|Hpost]; [done|].
    rewrite <- (app_nil_r post), jwe_loop_skip_prefix.
    2: { intros r Hin. destruct (Hpost r Hin) as (a & Ha & Hna). exists a.
         split; [|done]. rewrite <- Hs2.
         apply jwe_recipient_Algorithm_app. by apply Hext. }
    cbn [jwe.recipients_loop]. unfold ret.
    destruct opt as [pt|]; [|done].
    by destruct (String.eqb _ _).
  - unfold ret. destruct opt as [pt|]; [|done].
    by destruct (String.eqb _ _).
Qed.

Lemma Decrypt_first_match_decides_witness :
  exists s',
    jwe.Message_Decrypt (samplecrypto.crypto samplecrypto.mark)
      sample2.mixed_message "wrap" (VBytes "K2") sample2.mixed_store
    = Done ("hello", None) s'.
Proof.
  eexists.
  eapply (Decrypt_first_match_decides
            (samplecrypto.crypto samplecrypto.mark)
            sample2.mixed_message "wrap" (VBytes "K2") sample2.mixed_store
            0 "" 1 (sample.protected "" "A128GCM" "") sample.empty
            samplecrypto.cipher [sample.recipient_plain] 3 "K2cek" []
            (sample.only_alg "wrap") _ "cek" (Some "hello") None);
    try reflexivity.
  - intros r Hin. apply list_elem_of_singleton in Hin as ->.
    exists "dir". split; [reflexivity|discriminate].
  - discriminate.
  - by left.
Defined.


(** X23. The errors [Decrypt] returns before it reaches the recipient loop.
    Without recipients the call fails at once, before any header is read
    (a nil protected header does not matter). A nil unprotected header is an
    error of the merge, reported after the copy of the protected header was
    allocated. A content cipher that cannot be built is reported under the
    [enc] of the protected header alone, whatever the unprotected header
    names, and before any recipient is read. *)
Theorem Decrypt_errors_before_the_loop C m alg key (s : list jwe.Header) :
  (jwe.Recipients m = [] ->
   jwe.Message_Decrypt C m alg key s
   = Done ("", Some "no recipients, can not proceed with decrypt") s)
  /\ (forall lp src po,
        jwe.Recipients m <> [] ->
        jwe.ProtectedHeader m = Some (jwe.mkEncodedHeader (Some lp) src) ->
        s !! lp = Some po ->
        jwe.UnprotectedHeader m = None ->
        jwe.Message_Decrypt C m alg key s
        = Done ("", Some "merge target is nil")
            (s ++ [jwe.mkHeader (jwe.Essential po) (jwe.PrivateParams po)]))
  /\ (forall lp src po lu uo e,
        jwe.Recipients m <> [] ->
        jwe.ProtectedHeader m = Some (jwe.mkEncodedHeader (Some lp) src) ->
        s !! lp = Some po ->
        jwe.UnprotectedHeader m = Some lu -> s !! lu = Some uo ->
        jwe.BuildContentCipher C (jwe.ContentEncryption (jwe.Essential po))
        = inr e ->
        jwe.Message_Decrypt C m alg key s
        = Done ("", Some (String.append "unsupported content cipher algorithm '"
                            (String.append
                               (jwe.ContentEncryption (jwe.Essential po)) "'")))
            (s ++ [jwe.mkHeader (jwe.Essential po) (jwe.PrivateParams po);
                   jwe.mkHeader
                     (jwe.EssentialHeader_Merge (jwe.Essential po)
                        (jwe.Essential uo))
                     (jwe.PrivateParams uo ∪ jwe.PrivateParams po)])).
Proof.
  split_and!.
  - intros Hrs. unfold jwe.Message_Decrypt. by rewrite Hrs.
  - intros lp src po Hrs Hp Hpo Hu. unfold jwe.Message_Decrypt.
    assert (Hlen : Nat.eqb (length (jwe.Recipients m)) 0 = false)
      by (by destruct (jwe.Recipients m)).
    rewrite Hlen, Hp, Hu. cbn [jwe.Header_of].
    rewrite (bind_Done _ _ _ _ _ (deref_Some _ _ _ Hpo)).
    unfold jwe.NewHeader. rewrite (bind_Done _ _ _ _ _ (alloc_run _ _)).
    set (h0 := jwe.mkHeader jwe.zero ∅).
    rewrite (bind_Done _ _ _ _ _
               (jwe_Header_Copy_run _ _ _ _ _ (lookup_alloc s h0)
                  (lookup_alloc_old s h0 _ _ Hpo))).
    rewrite insert_alloc_last, jwe_Copy_all_fields. simpl.
    by rewrite (right_id_L ∅ (∪)).
  - intros lp src po lu uo e Hrs Hp Hpo Hu Huo Hc.
    rewrite (jwe_Decrypt_run C m alg key s lp src lu po uo Hrs Hp Hu Hpo Huo).
    cbv zeta. by rewrite Hc.
Qed.

Lemma Decrypt_errors_before_the_loop_witness :
  jwe.Message_Decrypt (samplecrypto.crypto samplecrypto.mark)
    (sample.message "" "hello" []) "dir" (VBytes "cek") sample.wrap_store
  = Done ("", Some "no recipients, can not proceed with decrypt")
      sample.wrap_store
  /\ jwe.Message_Decrypt (samplecrypto.crypto samplecrypto.mark)
       (sample.message "" "hello" [sample.recipient_plain]) "dir"
       (VBytes "cek") (sample.dir_store' "A256GCM" "")
     = Done ("", Some "unsupported content cipher algorithm 'A256GCM'")
         (sample.dir_store' "A256GCM" ""
          ++ [sample.protected "" "A256GCM" "";
              sample.protected "" "A256GCM" ""]).
Proof.
  split.
  - exact (proj1 (Decrypt_errors_before_the_loop
                    (samplecrypto.crypto samplecrypto.mark)
                    (sample.message "" "hello" []) "dir" (VBytes "cek")
                    sample.wrap_store) eq_refl).
  - refine (eq_trans
              (proj2 (proj2 (Decrypt_errors_before_the_loop
                               (samplecrypto.crypto samplecrypto.mark)
                               (sample.message "" "hello"
                                  [sample.recipient_plain])
                               "dir" (VBytes "cek")
                               (sample.dir_store' "A256GCM" "")))
                 0 "" (sample.protected "" "A256GCM" "") 1 sample.empty
                 "unsupported content cipher" _ eq_refl eq_refl eq_refl
                 eq_refl eq_refl) _).
    + discriminate.
    + vm_compute. reflexivity.
Defined.

(** ** Encoding a header, nil or not *)

(** X24. In package jws, [EncodedHeader.MarshalJSON] of a header at an
    address is the JSON string of what [Header.Base64Encode] gives for that
    header (or its error): the two functions marshal and encode alike. In
    both packages an encoded header whose [Header] is nil is marshaled
    without error, as the JSON string of the base64url text of [null]. *)
Theorem EncodedHeader_MarshalJSON_edges J :
  (forall E (s : list jws.Header) l o src,
      s !! l = Some o ->
      jws.EncodedHeader_MarshalJSON J E (jws.mkEncodedHeader (Some l) src) s
      = Done (match jws.Header_Base64Encode E o with
              | (_, Some err) => ("", Some err)
              | (b, None) => Marshal_string J b
              end) s)
  /\ (forall E (s : list jws.Header) src,
         jws.EncodedHeader_MarshalJSON J E (jws.mkEncodedHeader None src) s
         = Done (Marshal_string J "bnVsbA") s)
  /\ (forall E (s : list jwe.Header) src,
         jwe.EncodedHeader_MarshalJSON J E (jwe.mkEncodedHeader None src) s
         = Done (Marshal_string J "bnVsbA") s).
Proof.
  split_and!.
  - intros E s l o src Ho.
    rewrite (jws_EncodedHeader_MarshalJSON_run J E s l o src Ho).
    unfold jws.Header_Base64Encode, jws.Header_MarshalJSON.
    by destruct (jws.MergeMarshal E _ _) as [js [err|]].
  - reflexivity.
  - reflexivity.
Qed.

Lemma EncodedHeader_MarshalJSON_edges_witness :
  jws.EncodedHeader_MarshalJSON minijson.json minijson.jws_emap
    (jws.mkEncodedHeader (Some 0) "") [sample.jws_HS256]
  = Done (match jws.Header_Base64Encode minijson.jws_emap sample.jws_HS256 with
          | (_, Some err) => ("", Some err)
          | (b, None) => Marshal_string minijson.json b
          end) [sample.jws_HS256].
Proof.
  exact (proj1 (EncodedHeader_MarshalJSON_edges minijson.json)
           minijson.jws_emap [sample.jws_HS256] 0 sample.jws_HS256 ""
           eq_refl).
Defined.
